(** * Kernelflinger: boot policy, device-state store and hand-over tables

    A shallow embedding of the parts of kernelflinger that carry the boot
    policy ([kernelflinger.c]), the device-state store ([tpm2_security.c],
    [vars.c]) and the boot-parameter tables ([android.c]), together with the
    properties of these functions.

    Conventions.  C integers are [Z] with the wrap-around of their width
    written out; byte buffers are [list Z]; [EFI_STATUS] is an enumeration of
    the codes the sources use; firmware services (TPM, variable store, disk,
    console, clock) are explicit state that each function threads through. *)

From Stdlib Require Import ZArith List Lia Bool.
From stdpp Require Import base option list gmap strings.

Local Open Scope Z_scope.

(* ================================================================== *)
(** * Part I. Definitions *)
(* ================================================================== *)

(** ** EFI status codes *)

Inductive EFI_STATUS : Set :=
| EFI_SUCCESS
| EFI_INVALID_PARAMETER
| EFI_UNSUPPORTED
| EFI_BAD_BUFFER_SIZE
| EFI_NOT_READY
| EFI_DEVICE_ERROR
| EFI_OUT_OF_RESOURCES
| EFI_NOT_FOUND
| EFI_ACCESS_DENIED
| EFI_SECURITY_VIOLATION
| EFI_COMPROMISED_DATA
| EFI_ALREADY_STARTED.

#[global] Instance EFI_STATUS_eq_dec : EqDecision EFI_STATUS.
Proof. solve_decision. Defined.

(** [EFI_ERROR(ret)]: every code but [EFI_SUCCESS] has the high bit set. *)
Definition EFI_ERROR (ret : EFI_STATUS) : bool :=
  match ret with EFI_SUCCESS => false | _ => true end.

(** ** Fixed-width integers and buffers *)

Definition UINT8_MAX  : Z := 255.
Definition wrap8  (x : Z) : Z := x mod 2 ^ 8.
Definition wrap16 (x : Z) : Z := x mod 2 ^ 16.
Definition wrap32 (x : Z) : Z := x mod 2 ^ 32.
Definition wrap64 (x : Z) : Z := x mod 2 ^ 64.

(** The object representation of an unsigned integer on x86 (little endian):
    [n] bytes, least significant first. *)
Fixpoint bytes_of_uint (n : nat) (v : Z) : list Z :=
  match n with
  | O => []
  | S n' => v mod 256 :: bytes_of_uint n' (v / 256)
  end.

Fixpoint uint_of_bytes (bs : list Z) : Z :=
  match bs with
  | [] => 0
  | b :: bs' => b + 256 * uint_of_bytes bs'
  end.

(** [memcpy(dst + off, src, len src)] on a buffer held as a list: the bytes
    before [off] and after the copied range are kept. *)
Definition buf_write (dst : list Z) (off : nat) (src : list Z) : list Z :=
  take off dst ++ src ++ drop (off + length src) dst.

(** [memset_s(dst, dmax, c, n)] with [n <= dmax]: the first [n] bytes become
    [c]. *)
Definition memset_s (dst : list Z) (c : Z) (n : nat) : list Z :=
  replicate n c ++ drop n dst.

(** ** The TPM 2.0 NV storage *)

(** Modelled from the spec: the NV commands of the [Tpm] trait
    ([Tpm2NvRead], [Tpm2NvWrite], [Tpm2NvReadLock], [Tpm2NvWriteLock],
    [Tpm2NvDefineSpace], [Tpm2NvUndefineSpace]) and [Tpm2GetRandom], whose
    implementation is outside the sources.  An NV index carries the
    attributes of [config_table], the two lock bits the TPM sets, and its
    data.  A read-locked index refuses reads until the next TPM reset, a
    write-locked one refuses writes (comments of [config_table]).  Any
    command may also fail with [EFI_DEVICE_ERROR] and no effect (a TPM that
    does not answer in time): the sources retry such failures in
    [tpm2_read_nvindex] and [tpm2_write_nvindex] and test for them after
    every other command; the [tpm_faults] schedule says which of the coming
    commands fail that way. *)
Record nv_space : Set := mk_nv_space {
  TPMA_NV_WRITEALL      : bool;
  TPMA_NV_READ_STCLEAR  : bool;
  TPMA_NV_WRITE_STCLEAR : bool;
  TPMA_NV_WRITEDEFINE   : bool;
  TPMA_NV_WRITTEN       : bool;
  TPMA_NV_READLOCKED    : bool;
  TPMA_NV_WRITELOCKED   : bool;
  nv_data               : list Z
}.

Record tpm : Type := mk_tpm {
  tpm_nv     : gmap Z nv_space;
  tpm_faults : list bool
}.

Definition NV_INDEX_TRUSTYOS_SEED : Z := 0x01500080.
Definition NV_INDEX_OPTEEOS_SEED  : Z := 0x01500081.
Definition NV_INDEX_BOOTLOADER    : Z := 0x01500082.

(** Modelled from the spec: [TRUSTY_SEED_SIZE], declared in a header outside
    the sources; the trusty seed is 32 bytes. *)
Definition TRUSTY_SEED_SIZE : nat := 32.

Definition NV_INDEX_BOOTLOADER_SIZE : nat := 512.

(** Consume one entry of the fault schedule. *)
Definition tpm_next_fault (t : tpm) : bool * tpm :=
  match tpm_faults t with
  | [] => (false, t)
  | f :: fs => (f, mk_tpm (tpm_nv t) fs)
  end.

Definition set_nv (t : tpm) (idx : Z) (s : nv_space) : tpm :=
  mk_tpm (<[idx := s]> (tpm_nv t)) (tpm_faults t).

Definition Tpm2NvRead (nv_index : Z) (size offset : nat) (t : tpm)
  : EFI_STATUS * list Z * tpm :=
  let '(fault, t) := tpm_next_fault t in
  if fault then (EFI_DEVICE_ERROR, [], t)
  else match tpm_nv t !! nv_index with
       | None => (EFI_NOT_FOUND, [], t)
       | Some s =>
           if TPMA_NV_READLOCKED s then (EFI_ACCESS_DENIED, [], t)
           else if negb (TPMA_NV_WRITTEN s) then (EFI_NOT_READY, [], t)
           else if (length (nv_data s) <? offset + size)%nat
                then (EFI_BAD_BUFFER_SIZE, [], t)
           else (EFI_SUCCESS, take size (drop offset (nv_data s)), t)
       end.

Definition Tpm2NvWrite (nv_index : Z) (data : list Z) (offset : nat) (t : tpm)
  : EFI_STATUS * tpm :=
  let '(fault, t) := tpm_next_fault t in
  if fault then (EFI_DEVICE_ERROR, t)
  else match tpm_nv t !! nv_index with
       | None => (EFI_NOT_FOUND, t)
       | Some s =>
           if TPMA_NV_WRITELOCKED s then (EFI_ACCESS_DENIED, t)
           else if (length (nv_data s) <? offset + length data)%nat
                then (EFI_BAD_BUFFER_SIZE, t)
           else if TPMA_NV_WRITEALL s
                   && negb (length data =? length (nv_data s))%nat
                then (EFI_BAD_BUFFER_SIZE, t)
           else (EFI_SUCCESS,
                 set_nv t nv_index
                   (mk_nv_space (TPMA_NV_WRITEALL s) (TPMA_NV_READ_STCLEAR s)
                      (TPMA_NV_WRITE_STCLEAR s) (TPMA_NV_WRITEDEFINE s)
                      true (TPMA_NV_READLOCKED s) (TPMA_NV_WRITELOCKED s)
                      (buf_write (nv_data s) offset data)))
       end.

Definition Tpm2NvReadLock (nv_index : Z) (t : tpm) : EFI_STATUS * tpm :=
  let '(fault, t) := tpm_next_fault t in
  if fault then (EFI_DEVICE_ERROR, t)
  else match tpm_nv t !! nv_index with
       | None => (EFI_NOT_FOUND, t)
       | Some s =>
           if negb (TPMA_NV_READ_STCLEAR s) then (EFI_UNSUPPORTED, t)
           else (EFI_SUCCESS,
                 set_nv t nv_index
                   (mk_nv_space (TPMA_NV_WRITEALL s) (TPMA_NV_READ_STCLEAR s)
                      (TPMA_NV_WRITE_STCLEAR s) (TPMA_NV_WRITEDEFINE s)
                      (TPMA_NV_WRITTEN s) true (TPMA_NV_WRITELOCKED s)
                      (nv_data s)))
       end.

Definition Tpm2NvWriteLock (nv_index : Z) (t : tpm) : EFI_STATUS * tpm :=
  let '(fault, t) := tpm_next_fault t in
  if fault then (EFI_DEVICE_ERROR, t)
  else match tpm_nv t !! nv_index with
       | None => (EFI_NOT_FOUND, t)
       | Some s =>
           if negb (TPMA_NV_WRITE_STCLEAR s || TPMA_NV_WRITEDEFINE s)
           then (EFI_UNSUPPORTED, t)
           else (EFI_SUCCESS,
                 set_nv t nv_index
                   (mk_nv_space (TPMA_NV_WRITEALL s) (TPMA_NV_READ_STCLEAR s)
                      (TPMA_NV_WRITE_STCLEAR s) (TPMA_NV_WRITEDEFINE s)
                      (TPMA_NV_WRITTEN s) (TPMA_NV_READLOCKED s) true
                      (nv_data s)))
       end.

(** The attributes of [TPMA_NV] that the caller of [Tpm2NvDefineSpace]
    chooses and that the model tracks. *)
Record TPMA_NV : Set := mk_TPMA_NV {
  attr_WRITEALL      : bool;
  attr_READ_STCLEAR  : bool;
  attr_WRITE_STCLEAR : bool;
  attr_WRITEDEFINE   : bool
}.

(** Modelled from the spec: [Tpm2NvDefineSpace] under the owner
    authorisation, taken to be the empty one the sources pass.  An index
    that exists is not defined again ([EFI_ALREADY_STARTED]); a new index
    has the attributes asked for, is neither written nor locked, and holds
    [data_size] bytes 0xff. *)
Definition Tpm2NvDefineSpace (nv_index : Z) (attributes : TPMA_NV)
    (data_size : nat) (t : tpm) : EFI_STATUS * tpm :=
  let '(fault, t) := tpm_next_fault t in
  if fault then (EFI_DEVICE_ERROR, t)
  else match tpm_nv t !! nv_index with
       | Some _ => (EFI_ALREADY_STARTED, t)
       | None =>
           (EFI_SUCCESS,
            set_nv t nv_index
              (mk_nv_space (attr_WRITEALL attributes)
                 (attr_READ_STCLEAR attributes) (attr_WRITE_STCLEAR attributes)
                 (attr_WRITEDEFINE attributes) false false false
                 (replicate data_size 255)))
       end.

(** Modelled from the spec: [Tpm2NvUndefineSpace] under the owner
    authorisation removes the index with its data and its lock bits. *)
Definition Tpm2NvUndefineSpace (nv_index : Z) (t : tpm) : EFI_STATUS * tpm :=
  let '(fault, t) := tpm_next_fault t in
  if fault then (EFI_DEVICE_ERROR, t)
  else match tpm_nv t !! nv_index with
       | None => (EFI_NOT_FOUND, t)
       | Some _ =>
           (EFI_SUCCESS, mk_tpm (delete nv_index (tpm_nv t)) (tpm_faults t))
       end.

(** Modelled from the spec: [Tpm2GetRandom] hands out [bytes_requested]
    bytes; [random] is the stream the TPM draws them from. *)
Definition Tpm2GetRandom (random : list Z) (bytes_requested : nat) (t : tpm)
  : EFI_STATUS * list Z * tpm :=
  let '(fault, t) := tpm_next_fault t in
  if fault then (EFI_DEVICE_ERROR, [], t)
  else (EFI_SUCCESS, take bytes_requested random, t).

(** ** tpm2_security.c *)

(** The attributes of [config_table]. *)
Definition config_table (nv_index : Z) : TPMA_NV :=
  if nv_index =? NV_INDEX_BOOTLOADER
  then mk_TPMA_NV false true true false
  else mk_TPMA_NV true true false true.

Definition tpm2_create_nvindex (nv_index : Z) (attributes : TPMA_NV)
    (data_size : nat) (t : tpm) : EFI_STATUS * tpm :=
  Tpm2NvDefineSpace nv_index attributes data_size t.

(** The [do { ... retry_times--; } while (ret == EFI_DEVICE_ERROR &&
    retry_times > 0)] loop of [tpm2_write_nvindex]; [retry_times] starts
    at 5. *)
Fixpoint tpm2_write_nvindex_loop (retry_times : nat) (nv_index : Z)
    (data : list Z) (offset : nat) (t : tpm) : EFI_STATUS * tpm :=
  let '(ret, t') := Tpm2NvWrite nv_index data offset t in
  match retry_times with
  | S (S _ as retry_times') =>
      if decide (ret = EFI_DEVICE_ERROR)
      then tpm2_write_nvindex_loop retry_times' nv_index data offset t'
      else (ret, t')
  | _ => (ret, t')
  end.

Definition tpm2_write_nvindex (nv_index : Z) (data_size : nat) (data : list Z)
    (offset : nat) (t : tpm) : EFI_STATUS * tpm :=
  tpm2_write_nvindex_loop 5 nv_index (take data_size data) offset t.

Fixpoint tpm2_read_nvindex_loop (retry_times : nat) (nv_index : Z)
    (size offset : nat) (t : tpm) : EFI_STATUS * list Z * tpm :=
  let '(ret, buffer, t') := Tpm2NvRead nv_index size offset t in
  match retry_times with
  | S (S _ as retry_times') =>
      if decide (ret = EFI_DEVICE_ERROR)
      then tpm2_read_nvindex_loop retry_times' nv_index size offset t'
      else (ret, buffer, t')
  | _ => (ret, buffer, t')
  end.

(** [data] is the caller's buffer; it is written only when the read
    succeeded. *)
Definition tpm2_read_nvindex (nv_index : Z) (data_size : nat) (data : list Z)
    (offset : nat) (t : tpm) : EFI_STATUS * list Z * tpm :=
  let '(ret, buffer, t') :=
    tpm2_read_nvindex_loop 5 nv_index data_size offset t in
  if EFI_ERROR ret then (ret, data, t')
  else (EFI_SUCCESS, buf_write data 0 buffer, t').

Definition tpm2_read_lock_nvindex (nv_index : Z) (t : tpm) : EFI_STATUS * tpm :=
  Tpm2NvReadLock nv_index t.

Definition tpm2_write_lock_nvindex (nv_index : Z) (t : tpm) : EFI_STATUS * tpm :=
  Tpm2NvWriteLock nv_index t.

Definition tpm2_delete_index (index : Z) (t : tpm) : EFI_STATUS * tpm :=
  Tpm2NvUndefineSpace index t.

Definition create_index_and_write_lock (nv_index : Z) (attributes : TPMA_NV)
    (data_size : nat) (data : list Z) (t : tpm) : EFI_STATUS * tpm :=
  let '(ret, t) := tpm2_create_nvindex nv_index attributes data_size t in
  if EFI_ERROR ret then (ret, t)
  else
    let '(ret, t) := tpm2_write_nvindex nv_index data_size data 0 t in
    if EFI_ERROR ret then (ret, t)
    else tpm2_write_lock_nvindex nv_index t.

(** [tpm2_fuse_trusty_seed]: a fresh seed from the TPM is stored in a new
    seed index, write-locked, and read back.  [read_seed] is a local that is
    compared only after the read has filled it. *)
Definition tpm2_fuse_trusty_seed (random : list Z) (t : tpm)
  : EFI_STATUS * tpm :=
  let '(ret, trusty_seed, t) := Tpm2GetRandom random TRUSTY_SEED_SIZE t in
  if EFI_ERROR ret then (ret, t)
  else
    let '(ret, t) :=
      create_index_and_write_lock NV_INDEX_TRUSTYOS_SEED
        (config_table NV_INDEX_TRUSTYOS_SEED) TRUSTY_SEED_SIZE trusty_seed t in
    if EFI_ERROR ret then (ret, t)
    else
      let '(ret, read_seed, t) :=
        tpm2_read_nvindex NV_INDEX_TRUSTYOS_SEED TRUSTY_SEED_SIZE
          (replicate TRUSTY_SEED_SIZE 0) 0 t in
      if EFI_ERROR ret then (ret, t)
      else if bool_decide (take TRUSTY_SEED_SIZE trusty_seed = read_seed)
      then (ret, t)
      else (EFI_SECURITY_VIOLATION, t).

(** [tpm2_fuse_provision_seed]: with secure boot enabled, delete the seed
    index if there is one and fuse a new seed. *)
Definition tpm2_fuse_provision_seed (is_platform_secure_boot_enabled : bool)
    (random : list Z) (t : tpm) : EFI_STATUS * tpm :=
  if negb is_platform_secure_boot_enabled then (EFI_SECURITY_VIOLATION, t)
  else
    let '(ret, t) := tpm2_delete_index NV_INDEX_TRUSTYOS_SEED t in
    if EFI_ERROR ret && negb (bool_decide (ret = EFI_NOT_FOUND)) then (ret, t)
    else tpm2_fuse_trusty_seed random t.

(** [tpm2_read_trusty_seed]: read, lock anyway, then decide.  [seed_size] is
    a local that keeps the value [TRUSTY_SEED_SIZE], so the short-read test
    compares the constant with itself. *)
Definition tpm2_read_trusty_seed (seed : list Z) (t : tpm)
  : EFI_STATUS * list Z * tpm :=
  let seed_size := TRUSTY_SEED_SIZE in
  let '(ret, seed, t) :=
    tpm2_read_nvindex NV_INDEX_TRUSTYOS_SEED seed_size seed 0 t in
  let '(ret2, t) := tpm2_read_lock_nvindex NV_INDEX_TRUSTYOS_SEED t in
  if EFI_ERROR ret then
    (ret, memset_s seed 0 TRUSTY_SEED_SIZE, t)
  else if EFI_ERROR ret2 then
    (ret2, memset_s seed 0 TRUSTY_SEED_SIZE, t)
  else if negb (seed_size =? TRUSTY_SEED_SIZE)%nat then
    (EFI_COMPROMISED_DATA, memset_s seed 0 TRUSTY_SEED_SIZE, t)
  else (EFI_SUCCESS, seed, t).

(** [tpm2_bootloader_t]: [struct_ver], [lock_state], [reserved[6]], then
    [rollback_index[8]]. *)
Definition offsetof_lock_state : nat := 1.
Definition offsetof_rollback_index : nat := 8.
Definition rollback_index_slots : Z := 8.

(** In [read_device_state_tpm2] and [read_rollback_index_tpm2] the local
    [data_size] is compared with the constant it was set to, as [seed_size]
    above; these tests never fire and are left out. *)
Definition read_device_state_tpm2 (state : Z) (t : tpm)
  : EFI_STATUS * Z * tpm :=
  let '(ret, data, t) :=
    tpm2_read_nvindex NV_INDEX_BOOTLOADER 1 [state] offsetof_lock_state t in
  if EFI_ERROR ret then (ret, state, t)
  else (ret, uint_of_bytes data, t).

Definition read_rollback_index_tpm2 (rollback_index_slot : Z)
    (out_rollback_index : Z) (t : tpm) : EFI_STATUS * Z * tpm :=
  if rollback_index_slots <=? rollback_index_slot then
    (EFI_INVALID_PARAMETER, out_rollback_index, t)
  else
    let '(ret, data, t) :=
      tpm2_read_nvindex NV_INDEX_BOOTLOADER 8
        (bytes_of_uint 8 out_rollback_index)
        (Z.to_nat (wrap16 (rollback_index_slot * 8
                           + Z.of_nat offsetof_rollback_index))) t in
    if EFI_ERROR ret then (ret, out_rollback_index, t)
    else (ret, uint_of_bytes data, t).

Definition write_rollback_index_tpm2 (rollback_index_slot : Z)
    (rollback_index : Z) (t : tpm) : EFI_STATUS * tpm :=
  if rollback_index_slots <=? rollback_index_slot then
    (EFI_INVALID_PARAMETER, t)
  else
    tpm2_write_nvindex NV_INDEX_BOOTLOADER 8 (bytes_of_uint 8 rollback_index)
      (Z.to_nat (wrap16 (rollback_index_slot * 8
                         + Z.of_nat offsetof_rollback_index))) t.

(** [tpm2_end]: the three lock requests, whose results are dropped. *)
Definition tpm2_end (t : tpm) : EFI_STATUS * tpm :=
  let '(_, t) := tpm2_read_lock_nvindex NV_INDEX_TRUSTYOS_SEED t in
  let '(_, t) := tpm2_read_lock_nvindex NV_INDEX_BOOTLOADER t in
  let '(_, t) := tpm2_write_lock_nvindex NV_INDEX_BOOTLOADER t in
  (EFI_SUCCESS, t).

(** ** The firmware variable store *)

Inductive efi_guid : Set := fastboot_guid | loader_guid.

#[global] Instance efi_guid_eq_dec : EqDecision efi_guid.
Proof. solve_decision. Defined.

#[global] Instance efi_guid_countable : Countable efi_guid.
Proof.
  refine (inj_countable'
            (fun g => match g with fastboot_guid => true | loader_guid => false end)
            (fun b : bool => if b then fastboot_guid else loader_guid) _).
  by intros [].
Defined.

Record efi_variable : Set := mk_efi_variable {
  var_nonvolatile    : bool;
  var_runtime_access : bool;   (* EFI_VARIABLE_RUNTIME_ACCESS *)
  var_data           : list Z
}.

(** Modelled from the spec: the [NvVars] trait ([get], [set], [del]), that is
    [get_efi_variable], [set_efi_variable] and [del_efi_variable] of the
    support library, outside the sources.  A variable is found by namespace
    and name; setting a variable replaces it; deleting an absent variable
    reports [EFI_NOT_FOUND].  As for the TPM, [var_faults] schedules the
    calls that fail with [EFI_DEVICE_ERROR] and no effect. *)
Record varstore : Type := mk_varstore {
  vars       : gmap (efi_guid * string) efi_variable;
  var_faults : list bool
}.

Definition var_next_fault (vs : varstore) : bool * varstore :=
  match var_faults vs with
  | [] => (false, vs)
  | f :: fs => (f, mk_varstore (vars vs) fs)
  end.

Definition get_efi_variable (guid : efi_guid) (name : string) (vs : varstore)
  : EFI_STATUS * option efi_variable * varstore :=
  let '(fault, vs) := var_next_fault vs in
  if fault then (EFI_DEVICE_ERROR, None, vs)
  else match vars vs !! (guid, name) with
       | None => (EFI_NOT_FOUND, None, vs)
       | Some v => (EFI_SUCCESS, Some v, vs)
       end.

Definition set_efi_variable (guid : efi_guid) (name : string) (data : list Z)
    (nv runtime : bool) (vs : varstore) : EFI_STATUS * varstore :=
  let '(fault, vs) := var_next_fault vs in
  if fault then (EFI_DEVICE_ERROR, vs)
  else (EFI_SUCCESS,
        mk_varstore (<[(guid, name) := mk_efi_variable nv runtime data]> (vars vs))
                    (var_faults vs)).

Definition del_efi_variable (guid : efi_guid) (name : string) (vs : varstore)
  : EFI_STATUS * varstore :=
  let '(fault, vs) := var_next_fault vs in
  if fault then (EFI_DEVICE_ERROR, vs)
  else match vars vs !! (guid, name) with
       | None => (EFI_NOT_FOUND, vs)
       | Some _ =>
           (EFI_SUCCESS, mk_varstore (delete (guid, name) (vars vs)) (var_faults vs))
       end.

(** Modelled from the spec: [get_efi_variable_byte] of the support library
    gives the first byte of a variable; the output is written only on
    success. *)
Definition get_efi_variable_byte (guid : efi_guid) (name : string)
    (byte : Z) (vs : varstore) : EFI_STATUS * Z * varstore :=
  let '(ret, v, vs) := get_efi_variable guid name vs in
  match v with
  | Some v =>
      match var_data v with
      | b :: _ => (EFI_SUCCESS, b, vs)
      | [] => (EFI_NOT_FOUND, byte, vs)
      end
  | None => (ret, byte, vs)
  end.

(** CHAR16 strings are lists of code units; a literal [L"..."] is the list
    of the codes of its characters. *)
Definition CHAR16_string : Set := list Z.

Definition L (s : string) : CHAR16_string :=
  map (fun c => Z.of_N (Ascii.N_of_ascii c)) (String.list_ascii_of_string s).

(** The code units stored in a variable (two bytes each, little endian), up
    to the first NUL: what [get_efi_variable_str] of the support library
    returns. *)
Fixpoint char16_of_bytes (bs : list Z) : CHAR16_string :=
  match bs with
  | lo :: hi :: bs' =>
      let c := lo + 256 * hi in
      if c =? 0 then [] else c :: char16_of_bytes bs'
  | _ => []
  end.

Definition get_efi_variable_str (guid : efi_guid) (name : string)
    (vs : varstore) : option CHAR16_string * varstore :=
  let '(ret, v, vs) := get_efi_variable guid name vs in
  match v with
  | Some v => (Some (char16_of_bytes (var_data v)), vs)
  | None => (None, vs)
  end.

(** [StrStr(s, sub) != NULL]: [sub] occurs in [s]. *)
Fixpoint is_prefix16 (sub s : CHAR16_string) : bool :=
  match sub, s with
  | [], _ => true
  | c :: sub', d :: s' => (c =? d) && is_prefix16 sub' s'
  | _ :: _, [] => false
  end.

Fixpoint StrStr (s sub : CHAR16_string) : bool :=
  is_prefix16 sub s
  || match s with
     | [] => false
     | _ :: s' => StrStr s' sub
     end.

(** [SPrint(name, sizeof(name), L"..._%04x", n)]: lower-case hexadecimal, at
    least four digits.  The [Print] of the support library, outside the
    sources, reads a 32-bit value for [%x] without the [l] modifier, also
    where the argument is a [UINTN]; the sources write [%llx] where they
    print their 64-bit values. *)
Definition hex_digit (d : Z) : string :=
  match d with
  | 0 => "0" | 1 => "1" | 2 => "2" | 3 => "3" | 4 => "4" | 5 => "5"
  | 6 => "6" | 7 => "7" | 8 => "8" | 9 => "9" | 10 => "a" | 11 => "b"
  | 12 => "c" | 13 => "d" | 14 => "e" | _ => "f"
  end%string.

Fixpoint hex_digits (fuel : nat) (v : Z) (acc : string) : string :=
  match fuel with
  | O => acc
  | S fuel' =>
      let acc' := (hex_digit (v mod 16) ++ acc)%string in
      if v / 16 =? 0 then acc' else hex_digits fuel' (v / 16) acc'
  end.

Fixpoint zero_pad (n : nat) (s : string) : string :=
  match n with
  | O => s
  | S n' => if (String.length s <? 4)%nat then zero_pad n' ("0" ++ s)%string else s
  end.

Definition format_04x (v : Z) : string :=
  zero_pad 4 (hex_digits 8 (wrap32 v) "").

(** ** Build configuration and platform signals *)

(** The preprocessor symbols that select code in the modelled functions. *)
Record build_config : Set := mk_build_config {
  USER    : bool;   (* -DUSER: user build; otherwise userdebug *)
  USE_SBL : bool;
  USE_UI  : bool
}.

Inductive device_state : Set := UNKNOWN_STATE | LOCKED | UNLOCKED.

Inductive boot_target : Set :=
| UNKNOWN_TARGET
| NORMAL_BOOT
| RECOVERY
| FASTBOOT
| ESP_BOOTIMAGE
| ESP_EFI_BINARY
| MEMORY
| CHARGER
| POWER_OFF
| EXIT_SHELL
| DNX
| CRASHMODE.

#[global] Instance boot_target_eq_dec : EqDecision boot_target.
Proof. solve_decision. Defined.

Inductive wake_sources : Set :=
| WAKE_NOT_APPLICABLE
| WAKE_BATTERY_INSERTED
| WAKE_USB_CHARGER_INSERTED
| WAKE_ACDC_CHARGER_INSERTED
| WAKE_POWER_BUTTON_PRESSED
| WAKE_RTC_TIMER
| WAKE_BATTERY_REACHED_IA_THRESHOLD
| WAKE_ERROR.

#[global] Instance wake_sources_eq_dec : EqDecision wake_sources.
Proof. solve_decision. Defined.

Inductive reset_sources : Set :=
| RESET_NOT_APPLICABLE
| RESET_OS_INITIATED
| RESET_FORCED
| RESET_FW_UPDATE
| RESET_KERNEL_WATCHDOG
| RESET_SECURITY_WATCHDOG
| RESET_SECURITY_INITIATED
| RESET_EC_WATCHDOG
| RESET_PMIC_WATCHDOG
| RESET_SHORT_POWER_LOSS
| RESET_PLATFORM_SPECIFIC
| RESET_UNKNOWN.

#[global] Instance reset_sources_eq_dec : EqDecision reset_sources.
Proof. solve_decision. Defined.

(** [EFI_TIME] is kept as its 16-byte object representation, the form in
    which [WatchdogTimeReference] stores it. *)
Definition EFI_TIME : Set := list Z.
Definition sizeof_EFI_TIME : nat := 16.

Inductive ux_prompt_code : Set := CRASH_EVENT_CODE.

(** What the platform reports during one boot; none of it is changed by the
    modelled functions.  [efi_time_to_ctime] (seconds of an [EFI_TIME]) and
    the user's answer to a prompt come from the support and UI libraries. *)
Record platform : Type := mk_platform {
  tee_tpm                        : bool;
  andr_tpm                       : bool;
  is_live_boot                   : bool;
  is_boot_device_virtual         : bool;
  life_cycle_is_enduser          : EFI_STATUS * bool;
  tee_device_state_reply         : EFI_STATUS * Z;
  rsci_get_wake_source           : wake_sources;
  rsci_get_reset_source          : reset_sources;
  GetTime                        : EFI_STATUS * EFI_TIME;
  efi_time_to_ctime              : EFI_TIME -> Z;
  ux_prompt_user_for_boot_target : ux_prompt_code -> boot_target
}.

(** [bool_value_t]: a cached boolean variable. *)
Record bool_value_t : Set := mk_bool_value {
  is_cached : bool;
  value     : bool
}.

(** The mutable state: the TPM, the variable store, the file-scope statics
    of [vars.c], and the prompts shown to the user so far. *)
Record state : Type := mk_state {
  st_tpm            : tpm;
  st_vars           : varstore;
  provisioning_mode : bool;
  current_state     : device_state;
  off_mode_charge   : bool_value_t;
  crash_event_menu  : bool_value_t;
  reboot_reason     : CHAR16_string;
  st_prompts        : list ux_prompt_code
}.

Definition with_tpm (s : state) (t : tpm) : state :=
  mk_state t (st_vars s) (provisioning_mode s) (current_state s)
    (off_mode_charge s) (crash_event_menu s) (reboot_reason s) (st_prompts s).

Definition with_vars (s : state) (vs : varstore) : state :=
  mk_state (st_tpm s) vs (provisioning_mode s) (current_state s)
    (off_mode_charge s) (crash_event_menu s) (reboot_reason s) (st_prompts s).

Definition with_current_state (s : state) (d : device_state) : state :=
  mk_state (st_tpm s) (st_vars s) (provisioning_mode s) d
    (off_mode_charge s) (crash_event_menu s) (reboot_reason s) (st_prompts s).

Definition with_provisioning_mode (s : state) (b : bool) : state :=
  mk_state (st_tpm s) (st_vars s) b (current_state s)
    (off_mode_charge s) (crash_event_menu s) (reboot_reason s) (st_prompts s).

Definition with_off_mode_charge (s : state) (c : bool_value_t) : state :=
  mk_state (st_tpm s) (st_vars s) (provisioning_mode s) (current_state s)
    c (crash_event_menu s) (reboot_reason s) (st_prompts s).

Definition with_crash_event_menu (s : state) (c : bool_value_t) : state :=
  mk_state (st_tpm s) (st_vars s) (provisioning_mode s) (current_state s)
    (off_mode_charge s) c (reboot_reason s) (st_prompts s).

Definition with_reboot_reason (s : state) (r : CHAR16_string) : state :=
  mk_state (st_tpm s) (st_vars s) (provisioning_mode s) (current_state s)
    (off_mode_charge s) (crash_event_menu s) r (st_prompts s).

Definition with_prompt (s : state) (c : ux_prompt_code) : state :=
  mk_state (st_tpm s) (st_vars s) (provisioning_mode s) (current_state s)
    (off_mode_charge s) (crash_event_menu s) (reboot_reason s)
    (st_prompts s ++ [c]).

(** ** vars.c *)

Definition OFF_MODE_CHARGE  : string := "off-mode-charge".
Definition OEM_LOCK         : string := "OEMLock".
Definition CRASH_EVENT_MENU : string := "CrashEventMenu".
Definition WDT_COUNTER      : string := "WatchdogCounter".
Definition WDT_COUNTER_MAX  : string := "WatchdogCounterMax".
Definition WDT_TIME_REF     : string := "WatchdogTimeReference".
Definition REBOOT_REASON    : string := "LoaderEntryRebootReason".
Definition ROLLBACK_INDEX_FMT (slot : Z) : string :=
  ("RollbackIndex_" ++ format_04x slot)%string.

Definition OEM_LOCK_UNLOCKED : Z := 1.
Definition REBOOT_REASON_MAX : nat := 64.
Definition WATCHDOG_COUNTER_MAX : Z := 2.

(** [get_current_boolean_var]: the cache is returned with the value. *)
Definition get_current_boolean_var (guid : efi_guid) (varname : string)
    (cache : bool_value_t) (default_value : bool) (vs : varstore)
  : bool * bool_value_t * varstore :=
  if is_cached cache then (value cache, cache, vs)
  else
    let '(ret, v, vs) := get_efi_variable guid varname vs in
    match v with
    | Some v =>
        match var_data v with
        | [d0; d1] =>
            if negb (d1 =? 0) || (negb (d0 =? 49) && negb (d0 =? 48))
            then (default_value, mk_bool_value true default_value, vs)
            else (d0 =? 49, mk_bool_value true (d0 =? 49), vs)
        | _ => (default_value, mk_bool_value true default_value, vs)
        end
    | None => (default_value, mk_bool_value true default_value, vs)
    end.

Definition get_off_mode_charge (s : state) : bool * state :=
  let '(b, c, vs) :=
    get_current_boolean_var fastboot_guid OFF_MODE_CHARGE
      (off_mode_charge s) true (st_vars s) in
  (b, with_off_mode_charge (with_vars s vs) c).

Definition get_crash_event_menu (s : state) : bool * state :=
  let '(b, c, vs) :=
    get_current_boolean_var fastboot_guid CRASH_EVENT_MENU
      (crash_event_menu s) true (st_vars s) in
  (b, with_crash_event_menu (with_vars s vs) c).

Definition set_provisioning_mode (provisioning : bool) (s : state) : state :=
  with_current_state (with_provisioning_mode s provisioning)
    (if provisioning then UNLOCKED else LOCKED).

Definition read_device_state_efi (state0 : Z) (vs : varstore)
  : EFI_STATUS * Z * varstore :=
  let '(ret, v, vs) := get_efi_variable fastboot_guid OEM_LOCK vs in
  match v with
  | None => (ret, state0, vs)
  | Some v =>
      match var_data v with
      | [] => (EFI_COMPROMISED_DATA, state0, vs)
      | stored_state :: _ =>
          if var_runtime_access v then (EFI_SECURITY_VIOLATION, state0, vs)
          else (EFI_SUCCESS, stored_state, vs)
      end
  end.

(** [tee_read_device_state_tpm2]: one request to the hypervisor peer; the
    payload byte is copied out whatever the reply status is. *)
Definition tee_read_device_state_tpm2 (p : platform) : EFI_STATUS * Z :=
  tee_device_state_reply p.

(** The backing selection at the head of [get_current_state]. *)
Definition read_stored_state (p : platform) (stored_state : Z) (s : state)
  : EFI_STATUS * Z * state :=
  if tee_tpm p then
    let '(ret, st) := tee_read_device_state_tpm2 p in (ret, st, s)
  else if andr_tpm p then
    let '(ret, st, t) := read_device_state_tpm2 stored_state (st_tpm s) in
    (ret, st, with_tpm s t)
  else
    let '(ret, st, vs) := read_device_state_efi stored_state (st_vars s) in
    (ret, st, with_vars s vs).

Definition get_current_state (cfg : build_config) (p : platform) (s : state)
  : device_state * state :=
  match current_state s with
  | UNKNOWN_STATE =>
      if is_live_boot p then (UNLOCKED, with_current_state s UNLOCKED)
      else
        let '(ret, stored_state, s) := read_stored_state p 0 s in
        if bool_decide (ret = EFI_NOT_FOUND) && negb (is_boot_device_virtual p)
        then
          let s := set_provisioning_mode false s in
          let '(ret, enduser) := life_cycle_is_enduser p in
          if EFI_ERROR ret then
            let s := if bool_decide (ret = EFI_NOT_FOUND)
                     then set_provisioning_mode true s else s in
            (current_state s, s)
          else if negb enduser then
            let s := set_provisioning_mode true s in (current_state s, s)
          else
            let s := if USER cfg then s else set_provisioning_mode true s in
            (current_state s, s)
        else if EFI_ERROR ret then
          let s := with_current_state s (if USER cfg then LOCKED else UNLOCKED) in
          (current_state s, s)
        else
          let s := with_current_state s
                     (if Z.land stored_state OEM_LOCK_UNLOCKED =? 0
                      then LOCKED else UNLOCKED) in
          (current_state s, s)
  | d => (d, s)
  end.

Definition set_watchdog_counter (counter : Z) (vs : varstore)
  : EFI_STATUS * varstore :=
  if counter =? 0 then del_efi_variable fastboot_guid WDT_COUNTER vs
  else set_efi_variable fastboot_guid WDT_COUNTER [counter] true false vs.

(** [time = None] stands for the [NULL] argument. *)
Definition set_watchdog_time_reference (time : option EFI_TIME) (vs : varstore)
  : EFI_STATUS * varstore :=
  match time with
  | None => del_efi_variable fastboot_guid WDT_TIME_REF vs
  | Some time => set_efi_variable fastboot_guid WDT_TIME_REF time true false vs
  end.

Definition reset_watchdog_status (vs : varstore) : EFI_STATUS * varstore :=
  let '(ret, vs) := set_watchdog_counter 0 vs in
  if EFI_ERROR ret then (ret, vs)
  else set_watchdog_time_reference None vs.

Definition get_watchdog_status (counter : Z) (time : EFI_TIME) (vs : varstore)
  : EFI_STATUS * Z * EFI_TIME * varstore :=
  let '(ret, counter, vs) :=
    get_efi_variable_byte fastboot_guid WDT_COUNTER counter vs in
  if bool_decide (ret = EFI_NOT_FOUND) then (EFI_SUCCESS, 0, time, vs)
  else if EFI_ERROR ret then (ret, counter, time, vs)
  else
    let '(ret, v, vs) := get_efi_variable fastboot_guid WDT_TIME_REF vs in
    match v with
    | None => (ret, counter, time, vs)
    | Some v =>
        if negb (length (var_data v) =? sizeof_EFI_TIME)%nat
        then (EFI_COMPROMISED_DATA, counter, time, vs)
        else (EFI_SUCCESS, counter, var_data v, vs)
    end.

Definition get_watchdog_counter_max (cfg : build_config) (vs : varstore)
  : Z * varstore :=
  if USER cfg then (WATCHDOG_COUNTER_MAX, vs)
  else
    let '(ret, max, vs) :=
      get_efi_variable_byte fastboot_guid WDT_COUNTER_MAX 0 vs in
    (if EFI_ERROR ret then WATCHDOG_COUNTER_MAX else max, vs).

(** [get_reboot_reason]: the static buffer caches the first value read; a
    string that does not fit the buffer is not cached and reads as [NULL]. *)
Definition get_reboot_reason (s : state) : option CHAR16_string * state :=
  match reboot_reason s with
  | _ :: _ => (Some (reboot_reason s), s)
  | [] =>
      let '(rr, vs) := get_efi_variable_str loader_guid REBOOT_REASON (st_vars s) in
      let s := with_vars s vs in
      match rr with
      | None => (None, s)
      | Some rr =>
          if (REBOOT_REASON_MAX <=? length rr)%nat then (None, s)
          else (Some rr, with_reboot_reason s rr)
      end
  end.

Definition is_reboot_reason (reason : CHAR16_string) (s : state) : bool * state :=
  let '(rr, s) := get_reboot_reason s in
  match rr with
  | None => (false, s)
  | Some rr => (StrStr rr reason, s)
  end.

Definition del_reboot_reason (s : state) : state :=
  let '(_, vs) := del_efi_variable loader_guid REBOOT_REASON (st_vars s) in
  with_vars s vs.

Definition read_efi_rollback_index (rollback_index_slot : Z)
    (out_rollback_index : Z) (vs : varstore) : EFI_STATUS * Z * varstore :=
  let name := ROLLBACK_INDEX_FMT rollback_index_slot in
  let '(ret, v, vs) := get_efi_variable fastboot_guid name vs in
  match v with
  | None => (ret, out_rollback_index, vs)
  | Some v =>
      if negb (length (var_data v) =? 8)%nat
      then (EFI_COMPROMISED_DATA, out_rollback_index, vs)
      else (EFI_SUCCESS, uint_of_bytes (var_data v), vs)
  end.

Definition write_efi_rollback_index (rollback_index_slot : Z)
    (rollback_index : Z) (vs : varstore) : EFI_STATUS * varstore :=
  let name := ROLLBACK_INDEX_FMT rollback_index_slot in
  set_efi_variable fastboot_guid name (bytes_of_uint 8 rollback_index)
    true false vs.

(** ** kernelflinger.c: the policy checks *)

Definition WATCHDOG_DELAY : Z := 10 * 60.

(** [reset_is_due_to_watchdog_or_panic]: the reset source is looked up in
    [WATCHDOG_RESET_SOURCES] first; the saved reboot reason is read only when
    the source is not a watchdog. *)
Definition WATCHDOG_RESET_SOURCES : list reset_sources :=
  [RESET_KERNEL_WATCHDOG; RESET_SECURITY_WATCHDOG;
   RESET_PMIC_WATCHDOG; RESET_EC_WATCHDOG].

Definition reset_is_due_to_watchdog_or_panic (p : platform) (s : state)
  : bool * state :=
  let reset_source := rsci_get_reset_source p in
  if existsb (fun w => bool_decide (reset_source = w)) WATCHDOG_RESET_SOURCES
  then (true, s)
  else
    let '(panic, s) := is_reboot_reason (L "kernel_panic") s in
    if panic then (true, s)
    else is_reboot_reason (L "watchdog") s.

Definition check_watchdog (cfg : build_config) (p : platform) (s : state)
  : boot_target * state :=
  let '(menu, s) := get_crash_event_menu s in
  if negb menu then (NORMAL_BOOT, s)
  else
    let '(ret, counter, time_ref, vs) :=
      get_watchdog_status 0 (replicate sizeof_EFI_TIME 0) (st_vars s) in
    let s := with_vars s vs in
    if EFI_ERROR ret then (NORMAL_BOOT, s)
    else
      let '(due, s) := reset_is_due_to_watchdog_or_panic p s in
      if negb due then
        if negb (counter =? 0) then
          let '(_, vs) := reset_watchdog_status (st_vars s) in
          (NORMAL_BOOT, with_vars s vs)
        else (NORMAL_BOOT, s)
      else
        let '(shutdown, s) :=
          if USER cfg then is_reboot_reason (L "shutdown") s else (false, s) in
        if shutdown then (POWER_OFF, del_reboot_reason s)
        else
          let '(ret, now) := GetTime p in
          if EFI_ERROR ret then (NORMAL_BOOT, s)
          else
            let counter :=
              if 0 <? counter then
                if (efi_time_to_ctime p now <? efi_time_to_ctime p time_ref)
                   || (WATCHDOG_DELAY <?
                       wrap64 (efi_time_to_ctime p now - efi_time_to_ctime p time_ref))
                then 0 else counter
              else counter in
            let '(ret, s) :=
              if counter =? 0 then
                let '(ret, vs) :=
                  set_watchdog_time_reference (Some now) (st_vars s) in
                (ret, with_vars s vs)
              else (EFI_SUCCESS, s) in
            if EFI_ERROR ret then (NORMAL_BOOT, s)
            else
              let counter := wrap8 (counter + 1) in
              let '(max, vs) := get_watchdog_counter_max cfg (st_vars s) in
              let s := with_vars s vs in
              if counter <=? max then
                let '(_, vs) := set_watchdog_counter counter (st_vars s) in
                (NORMAL_BOOT, with_vars s vs)
              else
                let '(_, vs) := reset_watchdog_status (st_vars s) in
                let s := with_vars s vs in
                if USE_UI cfg then
                  (ux_prompt_user_for_boot_target p CRASH_EVENT_CODE,
                   with_prompt s CRASH_EVENT_CODE)
                else (NORMAL_BOOT, s).

Definition check_battery_inserted (p : platform) (s : state)
  : boot_target * state :=
  let '(omc, s) := get_off_mode_charge s in
  if negb omc then (NORMAL_BOOT, s)
  else
    let wake_source := rsci_get_wake_source p in
    if bool_decide (wake_source = WAKE_BATTERY_INSERTED) then (POWER_OFF, s)
    else (NORMAL_BOOT, s).

Definition check_charge_mode (p : platform) (s : state)
  : boot_target * state :=
  let '(omc, s) := get_off_mode_charge s in
  if negb omc then (NORMAL_BOOT, s)
  else
    let wake_source := rsci_get_wake_source p in
    if bool_decide (wake_source = WAKE_USB_CHARGER_INSERTED)
       || bool_decide (wake_source = WAKE_ACDC_CHARGER_INSERTED)
    then (CHARGER, s)
    else (NORMAL_BOOT, s).

(** *** The console and the magic key *)

Record EFI_INPUT_KEY : Set := mk_key { ScanCode : Z; UnicodeChar : Z }.

Inductive ui_events : Set :=
| EV_NONE | EV_UP | EV_DOWN | EV_RIGHT | EV_LEFT | EV_POWER.

#[global] Instance ui_events_eq_dec : EqDecision ui_events.
Proof. solve_decision. Defined.

(** Modelled from the spec: the [ConsoleInput] trait.  [con_keys] holds what
    the coming calls of [ReadKeyStroke] return (then [EFI_NOT_READY] for
    ever), [con_stalled_us] adds up the [Stall] calls, and [con_key_held]
    answers [ui_enforce_key_held], the UI library's test that a key stays
    down for a delay in milliseconds. *)
Record console : Type := mk_console {
  con_keys       : list (EFI_STATUS * EFI_INPUT_KEY);
  con_stalled_us : Z;
  con_key_held   : Z -> ui_events -> bool
}.

Definition ReadKeyStroke (key : EFI_INPUT_KEY) (c : console)
  : EFI_STATUS * EFI_INPUT_KEY * console :=
  match con_keys c with
  | [] => (EFI_NOT_READY, key, c)
  | (ret, k) :: ks =>
      (ret, if EFI_ERROR ret then key else k,
       mk_console ks (con_stalled_us c) (con_key_held c))
  end.

Definition Stall (us : Z) (c : console) : console :=
  mk_console (con_keys c) (con_stalled_us c + us) (con_key_held c).

Definition ui_enforce_key_held (delay_ms : Z) (ev : ui_events) (c : console)
  : bool := con_key_held c delay_ms ev.

(** Modelled from the spec: [ui_keycode_to_event] of the UI library; the
    scan codes are those of the UEFI simple text input protocol. *)
Definition ui_keycode_to_event (scan_code : Z) : ui_events :=
  match scan_code with
  | 1 => EV_UP
  | 2 => EV_DOWN
  | 3 => EV_RIGHT
  | 4 => EV_LEFT
  | _ => EV_NONE
  end.

Definition MAGIC_KEY_TIMEOUT_VAR : string := "MagicKeyTimeout".
Definition EFI_RESET_WAIT_MS : Z := 200.
Definition DETECT_KEY_STALL_TIME_MS : Z := 1.
Definition FASTBOOT_HOLD_DELAY : Z := 2 * 1000.
Definition MAGIC_KEY : ui_events := EV_DOWN.
Definition ULONG_MAX : Z := 2 ^ 64 - 1.

(** [strtoul(data, &end, 10)] on a string made of decimal digits only;
    [None] when another character is met. *)
Fixpoint strtoul10 (acc : Z) (data : list Z) : option Z :=
  match data with
  | [] => Some (Z.min acc ULONG_MAX)
  | d :: data' =>
      if (48 <=? d) && (d <=? 57) then strtoul10 (10 * acc + (d - 48)) data'
      else None
  end.

(** Modelled from the spec: [get_efi_variable_long_from_str8] of the support
    library reads a variable that holds a NUL-terminated decimal string
    ([MagicKeyTimeout] is a number of milliseconds); the output is written
    only on success. *)
Definition get_efi_variable_long_from_str8 (guid : efi_guid) (name : string)
    (i : Z) (vs : varstore) : EFI_STATUS * Z * varstore :=
  let '(ret, v, vs) := get_efi_variable guid name vs in
  match v with
  | None => (ret, i, vs)
  | Some v =>
      match reverse (var_data v) with
      | 0 :: ((_ :: _) as digits) =>
          match strtoul10 0 (reverse digits) with
          | Some n => (EFI_SUCCESS, n, vs)
          | None => (EFI_INVALID_PARAMETER, i, vs)
          end
      | _ => (EFI_INVALID_PARAMETER, i, vs)
      end
  end.

(** The polling loop of [check_magic_key]; [remaining] is [wait_ms - i].
    The result carries the number of the last iteration. *)
Fixpoint check_magic_key_loop (remaining : nat) (i : Z) (key : EFI_INPUT_KEY)
    (c : console) : EFI_STATUS * EFI_INPUT_KEY * Z * console :=
  let '(ret, key, c) := ReadKeyStroke key c in
  match remaining with
  | O => (ret, key, i, c)
  | S remaining' =>
      if bool_decide (ret = EFI_SUCCESS) then (ret, key, i, c)
      else check_magic_key_loop remaining' (i + DETECT_KEY_STALL_TIME_MS) key
             (Stall (DETECT_KEY_STALL_TIME_MS * 1000) c)
  end.

(** A console answer that carries a key. *)
Definition key_sensed (e : EFI_STATUS * EFI_INPUT_KEY) : bool :=
  bool_decide (e.1 = EFI_SUCCESS).

(** The wait time [check_magic_key] settles on. *)
Definition magic_key_wait_ms (vs : varstore) : Z * varstore :=
  let '(ret, wait_ms, vs) :=
    get_efi_variable_long_from_str8 loader_guid MAGIC_KEY_TIMEOUT_VAR
      EFI_RESET_WAIT_MS vs in
  if EFI_ERROR ret then (wait_ms, vs)
  else if 1000 <? wait_ms then (EFI_RESET_WAIT_MS, vs)
  else (wait_ms, vs).

Definition check_magic_key (vs : varstore) (c : console)
  : boot_target * varstore * console :=
  let '(wait_ms, vs) := magic_key_wait_ms vs in
  let '(ret, key, _, c) :=
    check_magic_key_loop (Z.to_nat wait_ms) 0 (mk_key 0 0) c in
  if EFI_ERROR ret then (NORMAL_BOOT, vs, c)
  else if negb (bool_decide (ui_keycode_to_event (ScanCode key) = MAGIC_KEY))
  then (NORMAL_BOOT, vs, c)
  else if ui_enforce_key_held FASTBOOT_HOLD_DELAY MAGIC_KEY c
  then (FASTBOOT, vs, c)
  else (NORMAL_BOOT, vs, c).

(** ** gpt.c and the bootloader control block (android.c) *)

(** Modelled from the spec: [GPT_NAME_LEN], the 36 code units of a GPT
    partition name; declared in a header outside the sources. *)
Definition GPT_NAME_LEN : nat := 36.

Record gpt_partition : Set := mk_gpt_partition {
  part_type_is_null : bool;      (* CompareGuid(&part->type, &NullGuid) == 0 *)
  part_name         : string;
  starting_lba      : Z;
  ending_lba        : Z
}.

(** The disk behind [pdisk]: the cached partition table, the result of
    [gpt_cache_partition], the block size, and the bytes [ReadDisk] serves.
    A read that leaves the medium fails. *)
Record disk : Type := mk_disk {
  gpt_cache_partition : EFI_STATUS;
  partitions          : list gpt_partition;
  BlockSize           : Z;
  disk_bytes          : list Z;
  disk_read_faults    : list bool
}.

Definition ANDROID_PREFIX : string := "android_".

Definition make_android_label (label : string) : option string :=
  if (2 * GPT_NAME_LEN <?
        2 * String.length label + 2 * (String.length ANDROID_PREFIX + 1))%nat
  then None
  else Some (ANDROID_PREFIX ++ label)%string.

Definition gpt_find_partition (label : string) (dk : disk)
  : option gpt_partition :=
  let android_label := make_android_label label in
  List.find
    (fun part =>
       negb (part_type_is_null part)
       && (bool_decide (part_name part = label)
           || match android_label with
              | Some al => bool_decide (part_name part = al)
              | None => false
              end))
    (partitions dk).

(** [copy_part]: the entry is copied, and a name whose first 8 code units
    are [android_] is moved 8 code units to the left.  The move copies 28 of
    the 36 code units of the name array, so the last 8 stay where they were:
    behind the terminator for a shorter name, in the name itself when the
    name fills the array. *)
Definition copy_part (part : gpt_partition) : gpt_partition :=
  let PREFIX_LEN := String.length ANDROID_PREFIX in
  let name := part_name part in
  if String.prefix ANDROID_PREFIX name then
    mk_gpt_partition (part_type_is_null part)
      (String.substring PREFIX_LEN (String.length name - PREFIX_LEN) name
       ++ (if (GPT_NAME_LEN <=? String.length name)%nat
           then String.substring (GPT_NAME_LEN - PREFIX_LEN) PREFIX_LEN name
           else EmptyString))
      (starting_lba part) (ending_lba part)
  else part.

(** [gpt_get_partition_by_label], without the [MULTI_USER] block; the
    recursive call for ["userdata"] is unfolded once, its own retry being
    dead for the label ["data"].  The caller gets the copy that [copy_part]
    makes of the entry. *)
Definition gpt_get_partition_by_label (label : string) (dk : disk)
  : EFI_STATUS * option gpt_partition :=
  if EFI_ERROR (gpt_cache_partition dk) then (gpt_cache_partition dk, None)
  else match gpt_find_partition label dk with
       | Some part => (EFI_SUCCESS, Some (copy_part part))
       | None =>
           if bool_decide (label = "userdata"%string) then
             match gpt_find_partition "data" dk with
             | Some part => (EFI_SUCCESS, Some (copy_part part))
             | None => (EFI_NOT_FOUND, None)
             end
           else (EFI_NOT_FOUND, None)
       end.

Definition ReadDisk (offset : Z) (size : nat) (buffer : list Z) (dk : disk)
  : EFI_STATUS * list Z * disk :=
  match disk_read_faults dk with
  | true :: fs =>
      (EFI_DEVICE_ERROR, buffer,
       mk_disk (gpt_cache_partition dk) (partitions dk) (BlockSize dk)
               (disk_bytes dk) fs)
  | fs =>
      let dk := mk_disk (gpt_cache_partition dk) (partitions dk) (BlockSize dk)
                        (disk_bytes dk) (tail fs) in
      if (offset <? 0) || (Z.of_nat (length (disk_bytes dk)) <? offset + Z.of_nat size)
      then (EFI_INVALID_PARAMETER, buffer, dk)
      else (EFI_SUCCESS,
            buf_write buffer 0 (take size (drop (Z.to_nat offset) (disk_bytes dk))),
            dk)
  end.

(** Modelled from the spec: [struct bootloader_message], declared in a
    header outside the sources: [command[32]], [status[32]],
    [recovery[768]]. *)
Record bootloader_message : Set := mk_bcb {
  command  : list Z;
  status   : list Z;
  recovery : list Z
}.

Definition sizeof_command : nat := 32.
Definition sizeof_status : nat := 32.
Definition sizeof_recovery : nat := 768.
Definition sizeof_bootloader_message : nat :=
  sizeof_command + sizeof_status + sizeof_recovery.

(** The object representation of the structure and back. *)
Definition bcb_bytes (bcb : bootloader_message) : list Z :=
  command bcb ++ status bcb ++ recovery bcb.

Definition bcb_of_bytes (bs : list Z) : bootloader_message :=
  mk_bcb (take sizeof_command bs)
         (take sizeof_status (drop sizeof_command bs))
         (drop (sizeof_command + sizeof_status) bs).

(** [a[i] = c] on an array held as a list. *)
Definition array_set (a : list Z) (i : nat) (c : Z) : list Z := <[i := c]> a.

(** [read_bcb]: [bcb] is the caller's structure, [vm_offset] the global of
    [gpt.c]. *)
Definition read_bcb (vm_offset : Z) (label : string) (bcb : bootloader_message)
    (dk : disk) : EFI_STATUS * bootloader_message * disk :=
  let '(ret, gpart) := gpt_get_partition_by_label label dk in
  match gpart with
  | None => (EFI_INVALID_PARAMETER, bcb, dk)
  | Some part =>
      let partition_start := wrap64 (starting_lba part * BlockSize dk) in
      let '(ret, bytes, dk) :=
        ReadDisk (wrap64 (vm_offset + partition_start))
                 sizeof_bootloader_message (bcb_bytes bcb) dk in
      if EFI_ERROR ret then (ret, bcb, dk)
      else
        let bcb := bcb_of_bytes bytes in
        (EFI_SUCCESS,
         mk_bcb (array_set (command bcb) 31 0) (array_set (status bcb) 31 0)
                (recovery bcb),
         dk)
  end.

(** [strlena]: the length of a C string held in an array, that is the index
    of its first NUL; [None] when the array holds no NUL. *)
Fixpoint strlena (a : list Z) : option nat :=
  match a with
  | [] => None
  | c :: a' => if c =? 0 then Some O else S <$> strlena a'
  end.

(** ** android.c: the E820 table *)

Definition E820_UNDEFINED : Z := 0.
Definition E820_RAM       : Z := 1.
Definition E820_RESERVED  : Z := 2.
Definition E820_ACPI      : Z := 3.
Definition E820_NVS       : Z := 4.
Definition E820_UNUSABLE  : Z := 5.

(** [EFI_MEMORY_TYPE], numbered as in the [memory_types] table of
    [efilinux.h]. *)
Definition EfiReservedMemoryType      : Z := 0.
Definition EfiLoaderCode              : Z := 1.
Definition EfiLoaderData              : Z := 2.
Definition EfiBootServicesCode        : Z := 3.
Definition EfiBootServicesData        : Z := 4.
Definition EfiRuntimeServicesCode     : Z := 5.
Definition EfiRuntimeServicesData     : Z := 6.
Definition EfiConventionalMemory      : Z := 7.
Definition EfiUnusableMemory          : Z := 8.
Definition EfiACPIReclaimMemory       : Z := 9.
Definition EfiACPIMemoryNVS           : Z := 10.
Definition EfiMemoryMappedIO          : Z := 11.
Definition EfiMemoryMappedIOPortSpace : Z := 12.
Definition EfiPalCode                 : Z := 13.

Definition EFI_PAGE_SHIFT : Z := 12.

Record EFI_MEMORY_DESCRIPTOR : Set := mk_mem_desc {
  Type_         : Z;   (* UINT32 Type *)
  PhysicalStart : Z;
  VirtualStart  : Z;
  NumberOfPages : Z;
  Attribute     : Z
}.

Record e820_entry : Set := mk_e820 {
  addr   : Z;
  size   : Z;
  type   : Z
}.

(** The [switch (d->Type)] of [setup_e820_map]; [None] is the [default:
    continue] arm. *)
Definition e820_type_of (efi_type : Z) : option Z :=
  match efi_type with
  | 0 | 5 | 6 | 11 | 12 | 13 => Some E820_RESERVED
  | 8 => Some E820_UNUSABLE
  | 9 => Some E820_ACPI
  | 1 | 2 | 3 | 4 | 7 => Some E820_RAM
  | 10 => Some E820_NVS
  | _ => None
  end.

(** One turn of the loop.  The table is held as the list of its first
    [n_page] entries, latest first, so [e820_map[n_page - 1]] is the head
    and [n_page] the length.  The source does not test [n_page] against the
    capacity [E820MAX] of the array: a write past it has no defined result,
    shown as [None]. *)
Definition setup_e820_map_step (E820MAX : nat) (e820_map : list e820_entry)
    (d : EFI_MEMORY_DESCRIPTOR) : option (list e820_entry) :=
  match e820_type_of (Type_ d) with
  | None => Some e820_map
  | Some cur_type =>
      let fresh :=
        if (length e820_map <? E820MAX)%nat
        then Some (mk_e820 (PhysicalStart d)
                           (wrap64 (Z.shiftl (NumberOfPages d) EFI_PAGE_SHIFT))
                           cur_type :: e820_map)
        else None in
      match e820_map with
      | prev :: older =>
          if (type prev =? cur_type)
             && (wrap64 (addr prev + size prev) =? PhysicalStart d)
          then Some (mk_e820 (addr prev)
                       (wrap64 (size prev
                                + wrap64 (Z.shiftl (NumberOfPages d) EFI_PAGE_SHIFT)))
                       (type prev) :: older)
          else fresh
      | [] => fresh
      end
  end.

Fixpoint setup_e820_map_loop (E820MAX : nat) (e820_map : list e820_entry)
    (mem_entries : list EFI_MEMORY_DESCRIPTOR) : option (list e820_entry) :=
  match mem_entries with
  | [] => Some e820_map
  | d :: rest =>
      match setup_e820_map_step E820MAX e820_map d with
      | Some e820_map' => setup_e820_map_loop E820MAX e820_map' rest
      | None => None
      end
  end.

(** [setup_e820_map]: the table in address order of creation, and
    [e820_entries]. *)
Definition setup_e820_map (E820MAX : nat)
    (mem_entries : list EFI_MEMORY_DESCRIPTOR) : option (list e820_entry * Z) :=
  match setup_e820_map_loop E820MAX [] mem_entries with
  | Some e820_map => Some (reverse e820_map, Z.of_nat (length e820_map))
  | None => None
  end.

(** Two neighbours of the table that the loop would have merged. *)
Definition mergeable (a b : e820_entry) : Prop :=
  type a = type b /\ wrap64 (addr a + size a) = addr b.

(** A table in which no entry could have been merged into the one before
    it. *)
Inductive unmergeable_chain : list e820_entry -> Prop :=
| chain_nil : unmergeable_chain []
| chain_one a : unmergeable_chain [a]
| chain_cons a b l :
    ~ mergeable a b -> unmergeable_chain (b :: l) ->
    unmergeable_chain (a :: b :: l).

(** The descriptors the [switch] gives a type to. *)
Definition e820_recognised (d : EFI_MEMORY_DESCRIPTOR) : bool :=
  match e820_type_of (Type_ d) with Some _ => true | None => false end.

(** Bytes described by a table, and by the recognised descriptors of a
    memory map. *)
Definition e820_total (e820_map : list e820_entry) : Z :=
  foldr (fun e acc => size e + acc) 0 e820_map.

Definition efi_total (mem_entries : list EFI_MEMORY_DESCRIPTOR) : Z :=
  foldr (fun d acc =>
           (if e820_recognised d
            then wrap64 (Z.shiftl (NumberOfPages d) EFI_PAGE_SHIFT) else 0) + acc)
        0 mem_entries.

(** What the loop of [setup_e820_map] keeps true of the table built so far
    (latest entry first) and the descriptors consumed so far. *)
Definition e820_invariant (e820_map : list e820_entry)
    (consumed : list EFI_MEMORY_DESCRIPTOR) : Prop :=
  unmergeable_chain (reverse e820_map)
  /\ (forall e, e ∈ e820_map ->
        exists d, d ∈ consumed
                  /\ e820_type_of (Type_ d) = Some (type e)
                  /\ addr e = PhysicalStart d)
  /\ wrap64 (e820_total e820_map) = wrap64 (efi_total consumed).

(** The bytes of a descriptor, [d->NumberOfPages << EFI_PAGE_SHIFT]. *)
Definition desc_bytes (d : EFI_MEMORY_DESCRIPTOR) : Z :=
  wrap64 (Z.shiftl (NumberOfPages d) EFI_PAGE_SHIFT).

(** The entry a run of consecutive descriptors is coalesced into: the first
    descriptor of the run opens the entry with its address, its bytes and
    the type mapped from its type; every later one has that type, starts
    where the entry built so far ends, and adds its bytes to the size. *)
Inductive run_entry : list EFI_MEMORY_DESCRIPTOR -> e820_entry -> Prop :=
| run_first d t :
    e820_type_of (Type_ d) = Some t ->
    run_entry [d] (mk_e820 (PhysicalStart d) (desc_bytes d) t)
| run_more run e d :
    run_entry run e ->
    e820_type_of (Type_ d) = Some (type e) ->
    wrap64 (addr e + size e) = PhysicalStart d ->
    run_entry (run ++ [d])
      (mk_e820 (addr e) (wrap64 (size e + desc_bytes d)) (type e)).

(** ** kernelflinger.c: choose_boot_target *)

(** The policy checks [choose_boot_target] calls, as transformers of the
    machine state [W], with the two side effects it performs itself:
    deleting [LoaderEntryOneShot] and showing the low-battery screen. *)
Record policy_checks (W : Type) : Type := mk_policy_checks {
  pc_check_command_line          : W -> boot_target * W;
  pc_check_fastboot_sentinel     : W -> boot_target * W;
  pc_check_magic_key             : W -> boot_target * W;
  pc_check_watchdog              : W -> boot_target * W;
  pc_check_battery_inserted      : W -> boot_target * W;
  (* result, target_path, oneshot *)
  pc_check_bcb                   : W -> boot_target * option string * bool * W;
  pc_check_loader_entry_one_shot : W -> boot_target * W;
  pc_check_battery               : W -> boot_target * W;
  pc_check_charge_mode           : W -> boot_target * W;
  pc_del_loader_entry_oneshot    : W -> W;
  pc_ux_display_low_battery      : Z -> W -> W
}.

Arguments pc_check_command_line {W} _ _.
Arguments pc_check_fastboot_sentinel {W} _ _.
Arguments pc_check_magic_key {W} _ _.
Arguments pc_check_watchdog {W} _ _.
Arguments pc_check_battery_inserted {W} _ _.
Arguments pc_check_bcb {W} _ _.
Arguments pc_check_loader_entry_one_shot {W} _ _.
Arguments pc_check_battery {W} _ _.
Arguments pc_check_charge_mode {W} _ _.
Arguments pc_del_loader_entry_oneshot {W} _ _.
Arguments pc_ux_display_low_battery {W} _ _ _.

Section ChooseBootTarget.
Context {W : Type}.
Variable cfg : build_config.
Variable pc : policy_checks W.

(** The tail of [choose_boot_target] after the one-shot check. *)
Definition choose_after_one_shot (ret : boot_target) (w : W)
  : boot_target * W :=
  if USE_SBL cfg then (ret, w)
  else
    let '(ret, w) := pc_check_battery pc w in
    let w := if bool_decide (ret = POWER_OFF)
             then (if USE_UI cfg then pc_ux_display_low_battery pc 3 w else w)
             else w in
    if negb (bool_decide (ret = NORMAL_BOOT)) then (ret, w)
    else pc_check_charge_mode pc w.

(** The part from the BCB check on; [target_path] and [oneshot] are the
    caller's variables. *)
Definition choose_from_bcb (w : W) : boot_target * option string * bool * W :=
  let '(ret, target_path, oneshot, w) := pc_check_bcb pc w in
  if negb (bool_decide (ret = NORMAL_BOOT)) then
    if oneshot then
      (ret, target_path, oneshot, pc_del_loader_entry_oneshot pc w)
    else
      (if bool_decide (ret = FASTBOOT) then RECOVERY else ret,
       target_path, oneshot, w)
  else
    let '(ret, w) := pc_check_loader_entry_one_shot pc w in
    if negb (bool_decide (ret = DNX)) && negb (bool_decide (ret = NORMAL_BOOT))
    then (ret, target_path, oneshot, w)
    else
      let '(ret, w) := choose_after_one_shot ret w in
      (ret, target_path, oneshot, w).

Definition choose_boot_target (w : W)
  : boot_target * option string * bool * W :=
  let target_path : option string := None in
  let oneshot := true in
  let '(ret, w) := pc_check_command_line pc w in
  if negb (bool_decide (ret = NORMAL_BOOT)) then (ret, target_path, oneshot, w)
  else
  let '(ret, w) := pc_check_fastboot_sentinel pc w in
  if negb (bool_decide (ret = NORMAL_BOOT)) then (ret, target_path, oneshot, w)
  else
  let '(ret, w) := pc_check_magic_key pc w in
  if negb (bool_decide (ret = NORMAL_BOOT)) then (ret, target_path, oneshot, w)
  else
  let '(ret, w) := pc_check_watchdog pc w in
  if negb (bool_decide (ret = NORMAL_BOOT)) then (ret, target_path, oneshot, w)
  else
  if USE_SBL cfg then choose_from_bcb w
  else
    let '(ret, w) := pc_check_battery_inserted pc w in
    if negb (bool_decide (ret = NORMAL_BOOT)) then (ret, target_path, oneshot, w)
    else choose_from_bcb w.
End ChooseBootTarget.

(** *** Views of the stored watchdog status *)

Definition stored_watchdog_counter (vs : varstore) : Z :=
  match vars vs !! (fastboot_guid, WDT_COUNTER) with
  | Some v => hd 0 (var_data v)
  | None => 0
  end.

Definition stored_watchdog_time_reference (vs : varstore) : option EFI_TIME :=
  var_data <$> vars vs !! (fastboot_guid, WDT_TIME_REF).

(** The test of [check_watchdog] that restarts the count: a positive counter
    whose time reference lies in the future or more than [WATCHDOG_DELAY]
    seconds back. *)
Definition watchdog_expired (p : platform) (counter : Z) (time_ref now : EFI_TIME)
  : bool :=
  (0 <? counter)
  && ((efi_time_to_ctime p now <? efi_time_to_ctime p time_ref)
      || (WATCHDOG_DELAY <?
          wrap64 (efi_time_to_ctime p now - efi_time_to_ctime p time_ref))).

(** The saved reboot reason as [get_reboot_reason] sees it: the static
    buffer when it is filled, else the variable, unless too long. *)
Definition saved_reboot_reason (s : state) : option CHAR16_string :=
  match reboot_reason s with
  | _ :: _ => Some (reboot_reason s)
  | [] =>
      match vars (st_vars s) !! (loader_guid, REBOOT_REASON) with
      | Some v =>
          if (REBOOT_REASON_MAX <=? length (char16_of_bytes (var_data v)))%nat
          then None else Some (char16_of_bytes (var_data v))
      | None => None
      end
  end.

Definition saved_reason_has (reason : CHAR16_string) (s : state) : bool :=
  match saved_reboot_reason s with
  | Some rr => StrStr rr reason
  | None => false
  end.

(** Two states with the same variables, prompts and saved reboot reason:
    they differ by cached booleans at most. *)
Definition same_store (s s' : state) : Prop :=
  st_vars s' = st_vars s
  /\ st_prompts s' = st_prompts s
  /\ saved_reboot_reason s' = saved_reboot_reason s.

(** *** Signals and traces *)

Inductive check_id : Set :=
| CK_command_line
| CK_fastboot_sentinel
| CK_magic_key
| CK_watchdog
| CK_battery_inserted
| CK_bcb
| CK_loader_entry_one_shot
| CK_battery
| CK_charge_mode.

#[global] Instance check_id_eq_dec : EqDecision check_id.
Proof. solve_decision. Defined.

(** A signal set: what each policy check answers on this boot.  For the BCB
    the answer comes with the path and the one-shot flag [check_bcb] sets. *)
Record signal_set : Set := mk_signal_set {
  sig_command_line          : boot_target;
  sig_fastboot_sentinel     : boot_target;
  sig_magic_key             : boot_target;
  sig_watchdog              : boot_target;
  sig_battery_inserted      : boot_target;
  sig_bcb                   : boot_target;
  sig_bcb_target_path       : option string;
  sig_bcb_oneshot           : bool;
  sig_loader_entry_one_shot : boot_target;
  sig_battery               : boot_target;
  sig_charge_mode           : boot_target
}.

(** The checks over a signal set; the machine state is the list of the
    checks evaluated so far. *)
Definition traced (id : check_id) (r : boot_target) (trace : list check_id)
  : boot_target * list check_id := (r, trace ++ [id]).

Definition traced_checks (sg : signal_set) : policy_checks (list check_id) :=
  mk_policy_checks (list check_id)
    (traced CK_command_line (sig_command_line sg))
    (traced CK_fastboot_sentinel (sig_fastboot_sentinel sg))
    (traced CK_magic_key (sig_magic_key sg))
    (traced CK_watchdog (sig_watchdog sg))
    (traced CK_battery_inserted (sig_battery_inserted sg))
    (fun trace => (sig_bcb sg, sig_bcb_target_path sg, sig_bcb_oneshot sg,
                   trace ++ [CK_bcb]))
    (traced CK_loader_entry_one_shot (sig_loader_entry_one_shot sg))
    (traced CK_battery (sig_battery sg))
    (traced CK_charge_mode (sig_charge_mode sg))
    (fun trace => trace)
    (fun _ trace => trace).

(** The order of the checks in a build: the three battery and charger
    checks are compiled out with [USE_SBL]. *)
Definition policy_order (cfg : build_config) : list check_id :=
  [CK_command_line; CK_fastboot_sentinel; CK_magic_key; CK_watchdog]
  ++ (if USE_SBL cfg then [] else [CK_battery_inserted])
  ++ [CK_bcb; CK_loader_entry_one_shot]
  ++ (if USE_SBL cfg then [] else [CK_battery; CK_charge_mode]).

(** The answer of a check as [choose_boot_target] takes it: a persistent
    BCB [FASTBOOT] stands for [RECOVERY]. *)
Definition check_answer (sg : signal_set) (id : check_id) : boot_target :=
  match id with
  | CK_command_line => sig_command_line sg
  | CK_fastboot_sentinel => sig_fastboot_sentinel sg
  | CK_magic_key => sig_magic_key sg
  | CK_watchdog => sig_watchdog sg
  | CK_battery_inserted => sig_battery_inserted sg
  | CK_bcb =>
      if bool_decide (sig_bcb sg = FASTBOOT) && negb (sig_bcb_oneshot sg)
      then RECOVERY else sig_bcb sg
  | CK_loader_entry_one_shot => sig_loader_entry_one_shot sg
  | CK_battery => sig_battery sg
  | CK_charge_mode => sig_charge_mode sg
  end.

(** Whether an answer ends the evaluation: any answer but [NORMAL_BOOT]
    does, except [DNX] from the one-shot variable. *)
Definition check_stops (id : check_id) (r : boot_target) : bool :=
  match id with
  | CK_loader_entry_one_shot =>
      negb (bool_decide (r = DNX)) && negb (bool_decide (r = NORMAL_BOOT))
  | _ => negb (bool_decide (r = NORMAL_BOOT))
  end.

(** Walk the checks in order up to the first answer that stops; the target
    is that answer, or the answer of the last check when none stops. *)
Fixpoint policy_walk (sg : signal_set) (order : list check_id)
    (last_answer : boot_target) (trace : list check_id)
  : boot_target * list check_id :=
  match order with
  | [] => (last_answer, trace)
  | id :: rest =>
      let r := check_answer sg id in
      if check_stops id r then (r, trace ++ [id])
      else policy_walk sg rest r (trace ++ [id])
  end.

(** The nine checks in the order the specification lists them. *)
Definition specified_order : list check_id :=
  [CK_command_line; CK_fastboot_sentinel; CK_magic_key; CK_watchdog;
   CK_battery_inserted; CK_bcb; CK_loader_entry_one_shot; CK_battery;
   CK_charge_mode].

(** The decision as the specification words it: the first answer different
    from [NORMAL_BOOT] among the nine checks in that order. *)
Definition first_non_normal (sg : signal_set) : boot_target :=
  match List.find (fun r => negb (bool_decide (r = NORMAL_BOOT)))
                  (map (check_answer sg) specified_order) with
  | Some r => r
  | None => NORMAL_BOOT
  end.

(** Nothing but [LoaderEntryOneShot] = "dnx". *)
Definition signals_one_shot_dnx : signal_set :=
  mk_signal_set NORMAL_BOOT NORMAL_BOOT NORMAL_BOOT NORMAL_BOOT NORMAL_BOOT
    NORMAL_BOOT None false DNX NORMAL_BOOT NORMAL_BOOT.

(** A persistent [boot-fastboot] in the BCB, a charger plugged in. *)
Definition signals_bcb_fastboot : signal_set :=
  mk_signal_set NORMAL_BOOT NORMAL_BOOT NORMAL_BOOT NORMAL_BOOT NORMAL_BOOT
    FASTBOOT None false NORMAL_BOOT NORMAL_BOOT CHARGER.

(** ** Reachability within one boot, and example machines *)

(** The NV commands the bootloader issues between two TPM resets. *)
Inductive tpm_command : Type :=
| CmdNvRead (nv_index : Z) (size offset : nat)
| CmdNvWrite (nv_index : Z) (data : list Z) (offset : nat)
| CmdNvReadLock (nv_index : Z)
| CmdNvWriteLock (nv_index : Z)
| CmdNvDefineSpace (nv_index : Z) (attributes : TPMA_NV) (data_size : nat)
| CmdNvUndefineSpace (nv_index : Z).

Definition tpm_exec (c : tpm_command) (t : tpm) : tpm :=
  match c with
  | CmdNvRead i n o => (Tpm2NvRead i n o t).2
  | CmdNvWrite i d o => (Tpm2NvWrite i d o t).2
  | CmdNvReadLock i => (Tpm2NvReadLock i t).2
  | CmdNvWriteLock i => (Tpm2NvWriteLock i t).2
  | CmdNvDefineSpace i a n => (Tpm2NvDefineSpace i a n t).2
  | CmdNvUndefineSpace i => (Tpm2NvUndefineSpace i t).2
  end.

(** The commands that leave index [nv_index] in place: every one but its
    deletion. *)
Definition keeps_index (nv_index : Z) (c : tpm_command) : bool :=
  match c with
  | CmdNvUndefineSpace i => negb (i =? nv_index)
  | _ => true
  end.

Definition tpm_run (cs : list tpm_command) (t : tpm) : tpm :=
  fold_left (fun t c => tpm_exec c t) cs t.

Definition nv_read_locked (nv_index : Z) (t : tpm) : bool :=
  match tpm_nv t !! nv_index with
  | Some s => TPMA_NV_READLOCKED s
  | None => false
  end.

(** Calls of [tpm2_read_trusty_seed] during one boot, each with its own
    buffer and after any NV commands; the statuses they return, in order. *)
Fixpoint trusty_seed_calls (calls : list (list tpm_command * list Z)) (t : tpm)
  : list EFI_STATUS :=
  match calls with
  | [] => []
  | (cs, seed) :: calls' =>
      let r := tpm2_read_trusty_seed seed (tpm_run cs t) in
      r.1.1 :: trusty_seed_calls calls' r.2
  end.

Definition successes (rets : list EFI_STATUS) : nat :=
  length (filter (fun ret => EFI_ERROR ret = false) rets).

(** A provisioned TPM: the trusty seed index holds the bytes 1..32, and the
    bootloader index holds [struct_ver = 1], [lock_state = 0] and
    [rollback_index[0] = 5]. *)
Definition example_seed : list Z := map Z.of_nat (seq 1 32).

Definition example_bootloader_data : list Z :=
  [1; 0; 0; 0; 0; 0; 0; 0] ++ bytes_of_uint 8 5 ++ replicate (512 - 16) 0.

Definition example_nv : gmap Z nv_space :=
  <[NV_INDEX_TRUSTYOS_SEED :=
      mk_nv_space true true false true true false true example_seed]>
  (<[NV_INDEX_BOOTLOADER :=
      mk_nv_space false true true false true false false example_bootloader_data]>
   ∅).

Definition example_tpm (faults : list bool) : tpm := mk_tpm example_nv faults.

(** A variable store where [RollbackIndex_0000] holds 5. *)
Definition example_varstore : varstore :=
  mk_varstore
    (<[(fastboot_guid, ROLLBACK_INDEX_FMT 0) :=
         mk_efi_variable true false (bytes_of_uint 8 5)]> ∅)
    [].

(** A platform woken by the insertion of a battery after a reset by the
    kernel watchdog; no TPM is used; the clock reads 1000 s. *)
Definition example_time (seconds : Z) : EFI_TIME := bytes_of_uint 16 seconds.

Definition example_platform_at (seconds : Z) : platform :=
  mk_platform false false false false (EFI_SUCCESS, true) (EFI_SUCCESS, 0)
    WAKE_BATTERY_INSERTED RESET_KERNEL_WATCHDOG
    (EFI_SUCCESS, example_time seconds) uint_of_bytes
    (fun _ => FASTBOOT).

Definition example_platform : platform := example_platform_at 1000.

(** The same platform with a life cycle that cannot be read. *)
Definition example_platform_life_cycle_error : platform :=
  mk_platform false false false false (EFI_DEVICE_ERROR, false) (EFI_SUCCESS, 0)
    WAKE_BATTERY_INSERTED RESET_KERNEL_WATCHDOG
    (EFI_SUCCESS, example_time 1000) uint_of_bytes
    (fun _ => FASTBOOT).

(** A freshly started bootloader over the variables [vs]: nothing cached. *)
Definition boot_state (vs : gmap (efi_guid * string) efi_variable) : state :=
  mk_state (example_tpm []) (mk_varstore vs [])
    false UNKNOWN_STATE (mk_bool_value false false) (mk_bool_value false false)
    [] [].

(** No variable at all. *)
Definition vars_none : gmap (efi_guid * string) efi_variable := ∅.

(** [off-mode-charge] set to ["0"]. *)
Definition vars_off_mode_charge_disabled : gmap (efi_guid * string) efi_variable :=
  <[(fastboot_guid, OFF_MODE_CHARGE) := mk_efi_variable true true [48; 0]]> ∅.

(** [OEMLock] holding "unlocked" but readable at run time, which
    [read_device_state_efi] rejects. *)
Definition vars_oem_lock_runtime : gmap (efi_guid * string) efi_variable :=
  <[(fastboot_guid, OEM_LOCK) := mk_efi_variable true true [1]]> ∅.

Definition user_build : build_config := mk_build_config true false true.
Definition userdebug_build : build_config := mk_build_config false false true.

(** A disk whose [misc] partition starts at block 2 and is filled with the
    byte 0x41, so that no field of the stored BCB has a NUL. *)
Definition example_disk : disk :=
  mk_disk EFI_SUCCESS
    [mk_gpt_partition false "boot_a" 8 4103;
     mk_gpt_partition false "misc" 2 5]
    512
    (replicate 1024 0 ++ replicate 2048 65)
    [].

Definition empty_bcb : bootloader_message :=
  mk_bcb (replicate sizeof_command 0) (replicate sizeof_status 0)
         (replicate sizeof_recovery 0).

(** [MagicKeyTimeout] set to the decimal string [digits]. *)
Definition vars_magic_key_timeout (digits : string)
  : gmap (efi_guid * string) efi_variable :=
  <[(loader_guid, MAGIC_KEY_TIMEOUT_VAR) :=
      mk_efi_variable true true
        (map (fun c => Z.of_N (Ascii.N_of_ascii c))
             (String.list_ascii_of_string digits) ++ [0])]> ∅.

(** A console where the down key shows up at the fourth read and stays
    down. *)
Definition example_console : console :=
  mk_console
    [(EFI_NOT_READY, mk_key 0 0); (EFI_NOT_READY, mk_key 0 0);
     (EFI_NOT_READY, mk_key 0 0); (EFI_SUCCESS, mk_key 2 0)]
    0 (fun _ ev => bool_decide (ev = EV_DOWN)).

(** A firmware memory map: two contiguous RAM ranges of different EFI types,
    a persistent-memory range (type 14), a further RAM range contiguous with
    the first two, an ACPI range, and a runtime-services range. *)
Definition example_memory_map : list EFI_MEMORY_DESCRIPTOR :=
  [mk_mem_desc EfiLoaderCode 0x100000 0 16 0xf;
   mk_mem_desc EfiConventionalMemory 0x110000 0 240 0xf;
   mk_mem_desc 14 0x80000000 0 256 0xf;
   mk_mem_desc EfiBootServicesData 0x200000 0 256 0xf;
   mk_mem_desc EfiACPIReclaimMemory 0x300000 0 4 0xf;
   mk_mem_desc EfiRuntimeServicesData 0x304000 0 4 0xf].

(** Watchdog status in the variables: [counter] resets within the delay
    ([WatchdogTimeReference] reads 900 s on the example clock), with the
    crash event menu switched off by [menu] = "0". *)
Definition vars_watchdog (counter : Z) (menu : string)
  : gmap (efi_guid * string) efi_variable :=
  <[(fastboot_guid, WDT_COUNTER) := mk_efi_variable true false [counter]]>
  (<[(fastboot_guid, WDT_TIME_REF) :=
       mk_efi_variable true false (example_time 900)]>
   (<[(fastboot_guid, CRASH_EVENT_MENU) :=
        mk_efi_variable true false
          (map (fun c => Z.of_N (Ascii.N_of_ascii c))
               (String.list_ascii_of_string menu) ++ [0])]> ∅)).

(** ** tpm2_security.c: writing the device state *)

(** [write_device_state_tpm2]: one byte at the offset of [lock_state]. *)
Definition write_device_state_tpm2 (state0 : Z) (t : tpm) : EFI_STATUS * tpm :=
  tpm2_write_nvindex NV_INDEX_BOOTLOADER 1 [state0] offsetof_lock_state t.

(** Whether [nv_index] is write-locked, the counterpart of
    [nv_read_locked]. *)
Definition nv_write_locked (nv_index : Z) (t : tpm) : bool :=
  match tpm_nv t !! nv_index with
  | Some s => TPMA_NV_WRITELOCKED s
  | None => false
  end.

(** ** vars.c: writing the device state and the boolean variables *)

(** [set_boolean_var]: the variable holds the string ["1"] or ["0"] with its
    terminating NUL; the cache is updated only when the variable was
    written. *)
Definition set_boolean_var (guid : efi_guid) (varname : string)
    (cache : bool_value_t) (enabled runtime : bool) (vs : varstore)
  : EFI_STATUS * bool_value_t * varstore :=
  let val := if enabled then [49; 0] else [48; 0] in
  let '(ret, vs) := set_efi_variable guid varname val true runtime vs in
  if EFI_ERROR ret then (ret, cache, vs)
  else (EFI_SUCCESS, mk_bool_value true enabled, vs).

Definition set_off_mode_charge (enabled : bool) (s : state) : EFI_STATUS * state :=
  let '(ret, c, vs) :=
    set_boolean_var fastboot_guid OFF_MODE_CHARGE (off_mode_charge s)
      enabled true (st_vars s) in
  (ret, with_off_mode_charge (with_vars s vs) c).

Definition set_crash_event_menu (enabled : bool) (s : state) : EFI_STATUS * state :=
  let '(ret, c, vs) :=
    set_boolean_var fastboot_guid CRASH_EVENT_MENU (crash_event_menu s)
      enabled false (st_vars s) in
  (ret, with_crash_event_menu (with_vars s vs) c).

Definition write_device_state_efi (state0 : Z) (vs : varstore)
  : EFI_STATUS * varstore :=
  set_efi_variable fastboot_guid OEM_LOCK [state0] true false vs.

Section DeviceState.
(** The status with which the hypervisor peer answers a request to write
    the device state. *)
Variable tee_write_device_state_reply : Z -> EFI_STATUS.

(** [tee_write_device_state_tpm2]: one request to the peer, whose status is
    returned. *)
Definition tee_write_device_state_tpm2 (state0 : Z) : EFI_STATUS :=
  tee_write_device_state_reply state0.

(** The backing selection of [set_current_state]; nothing is written on a
    live boot. *)
Definition write_stored_state (p : platform) (stored_state : Z) (s : state)
  : EFI_STATUS * state :=
  if is_live_boot p then (EFI_SUCCESS, s)
  else if tee_tpm p then (tee_write_device_state_tpm2 stored_state, s)
  else if andr_tpm p then
    let '(ret, t) := write_device_state_tpm2 stored_state (st_tpm s) in
    (ret, with_tpm s t)
  else
    let '(ret, vs) := write_device_state_efi stored_state (st_vars s) in
    (ret, with_vars s vs).

Definition set_current_state (p : platform) (new_state : device_state)
    (s : state) : EFI_STATUS * state :=
  let store stored_state :=
    let '(ret, s) := write_stored_state p stored_state s in
    if EFI_ERROR ret then (ret, s)
    else (EFI_SUCCESS, with_current_state s new_state) in
  match new_state with
  | LOCKED => store 0
  | UNLOCKED => store OEM_LOCK_UNLOCKED
  | UNKNOWN_STATE => (EFI_INVALID_PARAMETER, s)
  end.
End DeviceState.

#[global] Instance device_state_eq_dec : EqDecision device_state.
Proof. solve_decision. Defined.

Definition refresh_current_state (cfg : build_config) (p : platform) (s : state)
  : EFI_STATUS * state :=
  let '(_, s) := get_current_state cfg p (with_current_state s UNKNOWN_STATE) in
  (EFI_SUCCESS, s).

Definition device_is_unlocked (cfg : build_config) (p : platform) (s : state)
  : bool * state :=
  let '(d, s) := get_current_state cfg p s in (bool_decide (d = UNLOCKED), s).

Definition device_is_locked (cfg : build_config) (p : platform) (s : state)
  : bool * state :=
  let '(d, s) := get_current_state cfg p s in (bool_decide (d = LOCKED), s).

Definition device_is_provisioning (cfg : build_config) (p : platform) (s : state)
  : bool * state :=
  let '(_, s) := get_current_state cfg p s in (provisioning_mode s, s).

(** ** vars.c: CDD_clean_string *)

(** [tolower] of the C library on the characters it is applied to. *)
Definition tolower (c : Z) : Z :=
  if (65 <=? c) && (c <=? 90) then c + 32 else c.

(** The test of the first loop of [CDD_clean_string]: letters, digits, and
    [','], ['_'], ['-']. *)
Definition CDD_valid_char (c : Z) : bool :=
  ((97 <=? c) && (c <=? 122)) || ((65 <=? c) && (c <=? 90))
  || ((48 <=? c) && (c <=? 57)) || (c =? 44) || (c =? 95) || (c =? 45).

(** The first loop, over the array [buf] up to its first NUL. *)
Fixpoint CDD_clean_chars (buf : list Z) : list Z :=
  match buf with
  | [] => []
  | c :: rest =>
      if c =? 0 then buf
      else (if CDD_valid_char c then tolower c else 95) :: CDD_clean_chars rest
  end.

(** The second loop: [while (len > 0 && (buf[len - 1] == '_' ||
    buf[len - 1] == '.'))].  Each turn shortens the string by one, so the
    initial length bounds the number of turns. *)
Fixpoint CDD_trim (turns : nat) (buf : list Z) : list Z :=
  match turns with
  | O => buf
  | S turns' =>
      match strlena buf with
      | Some (S i) =>
          match buf !! i with
          | Some c =>
              if (c =? 95) || (c =? 46) then CDD_trim turns' (<[i := 0]> buf)
              else buf
          | None => buf
          end
      | _ => buf
      end
  end.

Definition CDD_clean_string (buf : list Z) : list Z :=
  let buf := CDD_clean_chars buf in
  CDD_trim (length buf) buf.

(** The characters the Android CDD accepts after cleaning: lower-case
    letters, digits, [','], ['_'] and ['-']. *)
Definition CDD_clean_char (c : Z) : bool :=
  ((97 <=? c) && (c <=? 122)) || ((48 <=? c) && (c <=? 57))
  || (c =? 44) || (c =? 95) || (c =? 45).

(** ** android.c: the boot reason *)

Definition get_wake_reason (p : platform) : option CHAR16_string :=
  match rsci_get_wake_source p with
  | WAKE_BATTERY_INSERTED => Some (L "battery_inserted")
  | WAKE_USB_CHARGER_INSERTED => Some (L "usb_charger_inserted")
  | WAKE_ACDC_CHARGER_INSERTED => Some (L "acdc_charger_inserted")
  | WAKE_POWER_BUTTON_PRESSED => Some (L "power_button_pressed")
  | WAKE_RTC_TIMER => Some (L "rtc_timer")
  | WAKE_BATTERY_REACHED_IA_THRESHOLD => Some (L "battery_reached_ia_threshold")
  | _ => None
  end.

Definition OS_INITIATED : CHAR16_string := L "os_initiated".

(** [IGNORE_NOT_APPLICABLE_RESET] is the preprocessor symbol that removes
    the first case. *)
Definition get_reset_reason (IGNORE_NOT_APPLICABLE_RESET : bool) (p : platform)
  : option CHAR16_string :=
  match rsci_get_reset_source p with
  | RESET_NOT_APPLICABLE =>
      if IGNORE_NOT_APPLICABLE_RESET then None else Some (L "not_applicable")
  | RESET_OS_INITIATED => Some OS_INITIATED
  | RESET_FORCED => Some (L "forced")
  | RESET_FW_UPDATE => Some (L "firmware_update")
  | RESET_KERNEL_WATCHDOG => Some (L "watchdog")
  | RESET_SECURITY_WATCHDOG => Some (L "security_watchdog")
  | RESET_SECURITY_INITIATED => Some (L "security_initiated")
  | RESET_EC_WATCHDOG => Some (L "ec_watchdog")
  | RESET_PMIC_WATCHDOG => Some (L "pmic_watchdog")
  | RESET_SHORT_POWER_LOSS => Some (L "short_power_loss")
  | RESET_PLATFORM_SPECIFIC => Some (L "platform_specific")
  | RESET_UNKNOWN => Some (L "unknown")
  end.

(** The test of the loop of [get_boot_reason] over the saved reboot reason:
    digits, lower-case letters and ['_']. *)
Definition boot_reason_char (c : Z) : bool :=
  ((48 <=? c) && (c <=? 57)) || ((97 <=? c) && (c <=? 122)) || (c =? 95).

Definition get_boot_reason (cfg : build_config)
    (IGNORE_NOT_APPLICABLE_RESET : bool) (p : platform) (s : state)
  : CHAR16_string * state :=
  let done (bootreason : CHAR16_string) (s : state) :=
    (bootreason, if USE_SBL cfg then s else del_reboot_reason s) in
  let from_variable :=
    let '(bootreason, s) := get_reboot_reason s in
    match bootreason with
    | None => done (L "unknown") s
    | Some bootreason =>
        if forallb boot_reason_char bootreason then done bootreason s
        else done (L "unknown") s
    end in
  match get_wake_reason p with
  | Some bootreason => done bootreason s
  | None =>
      match get_reset_reason IGNORE_NOT_APPLICABLE_RESET p with
      | Some bootreason =>
          if negb (bool_decide (bootreason = OS_INITIATED))
          then done bootreason s
          else from_variable
      | None => from_variable
      end
  end.

(** ** kernelflinger.c: the command line and the one-shot variable *)

(** The loop of [check_command_line] (builds without [USE_SBL]) over
    [argv[pos..]].  The second component tells whether [unittest_main] was
    called, and with which argument ([None] for [NULL]). *)
Fixpoint check_command_line_loop (cfg : build_config) (pos : nat)
    (argv : list CHAR16_string) (bt : boot_target)
  : boot_target * option (option CHAR16_string) :=
  match argv with
  | [] => (bt, None)
  | arg :: rest =>
      if bool_decide (arg = L "-f") then
        check_command_line_loop cfg (S pos) rest FASTBOOT
      else if negb (USER cfg) && bool_decide (arg = L "-U") then
        (EXIT_SHELL, Some (head rest))
      else if bool_decide (arg = L "-a") then
        match rest with
        | [] => (bt, None)
        | _ :: rest' => check_command_line_loop cfg (S (S pos)) rest' FASTBOOT
        end
      else if (pos =? 0)%nat then check_command_line_loop cfg (S pos) rest bt
      else (bt, None)
  end.

(** [get_argv] is the status and the argument vector that the support
    library extracts from the loaded image. *)
Definition check_command_line (cfg : build_config)
    (get_argv : EFI_STATUS * list CHAR16_string)
  : boot_target * option (option CHAR16_string) :=
  if EFI_ERROR get_argv.1 then (NORMAL_BOOT, None)
  else check_command_line_loop cfg 0 get_argv.2 NORMAL_BOOT.

(** Modelled from the spec: the name of the one-shot variable,
    [LOADER_ENTRY_ONESHOT], declared in a header outside the sources. *)
Definition LOADER_ENTRY_ONESHOT : string := "LoaderEntryOneShot".

Section OneShot.
(** [name_to_boot_target] of the support library. *)
Variable name_to_boot_target : CHAR16_string -> boot_target.

(** The second component tells whether [slot_set_verity_corrupted(TRUE)]
    was called. *)
Definition check_loader_entry_one_shot (s : state) : boot_target * bool * state :=
  let '(target, vs) :=
    get_efi_variable_str loader_guid LOADER_ENTRY_ONESHOT (st_vars s) in
  let '(_, vs) := del_efi_variable loader_guid LOADER_ENTRY_ONESHOT vs in
  let s := with_vars s vs in
  match target with
  | None => (NORMAL_BOOT, false, s)
  | Some target =>
      let bt := name_to_boot_target target in
      if bool_decide (bt = UNKNOWN_TARGET) then
        if bool_decide (target = L "dm-verity device corrupted")
        then (NORMAL_BOOT, true, s)
        else (NORMAL_BOOT, false, s)
      else if bool_decide (bt = CHARGER) then
        let '(omc, s) := get_off_mode_charge s in
        if negb omc then (POWER_OFF, false, s) else (bt, false, s)
      else (bt, false, s)
  end.
End OneShot.

(** A platform restarted by the operating system, with no wake source. *)
Definition example_platform_os_reset : platform :=
  mk_platform false false false false (EFI_SUCCESS, true) (EFI_SUCCESS, 0)
    WAKE_NOT_APPLICABLE RESET_OS_INITIATED
    (EFI_SUCCESS, example_time 1000) uint_of_bytes
    (fun _ => FASTBOOT).

(** [LoaderEntryRebootReason] holding [L"recovery"]. *)
Definition vars_reboot_reason_recovery : gmap (efi_guid * string) efi_variable :=
  <[(loader_guid, REBOOT_REASON) :=
      mk_efi_variable true true
        [114; 0; 101; 0; 99; 0; 111; 0; 118; 0; 101; 0; 114; 0; 121; 0;
         0; 0]]> ∅.

(** The arguments that [check_command_line] knows. *)
Definition recognised_argument (cfg : build_config) (arg : CHAR16_string) : bool :=
  bool_decide (arg = L "-f")
  || (negb (USER cfg) && bool_decide (arg = L "-U"))
  || bool_decide (arg = L "-a").

(** ** android.c and kernelflinger.c: writing and checking the BCB *)

(** Modelled from the spec: [MISC_LABEL], the label of the [misc] partition,
    declared in a header outside the sources. *)
Definition MISC_LABEL : string := "misc".

(** Modelled from the spec: [WriteDisk] of the firmware's disk I/O protocol,
    the counterpart of [ReadDisk]: a write that leaves the medium fails, and
    [fault] tells whether the device fails this write. *)
Definition WriteDisk (fault : bool) (offset : Z) (size : nat) (buffer : list Z)
    (dk : disk) : EFI_STATUS * disk :=
  if fault then (EFI_DEVICE_ERROR, dk)
  else if (offset <? 0)
          || (Z.of_nat (length (disk_bytes dk)) <? offset + Z.of_nat size)
  then (EFI_INVALID_PARAMETER, dk)
  else (EFI_SUCCESS,
        mk_disk (gpt_cache_partition dk) (partitions dk) (BlockSize dk)
                (buf_write (disk_bytes dk) (Z.to_nat offset) (take size buffer))
                (disk_read_faults dk)).

Definition write_bcb (vm_offset : Z) (write_fault : bool) (label : string)
    (bcb : bootloader_message) (dk : disk) : EFI_STATUS * disk :=
  let '(ret, gpart) := gpt_get_partition_by_label label dk in
  match gpart with
  | None => (EFI_INVALID_PARAMETER, dk)
  | Some part =>
      let partition_start := wrap64 (starting_lba part * BlockSize dk) in
      let '(ret, dk) :=
        WriteDisk write_fault (wrap64 (vm_offset + partition_start))
                  sizeof_bootloader_message (bcb_bytes bcb) dk in
      if EFI_ERROR ret then (ret, dk) else (EFI_SUCCESS, dk)
  end.

(** [!strncmpa(s, prefix, n)] for a [prefix] of [n] characters, none of
    them NUL. *)
Definition strncmpa_matches (s : list Z) (prefix : string) : bool :=
  bool_decide (take (String.length prefix) s = L prefix).

(** [stra_to_str]: the characters up to the first NUL, widened. *)
Fixpoint stra_to_str (a : list Z) : CHAR16_string :=
  match a with
  | [] => []
  | c :: a' => if c =? 0 then [] else c :: stra_to_str a'
  end.

Section CheckBcb.
(** [name_to_boot_target] and [file_exists(g_disk_device, _)] of the support
    library. *)
Variable name_to_boot_target : CHAR16_string -> boot_target.
Variable file_exists : CHAR16_string -> bool.

(** The second half of [check_bcb], from [if (!target)] on; the result is
    the target and [*target_path]. *)
Definition check_bcb_target (target : option CHAR16_string)
  : boot_target * option CHAR16_string :=
  match target with
  | None => (NORMAL_BOOT, None)
  | Some target =>
      if bool_decide (head target = Some 92) then
        if negb (file_exists target) then (NORMAL_BOOT, None)
        else
          let len := length target in
          if (4 <? len)%nat then
            if bool_decide (drop (len - 4) target = L ".efi")
               || bool_decide (drop (len - 4) target = L ".EFI")
            then (ESP_EFI_BINARY, Some target)
            else (ESP_BOOTIMAGE, Some target)
          else (NORMAL_BOOT, None)
      else
        let t := name_to_boot_target target in
        if negb (bool_decide (t = UNKNOWN_TARGET)) then (t, None)
        else (NORMAL_BOOT, None)
  end.

(** [check_bcb]: [bcb0] is the local structure before it is read into.  The
    result is the target, [*target_path], [*oneshot] and the disk. *)
Definition check_bcb (vm_offset : Z) (write_fault : bool)
    (bcb0 : bootloader_message) (dk : disk)
  : boot_target * option CHAR16_string * bool * disk :=
  let '(ret, bcb, dk) := read_bcb vm_offset MISC_LABEL bcb0 dk in
  if EFI_ERROR ret then (NORMAL_BOOT, None, false, dk)
  else
    let dirty := negb (nth 0 (status bcb) 0 =? 0) in
    let bcb := mk_bcb (command bcb) (array_set (status bcb) 0 0) (recovery bcb) in
    let '(target, bcb, dirty, oneshot) :=
      if strncmpa_matches (command bcb) "boot-" then
        (Some (stra_to_str (drop 5 (command bcb))), bcb, dirty, false)
      else if strncmpa_matches (command bcb) "bootonce-" then
        (Some (stra_to_str (drop 9 (command bcb))),
         mk_bcb (array_set (command bcb) 0 0) (status bcb) (recovery bcb),
         true, true)
      else (None, bcb, dirty, false) in
    let dk :=
      if dirty then (write_bcb vm_offset write_fault MISC_LABEL bcb dk).2
      else dk in
    let '(t, target_path) := check_bcb_target target in
    (t, target_path, oneshot, dk).
End CheckBcb.

(** A well-formed [struct bootloader_message]. *)
Definition bcb_wf (bcb : bootloader_message) : Prop :=
  length (command bcb) = sizeof_command
  /\ length (status bcb) = sizeof_status
  /\ length (recovery bcb) = sizeof_recovery.

(** A BCB asking for one boot into fastboot, with a stale status. *)
Definition example_bcb_bootonce : bootloader_message :=
  mk_bcb (L "bootonce-fastboot" ++ replicate 15 0)
         (L "OKAY" ++ replicate 28 0)
         (replicate sizeof_recovery 0).

(** ** android.c: the size of a boot image *)

(** Modelled from the spec: the fields of [struct boot_img_hdr] that
    [bootimage_size] reads, all [UINT32]; the structure is declared in a
    header outside the sources. *)
Record boot_img_hdr : Set := mk_boot_img_hdr {
  kernel_size         : Z;
  ramdisk_size        : Z;
  second_size         : Z;
  page_size           : Z;
  header_version      : Z;
  recovery_acpio_size : Z;
  acpi_size           : Z
}.

Definition pagealign (hdr : boot_img_hdr) (blob_size : Z) : Z :=
  let page_mask := wrap32 (page_size hdr - 1) in
  Z.land (wrap32 (blob_size + page_mask)) (wrap32 (Z.lnot page_mask)).

(** [bootimage_size]: the first sum is computed on [UINT32] operands and
    widened afterwards; [UINTN] has [UINTN_bits] bits. *)
Definition bootimage_size (UINTN_bits : Z) (aosp_header : boot_img_hdr) : Z :=
  let wrapN x := x mod 2 ^ UINTN_bits in
  let size :=
    wrap32 (pagealign aosp_header (kernel_size aosp_header)
            + pagealign aosp_header (ramdisk_size aosp_header)
            + pagealign aosp_header (second_size aosp_header)
            + page_size aosp_header) in
  let size :=
    if 1 <=? header_version aosp_header
    then wrapN (size + pagealign aosp_header (recovery_acpio_size aosp_header))
    else size in
  let size :=
    if header_version aosp_header =? 2
    then wrapN (size + pagealign aosp_header (acpi_size aosp_header))
    else size in
  size.

(** The sections of a boot image that [bootimage_size] counts besides the
    header page, by header version. *)
Definition bootimage_sections (hdr : boot_img_hdr) : list Z :=
  [kernel_size hdr; ramdisk_size hdr; second_size hdr]
  ++ (if 1 <=? header_version hdr then [recovery_acpio_size hdr] else [])
  ++ (if header_version hdr =? 2 then [acpi_size hdr] else []).

(** [x] rounded up to a multiple of [n]. *)
Definition round_up (n x : Z) : Z := n * ((x + n - 1) / n).

Definition sum_list_Z (l : list Z) : Z := foldr Z.add 0 l.

(** ** gpt.c: reading inside a partition *)

(** What [read_partition] returns: [EFI_END_OF_MEDIA] for a range that its
    own check refuses, otherwise the status of [ReadDisk]. *)
Inductive read_partition_status : Set :=
| EFI_END_OF_MEDIA
| ReadDisk_status (ret : EFI_STATUS).

(** The conversion of a 64-bit value to [INT64]. *)
Definition int64 (x : Z) : Z := (x + 2 ^ 63) mod 2 ^ 64 - 2 ^ 63.

(** [gparti] is [None] for a null pointer; the block size is that of the
    disk the partition lies on. *)
Definition get_partition_size (gparti : option gpt_partition) (dk : disk) : Z :=
  match gparti with
  | None => 0
  | Some part =>
      wrap64 (wrap64 (ending_lba part + 1 - starting_lba part) * BlockSize dk)
  end.

Definition read_partition (gparti : option gpt_partition) (offset len : Z)
    (data : list Z) (dk : disk) : read_partition_status * list Z * disk :=
  match gparti with
  | None => (ReadDisk_status EFI_INVALID_PARAMETER, data, dk)
  | Some part =>
      let partlen := get_partition_size gparti dk in
      let partoffset := wrap64 (starting_lba part * BlockSize dk) in
      let offset :=
        if offset <? 0 then int64 (wrap64 (offset + partlen)) else offset in
      if (offset <? 0) || (partlen <? wrap64 (len + offset))
      then (EFI_END_OF_MEDIA, data, dk)
      else
        let '(ret, data, dk) :=
          ReadDisk (wrap64 (partoffset + offset)) (Z.to_nat len) data dk in
        (ReadDisk_status ret, data, dk)
  end.

(** ** vars.c: the names of the rollback index variables *)

(** The value of a hexadecimal digit and of a string of them: the inverse
    of the [%04x] conversion. *)
Definition hex_digit_value (c : Ascii.ascii) : Z :=
  let n := Z.of_N (Ascii.N_of_ascii c) in
  if (48 <=? n) && (n <=? 57) then n - 48
  else if (97 <=? n) && (n <=? 102) then n - 87
  else 0.

Fixpoint hex_value (acc : Z) (s : string) : Z :=
  match s with
  | EmptyString => acc
  | String c s' => hex_value (16 * acc + hex_digit_value c) s'
  end.

(** ** efilinux.h: the names of the memory types *)

Definition memory_types : list string :=
  ["EfiReservedMemoryType"; "EfiLoaderCode"; "EfiLoaderData";
   "EfiBootServicesCode"; "EfiBootServicesData"; "EfiRuntimeServicesCode";
   "EfiRuntimeServicesData"; "EfiConventionalMemory"; "EfiUnusableMemory";
   "EfiACPIReclaimMemory"; "EfiACPIMemoryNVS"; "EfiMemoryMappedIO";
   "EfiMemoryMappedIOPortSpace"; "EfiPalCode"; "EfiVENDOR_RSVD"]%string.

(** [memory_type_to_str]: [None] stands for a read past the end of
    [memory_types]. *)
Definition memory_type_to_str (type : Z) : option string :=
  if Z.of_nat (length memory_types) <? type then Some "Unknown"%string
  else memory_types !! Z.to_nat type.

(** ** gpt.c: what a label matches *)

(** The test of the loop of [gpt_find_partition] on one table entry. *)
Definition gpt_label_matches (label : string) (part : gpt_partition) : bool :=
  negb (part_type_is_null part)
  && (bool_decide (part_name part = label)
      || bool_decide (String.length label <= 27
                      /\ part_name part = (ANDROID_PREFIX ++ label)%string)%nat).

(** A table with an [android_]-prefixed [data] partition behind an unused
    entry of the same name. *)
Definition example_disk_data : disk :=
  mk_disk EFI_SUCCESS
    [mk_gpt_partition true "data" 0 0;
     mk_gpt_partition false "misc" 2 5;
     mk_gpt_partition false "android_data" 6 9;
     mk_gpt_partition false "data" 10 11]
    512 [] [].

(** ** vars.c: erasing the variables (builds without [USER]) *)

Section EraseEfivars.
(** [LOG_VAR], the name of the variable that holds the log; it is declared
    in a header outside the sources. *)
Variable LOG_VAR : string.

Definition EFIVAR_BLACK_LIST : list (string * efi_guid) :=
  [(OEM_LOCK, fastboot_guid); (LOG_VAR, loader_guid)].

(** The variables [erase_efivars] goes on to delete: those of the two
    namespaces of the bootloader that are not on the black list. *)
Definition erase_candidate (guid : efi_guid) (name : string) : bool :=
  negb (negb (bool_decide (loader_guid = guid))
        && negb (bool_decide (fastboot_guid = guid)))
  && negb (existsb (fun e => bool_decide (e.1 = name) && bool_decide (e.2 = guid))
                   EFIVAR_BLACK_LIST).

(** Modelled from the spec: [GetNextVariableName] of the firmware walks the
    variables in an order of its own, here the order of [map_to_list]; like
    the other variable services it fails when [var_faults] says so.

    One pass of the loop of [erase_efivars] over the names [keys] that the
    firmware has still to report; [start_over] is the rest of the run after
    a deletion, which resets the name.  [None] is never returned by
    [erase_efivars] (it stands for a run that is cut short). *)
Fixpoint erase_efivars_pass
    (start_over : varstore -> option (EFI_STATUS * varstore))
    (keys : list (efi_guid * string)) (vs : varstore)
  : option (EFI_STATUS * varstore) :=
  let '(fault, vs) := var_next_fault vs in
  if fault then Some (EFI_DEVICE_ERROR, vs)
  else
    match keys with
    | [] => Some (EFI_SUCCESS, vs)
    | (guid, name) :: keys' =>
        if negb (erase_candidate guid name)
        then erase_efivars_pass start_over keys' vs
        else
          let '(ret, vs) := del_efi_variable guid name vs in
          if EFI_ERROR ret then erase_efivars_pass start_over keys' vs
          else start_over vs
    end.

Fixpoint erase_efivars_loop (passes : nat) (vs : varstore)
  : option (EFI_STATUS * varstore) :=
  match passes with
  | O => None
  | S passes' =>
      erase_efivars_pass (erase_efivars_loop passes')
        (fst <$> map_to_list (vars vs)) vs
  end.

(** Every pass but the last deletes a variable, so that there are at most
    as many passes as variables, and one more. *)
Definition erase_efivars (vs : varstore) : option (EFI_STATUS * varstore) :=
  erase_efivars_loop (S (base.size (vars vs))) vs.
End EraseEfivars.

(** Variables of both namespaces, [OEMLock] and the log among them. *)
Definition vars_to_erase : gmap (efi_guid * string) efi_variable :=
  <[(fastboot_guid, OEM_LOCK) := mk_efi_variable true false [1]]>
  (<[(loader_guid, "KernelflingerLogs"%string) := mk_efi_variable true true [0]]>
   (<[(loader_guid, OEM_LOCK) := mk_efi_variable true true [7]]>
    (<[(fastboot_guid, OFF_MODE_CHARGE) := mk_efi_variable true true [48; 0]]>
     (<[(loader_guid, REBOOT_REASON) := mk_efi_variable true true [0; 0]]> ∅)))).

(* ================================================================== *)
(** * Part II. Properties *)
(* ================================================================== *)

(** ** Integers and buffers *)

Lemma bytes_of_uint_length n v : length (bytes_of_uint n v) = n.
Proof. revert v; induction n as [|n IH]; intros v; simpl; [done | by rewrite IH]. Qed.

Lemma uint_of_bytes_of_uint n v :
  0 <= v < 256 ^ Z.of_nat n -> uint_of_bytes (bytes_of_uint n v) = v.
Proof.
  revert v; induction n as [|n IH]; intros v Hv.
  - simpl in *. lia.
  - cbn [bytes_of_uint uint_of_bytes].
    rewrite IH.
    + pose proof (Z.div_mod v 256 ltac:(lia)). lia.
    + rewrite Nat2Z.inj_succ, Z.pow_succ_r in Hv by lia.
      split; [apply Z.div_pos; lia | apply Z.div_lt_upper_bound; lia].
Qed.

Lemma buf_write_length dst off src :
  (off + length src <= length dst)%nat ->
  length (buf_write dst off src) = length dst.
Proof.
  intros H. unfold buf_write.
  rewrite !length_app, length_take, length_drop. lia.
Qed.

Lemma buf_write_read dst off src :
  (off + length src <= length dst)%nat ->
  take (length src) (drop off (buf_write dst off src)) = src.
Proof.
  intros H. unfold buf_write.
  rewrite drop_app_length'; [| rewrite length_take; lia].
  by rewrite take_app_length.
Qed.

Lemma memset_s_all dst c n :
  length dst = n -> memset_s dst c n = replicate n c.
Proof.
  intros <-. unfold memset_s. by rewrite drop_all, app_nil_r.
Qed.

(** ** The TPM model: reads, writes and locks *)

Lemma tpm_next_fault_nv t : tpm_nv (tpm_next_fault t).2 = tpm_nv t.
Proof. unfold tpm_next_fault. by destruct (tpm_faults t). Qed.

(** What a read can do: it never changes the NV contents; when it succeeds
    it returns the requested range of an unlocked index. *)
Lemma Tpm2NvRead_spec nv_index n o t :
  tpm_nv (Tpm2NvRead nv_index n o t).2 = tpm_nv t
  /\ ((Tpm2NvRead nv_index n o t).1.1 = EFI_SUCCESS ->
      exists s, tpm_nv t !! nv_index = Some s
                /\ TPMA_NV_READLOCKED s = false
                /\ (o + n <= length (nv_data s))%nat
                /\ (Tpm2NvRead nv_index n o t).1.2 = take n (drop o (nv_data s))).
Proof.
  unfold Tpm2NvRead.
  pose proof (tpm_next_fault_nv t) as Hnv.
  destruct (tpm_next_fault t) as [fault t0]; simpl in Hnv.
  destruct fault; [by split|].
  rewrite Hnv.
  destruct (tpm_nv t !! nv_index) as [s|] eqn:Hs; [|by split].
  destruct (TPMA_NV_READLOCKED s) eqn:Hl; [by split|].
  destruct (TPMA_NV_WRITTEN s); simpl; [|by split].
  destruct (Nat.ltb_spec (length (nv_data s)) (o + n)); simpl; [by split|].
  split; [done|]. intros _. exists s. by rewrite Hl.
Qed.

Lemma Tpm2NvRead_locked nv_index n o t :
  nv_read_locked nv_index t = true ->
  (Tpm2NvRead nv_index n o t).1.1 = EFI_ACCESS_DENIED
  \/ (Tpm2NvRead nv_index n o t).1.1 = EFI_DEVICE_ERROR.
Proof.
  unfold nv_read_locked, Tpm2NvRead. intros Hl.
  pose proof (tpm_next_fault_nv t) as Hnv.
  destruct (tpm_next_fault t) as [fault t0]; simpl in Hnv.
  destruct fault; [by right|].
  rewrite Hnv.
  destruct (tpm_nv t !! nv_index) as [s|]; [|done].
  rewrite Hl. by left.
Qed.

Lemma tpm2_read_nvindex_loop_spec r nv_index n o t :
  tpm_nv (tpm2_read_nvindex_loop r nv_index n o t).2 = tpm_nv t
  /\ ((tpm2_read_nvindex_loop r nv_index n o t).1.1 = EFI_SUCCESS ->
      exists s, tpm_nv t !! nv_index = Some s
                /\ TPMA_NV_READLOCKED s = false
                /\ (o + n <= length (nv_data s))%nat
                /\ (tpm2_read_nvindex_loop r nv_index n o t).1.2
                   = take n (drop o (nv_data s))).
Proof.
  revert t. induction r as [|r IH]; intros t.
  - cbn [tpm2_read_nvindex_loop].
    pose proof (Tpm2NvRead_spec nv_index n o t) as H.
    by destruct (Tpm2NvRead nv_index n o t) as [[ret buf] t'].
  - cbn [tpm2_read_nvindex_loop].
    pose proof (Tpm2NvRead_spec nv_index n o t) as H.
    destruct (Tpm2NvRead nv_index n o t) as [[ret buf] t'].
    destruct r as [|r']; [done|].
    destruct (decide (ret = EFI_DEVICE_ERROR)) as [->|Hne]; [|done].
    simpl in H. destruct H as [Hnv _].
    specialize (IH t'). rewrite Hnv in IH. exact IH.
Qed.

Lemma tpm2_read_nvindex_loop_locked r nv_index n o t :
  nv_read_locked nv_index t = true ->
  EFI_ERROR (tpm2_read_nvindex_loop r nv_index n o t).1.1 = true.
Proof.
  intros Hl.
  destruct (EFI_ERROR _) eqn:He; [done|].
  assert ((tpm2_read_nvindex_loop r nv_index n o t).1.1 = EFI_SUCCESS) as Hs
    by (destruct (_ : EFI_STATUS); done).
  apply tpm2_read_nvindex_loop_spec in Hs as (s & Hs & Hu & _).
  unfold nv_read_locked in Hl. rewrite Hs in Hl. congruence.
Qed.

(** [tpm2_read_nvindex] keeps the size of the caller's buffer. *)
Lemma tpm2_read_nvindex_length nv_index n data o t :
  (n <= length data)%nat ->
  length (tpm2_read_nvindex nv_index n data o t).1.2 = length data.
Proof.
  intros Hn. unfold tpm2_read_nvindex.
  pose proof (tpm2_read_nvindex_loop_spec 5 nv_index n o t) as [_ H].
  destruct (tpm2_read_nvindex_loop 5 nv_index n o t) as [[ret buf] t'].
  simpl in H.
  destruct ret; try done. simpl.
  destruct H as (s & _ & _ & Hlen & ->); [done|].
  apply buf_write_length. rewrite length_take, length_drop. lia.
Qed.

Lemma tpm2_read_nvindex_nv nv_index n data o t :
  tpm_nv (tpm2_read_nvindex nv_index n data o t).2 = tpm_nv t.
Proof.
  unfold tpm2_read_nvindex.
  pose proof (tpm2_read_nvindex_loop_spec 5 nv_index n o t) as [H _].
  destruct (tpm2_read_nvindex_loop 5 nv_index n o t) as [[ret buf] t'].
  by destruct (EFI_ERROR ret).
Qed.

Lemma tpm2_read_nvindex_locked nv_index n data o t :
  nv_read_locked nv_index t = true ->
  EFI_ERROR (tpm2_read_nvindex nv_index n data o t).1.1 = true.
Proof.
  intros Hl. unfold tpm2_read_nvindex.
  pose proof (tpm2_read_nvindex_loop_locked 5 nv_index n o t Hl) as H.
  destruct (tpm2_read_nvindex_loop 5 nv_index n o t) as [[ret buf] t'].
  simpl in H. by rewrite H.
Qed.

(** A successful read returns the stored range. *)
Lemma tpm2_read_nvindex_success nv_index n data o t :
  (tpm2_read_nvindex nv_index n data o t).1.1 = EFI_SUCCESS ->
  exists s, tpm_nv t !! nv_index = Some s
            /\ (o + n <= length (nv_data s))%nat
            /\ (tpm2_read_nvindex nv_index n data o t).1.2
               = buf_write data 0 (take n (drop o (nv_data s))).
Proof.
  unfold tpm2_read_nvindex.
  pose proof (tpm2_read_nvindex_loop_spec 5 nv_index n o t) as [_ H].
  destruct (tpm2_read_nvindex_loop 5 nv_index n o t) as [[ret buf] t'].
  simpl in H. destruct ret; try done. simpl. intros _.
  destruct H as (s & Hs & _ & Hlen & ->); [done|]. by exists s.
Qed.

Lemma Tpm2NvReadLock_success nv_index t :
  (Tpm2NvReadLock nv_index t).1 = EFI_SUCCESS ->
  nv_read_locked nv_index (Tpm2NvReadLock nv_index t).2 = true.
Proof.
  unfold Tpm2NvReadLock, nv_read_locked.
  destruct (tpm_next_fault t) as [[] t0]; [done|].
  destruct (tpm_nv t0 !! nv_index) as [s|]; [|done].
  destruct (TPMA_NV_READ_STCLEAR s); [|done].
  simpl. intros _. by rewrite lookup_insert_eq.
Qed.

(** Closes a goal about the lock bit of [nv_index] after index [i] was
    rewritten with the same lock bit. *)
Ltac lock_bit_kept Hs Hl Hnv :=
  unfold set_nv; simpl; rewrite ?Hnv;
  match goal with
  | |- context [<[?i := _]> _ !! ?j] =>
      destruct (decide (i = j)) as [->|?];
      [ rewrite lookup_insert_eq; simpl; rewrite ?Hs in Hl; done
      | by rewrite lookup_insert_ne ]
  end.

(** Defining an index leaves every index that exists as it is; deleting
    one leaves every other index as it is. *)
Lemma Tpm2NvDefineSpace_other i a n idx t s :
  tpm_nv t !! idx = Some s ->
  tpm_nv (Tpm2NvDefineSpace i a n t).2 !! idx = Some s.
Proof.
  intros Hs. unfold Tpm2NvDefineSpace.
  pose proof (tpm_next_fault_nv t) as Hnv.
  destruct (tpm_next_fault t) as [[] t0]; simpl in *; rewrite ?Hnv; [done|].
  destruct (tpm_nv t !! i) as [s0|] eqn:Hi; simpl; rewrite ?Hnv; [done|].
  rewrite lookup_insert_ne; [done|]. intros ->. congruence.
Qed.

Lemma Tpm2NvUndefineSpace_other i idx t :
  i <> idx ->
  tpm_nv (Tpm2NvUndefineSpace i t).2 !! idx = tpm_nv t !! idx.
Proof.
  intros Hne. unfold Tpm2NvUndefineSpace.
  pose proof (tpm_next_fault_nv t) as Hnv.
  destruct (tpm_next_fault t) as [[] t0]; simpl in *; rewrite ?Hnv; [done|].
  destruct (tpm_nv t !! i) as [s0|] eqn:Hi; simpl; rewrite ?Hnv; [|done].
  by rewrite lookup_delete_ne.
Qed.

Lemma keeps_index_undefine nv_index i :
  keeps_index nv_index (CmdNvUndefineSpace i) = true -> i <> nv_index.
Proof. simpl. intros H%negb_true_iff. by apply Z.eqb_neq. Qed.

(** No NV command clears a read lock, short of deleting the index: only a
    TPM reset does. *)
Lemma tpm_exec_read_locked c nv_index t :
  keeps_index nv_index c = true ->
  nv_read_locked nv_index t = true ->
  nv_read_locked nv_index (tpm_exec c t) = true.
Proof.
  unfold nv_read_locked. intros Hk Hl.
  destruct c as [i n o|i d o|i|i|i a n|i]; simpl.
  5:{ destruct (tpm_nv t !! nv_index) as [s|] eqn:Hs; [|done].
      by rewrite (Tpm2NvDefineSpace_other i a n nv_index t s Hs). }
  5:{ by rewrite (Tpm2NvUndefineSpace_other i nv_index t
                    (keeps_index_undefine _ _ Hk)). }
  - by rewrite (proj1 (Tpm2NvRead_spec i n o t)).
  - unfold Tpm2NvWrite.
    pose proof (tpm_next_fault_nv t) as Hnv.
    destruct (tpm_next_fault t) as [[] t0]; simpl in *; rewrite ?Hnv; [done|].
    destruct (tpm_nv t !! i) as [s|] eqn:Hs; simpl; rewrite ?Hnv; [|done].
    destruct (TPMA_NV_WRITELOCKED s); simpl; rewrite ?Hnv; [done|].
    destruct (_ <? _)%nat; simpl; rewrite ?Hnv; [done|].
    destruct (_ && _); simpl; rewrite ?Hnv; [done|].
    lock_bit_kept Hs Hl Hnv.
  - unfold Tpm2NvReadLock.
    pose proof (tpm_next_fault_nv t) as Hnv.
    destruct (tpm_next_fault t) as [[] t0]; simpl in *; rewrite ?Hnv; [done|].
    destruct (tpm_nv t !! i) as [s|] eqn:Hs; simpl; rewrite ?Hnv; [|done].
    destruct (TPMA_NV_READ_STCLEAR s); simpl; rewrite ?Hnv; [|done].
    lock_bit_kept Hs Hl Hnv.
  - unfold Tpm2NvWriteLock.
    pose proof (tpm_next_fault_nv t) as Hnv.
    destruct (tpm_next_fault t) as [[] t0]; simpl in *; rewrite ?Hnv; [done|].
    destruct (tpm_nv t !! i) as [s|] eqn:Hs; simpl; rewrite ?Hnv; [|done].
    destruct (_ || _); simpl; rewrite ?Hnv; [|done].
    lock_bit_kept Hs Hl Hnv.
Qed.

Lemma tpm_run_read_locked cs nv_index t :
  forallb (keeps_index nv_index) cs = true ->
  nv_read_locked nv_index t = true ->
  nv_read_locked nv_index (tpm_run cs t) = true.
Proof.
  revert t. induction cs as [|c cs IH]; intros t Hk Hl; [done|].
  cbn [forallb] in Hk. apply andb_true_iff in Hk as [Hc Hk].
  simpl. apply IH; [done|]. by apply tpm_exec_read_locked.
Qed.

Lemma nv_read_locked_nv nv_index t t' :
  tpm_nv t' = tpm_nv t -> nv_read_locked nv_index t' = nv_read_locked nv_index t.
Proof. unfold nv_read_locked. by intros ->. Qed.

Lemma EFI_ERROR_false ret : EFI_ERROR ret = false -> ret = EFI_SUCCESS.
Proof. by destruct ret. Qed.

(** The three outcomes of [tpm2_read_trusty_seed], by the statuses of its
    two TPM requests. *)
Lemma tpm2_read_trusty_seed_unfold seed t :
  let r := tpm2_read_nvindex NV_INDEX_TRUSTYOS_SEED TRUSTY_SEED_SIZE seed 0 t in
  let l := tpm2_read_lock_nvindex NV_INDEX_TRUSTYOS_SEED r.2 in
  tpm2_read_trusty_seed seed t =
    if EFI_ERROR r.1.1 then (r.1.1, memset_s r.1.2 0 TRUSTY_SEED_SIZE, l.2)
    else if EFI_ERROR l.1 then (l.1, memset_s r.1.2 0 TRUSTY_SEED_SIZE, l.2)
    else (EFI_SUCCESS, r.1.2, l.2).
Proof.
  unfold tpm2_read_trusty_seed. simpl.
  destruct (tpm2_read_nvindex _ _ _ _ _) as [[ret seed'] t1]. simpl.
  by destruct (tpm2_read_lock_nvindex _ _) as [ret2 t2].
Qed.

(** When the index is read-locked, [tpm2_read_trusty_seed] fails. *)
Lemma tpm2_read_trusty_seed_locked seed t :
  nv_read_locked NV_INDEX_TRUSTYOS_SEED t = true ->
  EFI_ERROR (tpm2_read_trusty_seed seed t).1.1 = true.
Proof.
  intros Hl. rewrite tpm2_read_trusty_seed_unfold. cbv zeta.
  rewrite (tpm2_read_nvindex_locked _ _ _ _ _ Hl). simpl.
  by apply tpm2_read_nvindex_locked.
Qed.

(** *** C10 *)

(** C10. Whenever [tpm2_read_trusty_seed] returns an error, the caller's
    32-byte seed buffer holds only zeroes: each failure path (failed read,
    failed read lock, short read) goes through the [memset_s] at [out]. *)
Theorem tpm2_read_trusty_seed_failure_zeroises (seed : list Z) (t : tpm) :
  length seed = TRUSTY_SEED_SIZE ->
  EFI_ERROR (tpm2_read_trusty_seed seed t).1.1 = true ->
  (tpm2_read_trusty_seed seed t).1.2 = replicate TRUSTY_SEED_SIZE 0.
Proof.
  intros Hlen. rewrite tpm2_read_trusty_seed_unfold. cbv zeta.
  pose proof (tpm2_read_nvindex_length NV_INDEX_TRUSTYOS_SEED
                TRUSTY_SEED_SIZE seed 0 t ltac:(lia)) as Hl.
  rewrite Hlen in Hl.
  destruct (EFI_ERROR (tpm2_read_nvindex _ _ _ _ _).1.1); simpl.
  - intros _. by apply memset_s_all.
  - destruct (EFI_ERROR (tpm2_read_lock_nvindex _ _).1); simpl; [|done].
    intros _. by apply memset_s_all.
Qed.

(** The read lock fails once (second TPM command of the boot): the call
    reports the error and hands back a zeroed buffer. *)
Lemma tpm2_read_trusty_seed_failure_zeroises_witness :
  EFI_ERROR (tpm2_read_trusty_seed example_seed (example_tpm [false; true])).1.1
    = true
  /\ (tpm2_read_trusty_seed example_seed (example_tpm [false; true])).1.2
     = replicate TRUSTY_SEED_SIZE 0.
Proof.
  assert (EFI_ERROR (tpm2_read_trusty_seed example_seed
                       (example_tpm [false; true])).1.1 = true) as H
    by (vm_compute; reflexivity).
  split; [exact H|].
  apply (tpm2_read_trusty_seed_failure_zeroises example_seed
           (example_tpm [false; true])); [vm_compute; reflexivity | exact H].
Defined.

(** *** C2 *)

Lemma tpm2_read_trusty_seed_lock_state seed t :
  let r := tpm2_read_nvindex NV_INDEX_TRUSTYOS_SEED TRUSTY_SEED_SIZE seed 0 t in
  (tpm2_read_trusty_seed seed t).2
  = (tpm2_read_lock_nvindex NV_INDEX_TRUSTYOS_SEED r.2).2.
Proof.
  rewrite tpm2_read_trusty_seed_unfold. cbv zeta.
  by repeat case_match.
Qed.

Lemma tpm2_read_trusty_seed_success_locks seed t :
  (tpm2_read_trusty_seed seed t).1.1 = EFI_SUCCESS ->
  (tpm2_read_lock_nvindex NV_INDEX_TRUSTYOS_SEED
     (tpm2_read_nvindex NV_INDEX_TRUSTYOS_SEED TRUSTY_SEED_SIZE seed 0 t).2).1
  = EFI_SUCCESS.
Proof.
  rewrite tpm2_read_trusty_seed_unfold. cbv zeta.
  destruct (EFI_ERROR (tpm2_read_nvindex _ _ _ _ _).1.1) eqn:E1; simpl.
  - intros H. rewrite H in E1. done.
  - destruct (EFI_ERROR (tpm2_read_lock_nvindex _ _).1) eqn:E2; simpl.
    + intros H. rewrite H in E2. done.
    + intros _. by apply EFI_ERROR_false.
Qed.

Lemma trusty_seed_calls_locked calls t :
  Forall (fun call : list tpm_command * list Z =>
            forallb (keeps_index NV_INDEX_TRUSTYOS_SEED) call.1 = true) calls ->
  nv_read_locked NV_INDEX_TRUSTYOS_SEED t = true ->
  successes (trusty_seed_calls calls t) = 0%nat.
Proof.
  revert t. induction calls as [|[cs seed] calls IH]; intros t Hk Hl; [done|].
  apply Forall_cons in Hk as [Hcs Hk]. cbn [fst] in Hcs.
  cbn [trusty_seed_calls]. unfold successes in *.
  pose proof (tpm_run_read_locked cs _ _ Hcs Hl) as Hl'.
  rewrite filter_cons_False
    by (rewrite (tpm2_read_trusty_seed_locked seed _ Hl'); done).
  apply IH; [done|].
  rewrite tpm2_read_trusty_seed_lock_state. cbv zeta.
  apply (tpm_exec_read_locked (CmdNvReadLock NV_INDEX_TRUSTYOS_SEED));
    [done|].
  by rewrite (nv_read_locked_nv _ _ _ (tpm2_read_nvindex_nv _ _ _ _ _)).
Qed.

(** The seed index is readable again once it has been deleted and fused
    anew: on the example TPM a first call returns the seed and locks the
    index, [tpm2_fuse_provision_seed] stores the bytes 33..64 in a new,
    unlocked seed index, and a second call returns them. *)
Lemma tpm2_read_trusty_seed_after_provision :
  let first := tpm2_read_trusty_seed (replicate 32 0) (example_tpm []) in
  let fuse := tpm2_fuse_provision_seed true (map Z.of_nat (seq 33 32)) first.2 in
  let second := tpm2_read_trusty_seed (replicate 32 0) fuse.2 in
  first.1.1 = EFI_SUCCESS
  /\ nv_read_locked NV_INDEX_TRUSTYOS_SEED first.2 = true
  /\ fuse.1 = EFI_SUCCESS
  /\ second.1.1 = EFI_SUCCESS
  /\ second.1.2 = map Z.of_nat (seq 33 32)
  /\ (tpm_run [CmdNvUndefineSpace NV_INDEX_TRUSTYOS_SEED;
               CmdNvDefineSpace NV_INDEX_TRUSTYOS_SEED
                 (config_table NV_INDEX_TRUSTYOS_SEED) TRUSTY_SEED_SIZE;
               CmdNvWrite NV_INDEX_TRUSTYOS_SEED (map Z.of_nat (seq 33 32)) 0;
               CmdNvWriteLock NV_INDEX_TRUSTYOS_SEED;
               CmdNvRead NV_INDEX_TRUSTYOS_SEED TRUSTY_SEED_SIZE 0]
        first.2) = fuse.2.
Proof. vm_compute. done. Qed.

(** With a TPM whose second command fails (the read lock of the first
    call), the first call returns an error and the second call returns the
    seed. *)
Lemma tpm2_read_trusty_seed_second_call_succeeds :
  let first := tpm2_read_trusty_seed (replicate 32 0) (example_tpm [false; true]) in
  let second := tpm2_read_trusty_seed (replicate 32 0) first.2 in
  first.1.1 = EFI_DEVICE_ERROR
  /\ second.1.1 = EFI_SUCCESS
  /\ second.1.2 = example_seed.
Proof. vm_compute. done. Qed.

(** C2 (amended). Within one boot [tpm2_read_trusty_seed] succeeds at most
    once, whatever NV reads, writes, lock requests and index definitions run
    between the calls, as long as none of them deletes the seed index
    ([Tpm2NvUndefineSpace], which [tpm2_delete_index] and
    [tpm2_fuse_provision_seed] issue: a seed index that is fused anew is
    unlocked and can be read again).  A call issues the read lock of index
    0x01500080 whether or not its read succeeded; once that lock request has
    succeeded (as it has in every call that returns success), each later
    call of the boot returns an error.  When the lock request itself fails
    the call returns an error, and nothing is promised about later calls. *)
Theorem tpm2_read_trusty_seed_at_most_once (seed : list Z) (t : tpm) :
  let read := tpm2_read_nvindex NV_INDEX_TRUSTYOS_SEED TRUSTY_SEED_SIZE seed 0 t in
  let lock := tpm2_read_lock_nvindex NV_INDEX_TRUSTYOS_SEED read.2 in
  let r := tpm2_read_trusty_seed seed t in
  (forall calls,
     Forall (fun call : list tpm_command * list Z =>
               forallb (keeps_index NV_INDEX_TRUSTYOS_SEED) call.1 = true)
            calls ->
     (successes (trusty_seed_calls calls t) <= 1)%nat)
  /\ (r.1.1 = EFI_SUCCESS -> lock.1 = EFI_SUCCESS)
  /\ (lock.1 = EFI_SUCCESS ->
      forall cs seed',
        forallb (keeps_index NV_INDEX_TRUSTYOS_SEED) cs = true ->
        EFI_ERROR (tpm2_read_trusty_seed seed' (tpm_run cs r.2)).1.1 = true).
Proof.
  cbv zeta. split; [|split].
  - intros calls. clear seed. revert t.
    induction calls as [|[cs seed] calls IH]; intros t Hk;
      [unfold successes; simpl; lia|].
    apply Forall_cons in Hk as [Hcs Hk].
    cbn [trusty_seed_calls].
    destruct (EFI_ERROR (tpm2_read_trusty_seed seed (tpm_run cs t)).1.1) eqn:E.
    + unfold successes in *. rewrite filter_cons_False by (rewrite E; done).
      by apply IH.
    + unfold successes in *. rewrite filter_cons_True by done.
      cbn [length].
      apply EFI_ERROR_false, tpm2_read_trusty_seed_success_locks in E.
      apply Tpm2NvReadLock_success in E.
      rewrite <- tpm2_read_trusty_seed_lock_state in E.
      pose proof (trusty_seed_calls_locked calls _ Hk E) as H0.
      unfold successes in H0. rewrite H0. lia.
  - apply tpm2_read_trusty_seed_success_locks.
  - intros Hlock cs seed' Hk.
    apply tpm2_read_trusty_seed_locked, tpm_run_read_locked; [done|].
    rewrite tpm2_read_trusty_seed_lock_state. cbv zeta.
    by apply Tpm2NvReadLock_success.
Qed.

(** On a sound TPM the first call returns the seed and locks the index;
    a second call, after a write to the bootloader index and an attempt to
    define the seed index again, fails. *)
Lemma tpm2_read_trusty_seed_at_most_once_witness :
  (tpm2_read_trusty_seed (replicate 32 0) (example_tpm [])).1.1 = EFI_SUCCESS
  /\ EFI_ERROR
       (tpm2_read_trusty_seed (replicate 32 0)
          (tpm_run [CmdNvWrite NV_INDEX_BOOTLOADER [1] 1;
                    CmdNvDefineSpace NV_INDEX_TRUSTYOS_SEED
                      (config_table NV_INDEX_TRUSTYOS_SEED) TRUSTY_SEED_SIZE]
             (tpm2_read_trusty_seed (replicate 32 0) (example_tpm [])).2)).1.1
     = true.
Proof.
  assert ((tpm2_read_trusty_seed (replicate 32 0) (example_tpm [])).1.1
          = EFI_SUCCESS) as H by (vm_compute; reflexivity).
  split; [exact H|].
  destruct (tpm2_read_trusty_seed_at_most_once (replicate 32 0) (example_tpm []))
    as (_ & Hsucc & Hlater).
  apply Hlater; [apply Hsucc, H | reflexivity].
Defined.

(** ** Rollback indices *)

#[local] Arguments bytes_of_uint : simpl never.
#[local] Arguments uint_of_bytes : simpl never.

Lemma buf_write_full dst src :
  length src = length dst -> buf_write dst 0 src = src.
Proof.
  intros H. unfold buf_write. simpl.
  by rewrite drop_ge, app_nil_r by lia.
Qed.

(** A write that succeeds stores the data in the index; one that fails
    leaves the NV contents as they were. *)
Lemma Tpm2NvWrite_spec nv_index d o t :
  ((Tpm2NvWrite nv_index d o t).1 = EFI_SUCCESS ->
   exists s s', tpm_nv t !! nv_index = Some s
     /\ tpm_nv (Tpm2NvWrite nv_index d o t).2 !! nv_index = Some s'
     /\ (o + length d <= length (nv_data s))%nat
     /\ nv_data s' = buf_write (nv_data s) o d)
  /\ ((Tpm2NvWrite nv_index d o t).1 <> EFI_SUCCESS ->
      tpm_nv (Tpm2NvWrite nv_index d o t).2 = tpm_nv t).
Proof.
  unfold Tpm2NvWrite.
  pose proof (tpm_next_fault_nv t) as Hnv.
  destruct (tpm_next_fault t) as [[] t0]; simpl in Hnv; [by split|].
  rewrite Hnv.
  destruct (tpm_nv t !! nv_index) as [s|] eqn:Hs; [|by split].
  destruct (TPMA_NV_WRITELOCKED s); [by split|].
  destruct (Nat.ltb_spec (length (nv_data s)) (o + length d)); [by split|].
  destruct (_ && _); [by split|].
  split; [|done]. intros _. eexists s, _. simpl.
  rewrite lookup_insert_eq. by repeat split.
Qed.

(** The status of a write depends on the length of the data only, and so
    does the state a failed write leaves. *)
Lemma Tpm2NvWrite_status nv_index d1 d2 o t :
  length d1 = length d2 ->
  (Tpm2NvWrite nv_index d1 o t).1 = (Tpm2NvWrite nv_index d2 o t).1
  /\ ((Tpm2NvWrite nv_index d1 o t).1 <> EFI_SUCCESS ->
      (Tpm2NvWrite nv_index d1 o t).2 = (Tpm2NvWrite nv_index d2 o t).2).
Proof.
  intros Hlen. unfold Tpm2NvWrite. rewrite Hlen.
  destruct (tpm_next_fault t) as [[] t0]; [by split|].
  destruct (tpm_nv t0 !! nv_index) as [s|]; [|by split].
  by repeat (case_match; [by split|]).
Qed.

Lemma tpm2_write_nvindex_loop_spec r nv_index d o t :
  ((tpm2_write_nvindex_loop r nv_index d o t).1 = EFI_SUCCESS ->
   exists s s', tpm_nv t !! nv_index = Some s
     /\ tpm_nv (tpm2_write_nvindex_loop r nv_index d o t).2 !! nv_index = Some s'
     /\ (o + length d <= length (nv_data s))%nat
     /\ nv_data s' = buf_write (nv_data s) o d)
  /\ ((tpm2_write_nvindex_loop r nv_index d o t).1 <> EFI_SUCCESS ->
      tpm_nv (tpm2_write_nvindex_loop r nv_index d o t).2 = tpm_nv t).
Proof.
  revert t. induction r as [|r IH]; intros t; cbn [tpm2_write_nvindex_loop];
    pose proof (Tpm2NvWrite_spec nv_index d o t) as H;
    destruct (Tpm2NvWrite nv_index d o t) as [ret t'] eqn:E; [done|].
  destruct r as [|r']; [done|].
  destruct (decide (ret = EFI_DEVICE_ERROR)) as [->|Hne]; [|done].
  simpl in H. destruct H as [_ Hnv]. specialize (Hnv ltac:(done)).
  specialize (IH t'). rewrite Hnv in IH. exact IH.
Qed.

Lemma tpm2_write_nvindex_loop_status r nv_index d1 d2 o t :
  length d1 = length d2 ->
  (tpm2_write_nvindex_loop r nv_index d1 o t).1
  = (tpm2_write_nvindex_loop r nv_index d2 o t).1.
Proof.
  intros Hlen. revert t.
  induction r as [|r IH]; intros t; cbn [tpm2_write_nvindex_loop];
    pose proof (Tpm2NvWrite_status nv_index d1 d2 o t Hlen) as [Hs Ht];
    destruct (Tpm2NvWrite nv_index d1 o t) as [ret1 t1];
    destruct (Tpm2NvWrite nv_index d2 o t) as [ret2 t2];
    simpl in Hs, Ht; subst ret2; [done|].
  destruct r as [|r']; [done|].
  destruct (decide (ret1 = EFI_DEVICE_ERROR)) as [->|Hne]; [|done].
  rewrite <- (Ht ltac:(done)). apply IH.
Qed.

(** On the TPM backing a write that reports success is read back. *)
Lemma rollback_index_tpm2_write_read slot v t out :
  0 <= v < 2 ^ 64 ->
  (write_rollback_index_tpm2 slot v t).1 = EFI_SUCCESS ->
  let r := read_rollback_index_tpm2 slot out (write_rollback_index_tpm2 slot v t).2 in
  r.1.1 = EFI_SUCCESS -> r.1.2 = v.
Proof.
  intros Hv. unfold write_rollback_index_tpm2, read_rollback_index_tpm2.
  destruct (rollback_index_slots <=? slot); [done|].
  unfold tpm2_write_nvindex.
  rewrite firstn_all2 by (rewrite bytes_of_uint_length; lia).
  set (off := Z.to_nat _).
  intros Hw.
  apply tpm2_write_nvindex_loop_spec in Hw as (s & s' & Hs & Hs' & Hlen & Hdata).
  rewrite bytes_of_uint_length in Hlen.
  set (t' := (tpm2_write_nvindex_loop _ _ _ _ _).2) in *.
  cbv zeta.
  pose proof (tpm2_read_nvindex_success NV_INDEX_BOOTLOADER 8
                (bytes_of_uint 8 out) off t') as Hr.
  destruct (tpm2_read_nvindex _ _ _ _ _) as [[ret data] t''].
  simpl in Hr. destruct ret; try done. simpl. intros _.
  destruct Hr as (s'' & Hs'' & _ & ->); [done|].
  rewrite Hs' in Hs''. injection Hs'' as <-.
  rewrite Hdata.
  replace (take 8) with (take (A:=Z) (length (bytes_of_uint 8 v)))
    by (by rewrite bytes_of_uint_length).
  rewrite buf_write_read by (rewrite bytes_of_uint_length; lia).
  rewrite buf_write_full by (by rewrite !bytes_of_uint_length).
  by apply uint_of_bytes_of_uint.
Qed.

(** On the variable backing a write that reports success is read back. *)
Lemma rollback_index_efi_write_read slot v vs out :
  0 <= v < 2 ^ 64 ->
  (write_efi_rollback_index slot v vs).1 = EFI_SUCCESS ->
  let r := read_efi_rollback_index slot out (write_efi_rollback_index slot v vs).2 in
  r.1.1 = EFI_SUCCESS -> r.1.2 = v.
Proof.
  intros Hv. unfold write_efi_rollback_index, read_efi_rollback_index,
    set_efi_variable, get_efi_variable.
  destruct (var_next_fault vs) as [[] vs0]; [done|]. simpl. intros _.
  unfold var_next_fault. simpl.
  destruct (var_faults vs0) as [|[] fs]; simpl; try done;
    rewrite lookup_insert_eq; simpl; intros _;
    by apply uint_of_bytes_of_uint.
Qed.

(** *** C1 *)




(** ** The boot policy checks *)

(** *** C5 *)

(** Battery-inserted wake with off-mode charging disabled: the check
    answers [NORMAL_BOOT]. *)
Lemma check_battery_inserted_off_mode_charge_disabled :
  rsci_get_wake_source example_platform = WAKE_BATTERY_INSERTED
  /\ (get_off_mode_charge (boot_state vars_off_mode_charge_disabled)).1 = false
  /\ (check_battery_inserted example_platform
        (boot_state vars_off_mode_charge_disabled)).1 = NORMAL_BOOT.
Proof. vm_compute. done. Qed.

(** C5 (amended). [check_battery_inserted] returns [POWER_OFF] exactly when
    off-mode charging is enabled and the wake source is battery-inserted;
    with off-mode charging disabled it returns [NORMAL_BOOT] whatever the
    wake source. *)
Theorem check_battery_inserted_policy (p : platform) (s : state) :
  ((check_battery_inserted p s).1 = POWER_OFF <->
   (get_off_mode_charge s).1 = true
   /\ rsci_get_wake_source p = WAKE_BATTERY_INSERTED)
  /\ ((get_off_mode_charge s).1 = false ->
      (check_battery_inserted p s).1 = NORMAL_BOOT)
  /\ ((check_battery_inserted p s).1 = POWER_OFF
      \/ (check_battery_inserted p s).1 = NORMAL_BOOT).
Proof.
  unfold check_battery_inserted.
  destruct (get_off_mode_charge s) as [[] s']; simpl.
  - case_bool_decide; simpl; repeat split; try done; auto.
    + by intros [_ ?].
  - repeat split; try done; auto. by intros [? _].
Qed.

(** The check powers the example platform off once off-mode charging is
    enabled (no variable: the default). *)
Lemma check_battery_inserted_policy_witness :
  (check_battery_inserted example_platform (boot_state ∅)).1 = POWER_OFF.
Proof.
  apply (check_battery_inserted_policy example_platform (boot_state ∅)).
  split; vm_compute; reflexivity.
Defined.

(** *** C6 *)

(** [read_stored_state] leaves the statics of [vars.c] alone. *)
Lemma read_stored_state_statics p st s :
  provisioning_mode (read_stored_state p st s).2 = provisioning_mode s
  /\ current_state (read_stored_state p st s).2 = current_state s.
Proof.
  unfold read_stored_state.
  destruct (tee_tpm p).
  - by destruct (tee_read_device_state_tpm2 p).
  - destruct (andr_tpm p).
    + by destruct (read_device_state_tpm2 st (st_tpm s)) as [[? ?] ?].
    + by destruct (read_device_state_efi st (st_vars s)) as [[? ?] ?].
Qed.

(** Userdebug build, no [OEMLock] variable on a device that is not virtual,
    and a life cycle that cannot be read ([EFI_DEVICE_ERROR]): the read of
    the lock state has failed, the device is not in provisioning mode, and
    the state is [LOCKED], not the [UNLOCKED] of a userdebug build. *)
Lemma get_current_state_absent_record_locked :
  let p := example_platform_life_cycle_error in
  let s := boot_state vars_none in
  let r := get_current_state userdebug_build p s in
  (read_stored_state p 0 s).1.1 = EFI_NOT_FOUND
  /\ is_boot_device_virtual p = false
  /\ life_cycle_is_enduser p = (EFI_DEVICE_ERROR, false)
  /\ USER userdebug_build = false
  /\ provisioning_mode r.2 = false
  /\ r.1 = LOCKED.
Proof. vm_compute. done. Qed.

(** C6 (amended). When the read of the stored lock state fails with anything
    but [EFI_NOT_FOUND], or with [EFI_NOT_FOUND] on a virtual boot device,
    [get_current_state] returns [LOCKED] on a user build and [UNLOCKED] on a
    userdebug build, caches that answer and leaves the provisioning flag
    alone.  When it fails with [EFI_NOT_FOUND] on a boot device that is not
    virtual (the record is absent) the build does not decide: the state is
    [UNLOCKED], in provisioning mode, when the life cycle is not supported
    ([EFI_NOT_FOUND]), or is read as not end-user, or as end-user on a
    userdebug build; in every other case (the life cycle fails with another
    error, or reads end-user on a user build) it is [LOCKED], not in
    provisioning mode, on a userdebug build too. *)
Theorem get_current_state_read_failure (cfg : build_config) (p : platform)
    (s : state) :
  current_state s = UNKNOWN_STATE ->
  is_live_boot p = false ->
  EFI_ERROR (read_stored_state p 0 s).1.1 = true ->
  let ret := (read_stored_state p 0 s).1.1 in
  let lc := life_cycle_is_enduser p in
  let provisioning :=
    bool_decide (lc.1 = EFI_NOT_FOUND)
    || (negb (EFI_ERROR lc.1) && (negb lc.2 || negb (USER cfg))) in
  let r := get_current_state cfg p s in
  (~ (ret = EFI_NOT_FOUND /\ is_boot_device_virtual p = false) ->
   r.1 = (if USER cfg then LOCKED else UNLOCKED)
   /\ current_state r.2 = (if USER cfg then LOCKED else UNLOCKED)
   /\ provisioning_mode r.2 = provisioning_mode s)
  /\ (ret = EFI_NOT_FOUND -> is_boot_device_virtual p = false ->
      r.1 = (if provisioning then UNLOCKED else LOCKED)
      /\ current_state r.2 = r.1
      /\ provisioning_mode r.2 = provisioning).
Proof.
  intros Hunk Hlive Herr. cbv zeta. unfold get_current_state.
  rewrite Hunk, Hlive.
  destruct (read_stored_state_statics p 0 s) as [Hpm Hcs].
  destruct (read_stored_state p 0 s) as [[ret stored_state] s']. simpl in *.
  split.
  - intros Hnp.
    destruct (bool_decide (ret = EFI_NOT_FOUND)
              && negb (is_boot_device_virtual p)) eqn:E.
    + exfalso. apply Hnp. apply andb_true_iff in E as [E1 E2].
      apply bool_decide_eq_true in E1. apply negb_true_iff in E2. done.
    + rewrite Herr. by destruct (USER cfg).
  - intros -> ->. cbn [negb andb].
    rewrite bool_decide_eq_true_2 by done.
    destruct (life_cycle_is_enduser p) as [lret enduser]. cbn [fst snd].
    destruct (EFI_ERROR lret) eqn:El; cbn [negb andb orb].
    + rewrite orb_false_r. by case_bool_decide.
    + assert (bool_decide (lret = EFI_NOT_FOUND) = false) as ->
        by (apply bool_decide_eq_false; intros ->; done).
      cbn [orb]. destruct enduser; cbn [negb orb]; [|done].
      by destruct (USER cfg).
Qed.

(** [OEMLock] is readable at run time, so the read fails with
    [EFI_SECURITY_VIOLATION]: locked on the user build, unlocked on the
    userdebug build.  With no [OEMLock] at all and a life cycle that cannot
    be read: locked on the userdebug build. *)
Lemma get_current_state_read_failure_witness :
  (get_current_state user_build example_platform
     (boot_state vars_oem_lock_runtime)).1 = LOCKED
  /\ (get_current_state userdebug_build example_platform
        (boot_state vars_oem_lock_runtime)).1 = UNLOCKED
  /\ (get_current_state userdebug_build example_platform_life_cycle_error
        (boot_state vars_none)).1 = LOCKED.
Proof.
  split; [|split].
  - pose proof (get_current_state_read_failure user_build example_platform
                  (boot_state vars_oem_lock_runtime) eq_refl eq_refl
                  ltac:(vm_compute; reflexivity)) as H.
    cbv zeta in H. destruct H as [H _]. apply H.
    vm_compute. intros [H' _]. discriminate H'.
  - pose proof (get_current_state_read_failure userdebug_build example_platform
                  (boot_state vars_oem_lock_runtime) eq_refl eq_refl
                  ltac:(vm_compute; reflexivity)) as H.
    cbv zeta in H. destruct H as [H _]. apply H.
    vm_compute. intros [H' _]. discriminate H'.
  - pose proof (get_current_state_read_failure userdebug_build
                  example_platform_life_cycle_error
                  (boot_state vars_none)
                  eq_refl eq_refl ltac:(vm_compute; reflexivity)) as H.
    cbv zeta in H. destruct H as [_ H].
    destruct H as [H _]; [vm_compute; reflexivity | reflexivity |].
    exact H.
Defined.

(** ** The bootloader control block *)

Lemma strlena_bound (a : list Z) (i : nat) :
  a !! i = Some 0 -> exists n, strlena a = Some n /\ (n <= i)%nat.
Proof.
  revert i. induction a as [|c a IH]; intros i Hi; [done|].
  cbn [strlena]. destruct (Z.eqb_spec c 0) as [->|Hc].
  - exists O. split; [done | lia].
  - destruct i as [|i]; [simpl in Hi; congruence|].
    destruct (IH i Hi) as (n & -> & Hn). exists (S n). split; [done | lia].
Qed.

Lemma buf_write_0 dst src :
  buf_write dst 0 src = src ++ drop (length src) dst.
Proof. reflexivity. Qed.

Lemma ReadDisk_success offset n buffer dk :
  (ReadDisk offset n buffer dk).1.1 = EFI_SUCCESS ->
  (ReadDisk offset n buffer dk).1.2
  = buf_write buffer 0 (take n (drop (Z.to_nat offset) (disk_bytes dk)))
  /\ length (take n (drop (Z.to_nat offset) (disk_bytes dk))) = n.
Proof.
  unfold ReadDisk.
  destruct (disk_read_faults dk) as [|[] fs]; simpl; try done.
  - destruct (Z.ltb_spec offset 0); simpl; [done|].
    destruct (Z.ltb_spec (Z.of_nat (length (disk_bytes dk))) (offset + Z.of_nat n));
      simpl; [done|].
    intros _. split; [done|]. rewrite length_take, length_drop. lia.
  - destruct (Z.ltb_spec offset 0); simpl; [done|].
    destruct (Z.ltb_spec (Z.of_nat (length (disk_bytes dk))) (offset + Z.of_nat n));
      simpl; [done|].
    intros _. split; [done|]. rewrite length_take, length_drop. lia.
Qed.

(** *** C9 *)

(** C9. Whatever the misc partition holds, the [command] and [status] fields
    of a message that [read_bcb] returns with success are 32 bytes whose last
    one is NUL, hence C strings of at most 31 characters; the 31 bytes before
    it are those of the disk. *)
Theorem read_bcb_nul_terminated (vm_offset : Z) (label : string)
    (bcb : bootloader_message) (dk : disk) :
  (read_bcb vm_offset label bcb dk).1.1 = EFI_SUCCESS ->
  let b := (read_bcb vm_offset label bcb dk).1.2 in
  exists part stored,
    gpt_get_partition_by_label label dk = (EFI_SUCCESS, Some part)
    /\ stored = drop (Z.to_nat (wrap64 (vm_offset
                        + wrap64 (starting_lba part * BlockSize dk))))
                     (disk_bytes dk)
    /\ command b = <[31%nat := 0]> (take 32 stored)
    /\ status b = <[31%nat := 0]> (take 32 (drop 32 stored))
    /\ length (command b) = 32%nat /\ command b !! 31%nat = Some 0
    /\ length (status b) = 32%nat /\ status b !! 31%nat = Some 0
    /\ (exists n, strlena (command b) = Some n /\ (n <= 31)%nat)
    /\ (exists n, strlena (status b) = Some n /\ (n <= 31)%nat).
Proof.
  unfold read_bcb.
  destruct (gpt_get_partition_by_label label dk) as [ret0 [part|]] eqn:Hp;
    [|done].
  set (off := wrap64 (vm_offset + _)).
  pose proof (ReadDisk_success off sizeof_bootloader_message (bcb_bytes bcb) dk)
    as Hr.
  destruct (ReadDisk off _ _ dk) as [[ret bytes] dk'] eqn:Hrd. simpl in Hr.
  destruct ret; try done. simpl. intros _.
  destruct Hr as [-> Hlen]; [done|].
  set (stored := drop (Z.to_nat off) (disk_bytes dk)) in *.
  assert (length stored >= 832)%nat as Hst.
  { rewrite length_take in Hlen. unfold sizeof_bootloader_message,
      sizeof_command, sizeof_status, sizeof_recovery in Hlen. lia. }
  assert (gpt_get_partition_by_label label dk = (EFI_SUCCESS, Some part)) as Hp'.
  { revert Hp. unfold gpt_get_partition_by_label.
    repeat case_match; congruence. }
  assert (length (take sizeof_bootloader_message stored) >= 64)%nat as Hlen'
    by (rewrite Hlen; unfold sizeof_bootloader_message, sizeof_command,
          sizeof_status, sizeof_recovery; lia).
  assert (take 32 (buf_write (bcb_bytes bcb) 0
                     (take sizeof_bootloader_message stored)) = take 32 stored)
    as Hc.
  { rewrite buf_write_0, take_app_le by lia.
    rewrite take_take. f_equal. }
  assert (take 32 (drop 32 (buf_write (bcb_bytes bcb) 0
                              (take sizeof_bootloader_message stored)))
          = take 32 (drop 32 stored)) as Hs.
  { rewrite buf_write_0, drop_app_le by lia.
    rewrite take_app_le by (rewrite length_drop; lia).
    rewrite skipn_firstn_comm, take_take. f_equal. }
  exists part, stored. unfold array_set, bcb_of_bytes, sizeof_command,
    sizeof_status. cbn [command status].
  rewrite Hc, Hs.
  assert (length (take 32 stored) = 32%nat) as L1
    by (rewrite length_take; lia).
  assert (length (take 32 (drop 32 stored)) = 32%nat) as L2
    by (rewrite length_take, length_drop; lia).
  assert (forall a : list Z, length a = 32%nat ->
            <[31%nat := 0]> a !! 31%nat = Some 0) as Hz
    by (intros a La; apply list_lookup_insert_eq; lia).
  repeat split; try done.
  - congruence.
  - by rewrite length_insert.
  - by apply Hz.
  - by rewrite length_insert.
  - by apply Hz.
  - apply strlena_bound. by apply Hz.
  - apply strlena_bound. by apply Hz.
Qed.

(** The stored BCB has no NUL at all; the message read has one at index 31
    of both fields. *)
Lemma read_bcb_nul_terminated_witness :
  strlena (command (read_bcb 0 "misc" empty_bcb example_disk).1.2) = Some 31%nat
  /\ strlena (status (read_bcb 0 "misc" empty_bcb example_disk).1.2) = Some 31%nat
  /\ command (read_bcb 0 "misc" empty_bcb example_disk).1.2 !! 31%nat = Some 0.
Proof.
  destruct (read_bcb_nul_terminated 0 "misc" empty_bcb example_disk
              ltac:(vm_compute; reflexivity))
    as (part & stored & _ & _ & _ & _ & _ & Hc & _).
  split; [vm_compute; reflexivity | split; [vm_compute; reflexivity | exact Hc]].
Defined.

(** ** The magic key *)

Lemma strtoul10_range acc data n :
  0 <= acc -> strtoul10 acc data = Some n -> 0 <= n <= ULONG_MAX.
Proof.
  revert acc. induction data as [|d data IH]; intros acc Hacc; simpl.
  - intros [= <-]. unfold ULONG_MAX. lia.
  - destruct (Z.leb_spec 48 d); simpl; [|done].
    destruct (Z.leb_spec d 57); simpl; [|done].
    apply IH. lia.
Qed.

Lemma get_efi_variable_long_from_str8_range guid name i vs :
  (get_efi_variable_long_from_str8 guid name i vs).1.1 = EFI_SUCCESS ->
  0 <= (get_efi_variable_long_from_str8 guid name i vs).1.2 <= ULONG_MAX.
Proof.
  unfold get_efi_variable_long_from_str8.
  destruct (get_efi_variable guid name vs) as [[ret [v|]] vs'] eqn:E; simpl.
  - destruct (reverse (var_data v)) as [|z [|d ds]]; simpl; try done;
      destruct z; simpl; try done.
    destruct (strtoul10 0 (reverse (d :: ds))) as [n|] eqn:Hn; simpl; [|done].
    intros _. by apply (strtoul10_range 0 (reverse (d :: ds)) n).
  - unfold get_efi_variable in E.
    destruct (var_next_fault vs) as [[] ?]; [by injection E as <- |].
    destruct (vars _ !! _); [done | by injection E as <-].
Qed.

(** The polling loop returns the first successful key read among the first
    [remaining + 1] console answers, stalls 1 ms between two reads, and
    fails when there is none. *)
Lemma check_magic_key_loop_spec remaining i key c :
  let r := check_magic_key_loop remaining i key c in
  match List.find key_sensed (take (S remaining) (con_keys c)) with
  | Some (_, k) => r.1.1.1 = EFI_SUCCESS /\ r.1.1.2 = k
  | None => EFI_ERROR r.1.1.1 = true
  end
  /\ 0 <= con_stalled_us r.2 - con_stalled_us c <= Z.of_nat remaining * 1000
  /\ con_key_held r.2 = con_key_held c.
Proof.
  revert i key c. induction remaining as [|n IH]; intros i key c.
  - cbn [check_magic_key_loop]. unfold ReadKeyStroke.
    destruct (con_keys c) as [|[ret k] ks]; simpl;
      [split; [done | split; [lia | done]]|].
    unfold key_sensed. simpl.
    destruct ret; simpl; (split; [done | split; [lia | done]]).
  - cbn [check_magic_key_loop]. unfold ReadKeyStroke.
    destruct (con_keys c) as [|[ret k] ks] eqn:Hk.
    + rewrite bool_decide_eq_false_2 by done.
      specialize (IH (i + DETECT_KEY_STALL_TIME_MS) key
                    (Stall (DETECT_KEY_STALL_TIME_MS * 1000) c)).
      cbv zeta in IH. simpl con_keys in IH. rewrite Hk in IH.
      rewrite take_nil in IH. rewrite take_nil.
      destruct IH as (H1 & H2 & H3). simpl in H1, H2, H3.
      split; [done | split; [|done]].
      unfold DETECT_KEY_STALL_TIME_MS in *; lia.
    + destruct (decide (ret = EFI_SUCCESS)) as [->|Hne].
      * simpl. unfold key_sensed. simpl. split; [done | split; [lia | done]].
      * rewrite bool_decide_eq_false_2 by done.
        set (c1 := Stall _ _).
        specialize (IH (i + DETECT_KEY_STALL_TIME_MS)
                      (if EFI_ERROR ret then key else k) c1).
        cbv zeta in IH. subst c1. simpl con_keys in IH.
        cbn [take List.find]. unfold key_sensed at 1. simpl.
        rewrite bool_decide_eq_false_2 by done.
        destruct IH as (H1 & H2 & H3). simpl in H2, H3.
        split; [done | split; [|done]].
        unfold DETECT_KEY_STALL_TIME_MS in *; lia.
Qed.

Example magic_key_wait_ms_default :
  (magic_key_wait_ms (mk_varstore ∅ [])).1 = 200.
Proof. vm_compute. reflexivity. Qed.

Example magic_key_wait_ms_700 :
  (magic_key_wait_ms (mk_varstore (vars_magic_key_timeout "700") [])).1 = 700.
Proof. vm_compute. reflexivity. Qed.

Example magic_key_wait_ms_5000 :
  (magic_key_wait_ms (mk_varstore (vars_magic_key_timeout "5000") [])).1 = 200.
Proof. vm_compute. reflexivity. Qed.

Example check_magic_key_held :
  let r := check_magic_key (mk_varstore ∅ []) example_console in
  r.1.1 = FASTBOOT /\ con_stalled_us r.2 = 3000.
Proof. vm_compute. done. Qed.

(** *** C8 *)


(** ** The E820 table *)

Example setup_e820_map_example :
  setup_e820_map 128 example_memory_map
  = Some ([mk_e820 0x100000 0x200000 E820_RAM;
           mk_e820 0x300000 0x4000 E820_ACPI;
           mk_e820 0x304000 0x4000 E820_RESERVED], 3).
Proof. vm_compute. reflexivity. Qed.

Lemma wrap64_add_l a b : wrap64 (wrap64 a + b) = wrap64 (a + b).
Proof. unfold wrap64. by rewrite Zplus_mod_idemp_l. Qed.

Lemma wrap64_add_r a b : wrap64 (a + wrap64 b) = wrap64 (a + b).
Proof. unfold wrap64. by rewrite Zplus_mod_idemp_r. Qed.

Lemma e820_type_of_range ty t :
  e820_type_of ty = Some t -> 0 <= ty <= 13 /\ 1 <= t <= 5.
Proof.
  unfold e820_type_of.
  destruct ty as [|q|q]; [intros [= <-]; done | | done].
  do 4 (try destruct q as [q|q|]; try done);
    intros [= <-]; done.
Qed.

Lemma unmergeable_chain_snoc l b :
  unmergeable_chain l ->
  (forall a, last l = Some a -> ~ mergeable a b) ->
  unmergeable_chain (l ++ [b]).
Proof.
  induction 1 as [|a|a a' l Hm Hc IH]; intros Hlast; simpl.
  - constructor.
  - constructor; [by apply Hlast | constructor].
  - constructor; [done|]. apply IH. intros x Hx. apply Hlast.
    by rewrite last_cons_cons.
Qed.

Lemma unmergeable_chain_update_last l a a' :
  unmergeable_chain (l ++ [a]) ->
  type a' = type a -> addr a' = addr a ->
  unmergeable_chain (l ++ [a']).
Proof.
  intros Hc Ht Ha. remember (l ++ [a]) as la eqn:E.
  revert l E. induction Hc as [|x|x y m Hm Hc IH]; intros l E.
  - by destruct l.
  - destruct l as [|? [|? ?]]; simplify_eq/=. constructor.
  - destruct l as [|x' [|y' l']]; simplify_eq/=.
    + constructor; [|constructor].
      unfold mergeable in *. rewrite Ht, Ha. done.
    + specialize (IH (y' :: l') eq_refl). simpl in IH.
      constructor; [done | exact IH].
Qed.

Lemma unmergeable_chain_lookup l :
  unmergeable_chain l ->
  forall (i : nat) a b, l !! i = Some a -> l !! S i = Some b -> ~ mergeable a b.
Proof.
  induction 1 as [|x|x y m Hm Hc IH]; intros i a b Ha Hb.
  - done.
  - by destruct i.
  - destruct i as [|i]; simpl in Ha, Hb.
    + by simplify_eq.
    + by apply (IH i a b).
Qed.

Lemma efi_total_snoc ds d :
  efi_total (ds ++ [d])
  = efi_total ds
    + (if e820_recognised d
       then wrap64 (Z.shiftl (NumberOfPages d) EFI_PAGE_SHIFT) else 0).
Proof.
  unfold efi_total. induction ds as [|x ds IH]; simpl; [lia|].
  rewrite IH. lia.
Qed.

Lemma e820_total_reverse l : e820_total (reverse l) = e820_total l.
Proof.
  unfold e820_total. induction l as [|x l IH]; [done|].
  rewrite reverse_cons, foldr_app. simpl. rewrite <- IH.
  generalize (reverse l). intros m. induction m as [|y m IHm]; simpl; lia.
Qed.

Lemma setup_e820_map_step_invariant E820MAX acc d acc' consumed :
  setup_e820_map_step E820MAX acc d = Some acc' ->
  e820_invariant acc consumed ->
  e820_invariant acc' (consumed ++ [d]).
Proof.
  unfold setup_e820_map_step, e820_invariant.
  intros Hstep (Hchain & Hprov & Hsum).
  rewrite efi_total_snoc. unfold e820_recognised.
  assert (Hold : forall e, e ∈ acc ->
            exists d0, d0 ∈ consumed ++ [d]
                       /\ e820_type_of (Type_ d0) = Some (type e)
                       /\ addr e = PhysicalStart d0).
  { intros e He. destruct (Hprov e He) as (d0 & Hd0 & ?).
    exists d0. split; [apply elem_of_app; by left | done]. }
  assert (Hd : d ∈ consumed ++ [d])
    by (apply elem_of_app; right; by apply list_elem_of_singleton).
  destruct (e820_type_of (Type_ d)) as [cur_type|] eqn:Hty.
  2:{ injection Hstep as <-. split; [done|]. split; [done|].
      by rewrite Z.add_0_r. }
  set (sz := wrap64 (Z.shiftl (NumberOfPages d) EFI_PAGE_SHIFT)) in *.
  assert (Hfresh :
    (forall prev, head acc = Some prev ->
       (type prev =? cur_type) && (wrap64 (addr prev + size prev) =? PhysicalStart d)
       = false) ->
    unmergeable_chain (reverse (mk_e820 (PhysicalStart d) sz cur_type :: acc))
    /\ (forall e, e ∈ mk_e820 (PhysicalStart d) sz cur_type :: acc ->
          exists d0, d0 ∈ consumed ++ [d]
                     /\ e820_type_of (Type_ d0) = Some (type e)
                     /\ addr e = PhysicalStart d0)
    /\ wrap64 (e820_total (mk_e820 (PhysicalStart d) sz cur_type :: acc))
       = wrap64 (efi_total consumed + sz)).
  { intros Hhd. rewrite reverse_cons. split; [|split].
    - apply unmergeable_chain_snoc; [done|].
      intros a Ha. rewrite last_reverse in Ha.
      specialize (Hhd a Ha). unfold mergeable. simpl. intros [Ht Ha'].
      rewrite Ht, Ha', !Z.eqb_refl in Hhd. done.
    - intros e [->|He]%elem_of_cons; [by exists d | by apply Hold].
    - unfold e820_total in *. simpl.
      rewrite <- wrap64_add_r, Hsum, wrap64_add_r. f_equal. lia. }
  destruct acc as [|prev older].
  - destruct (length [] <? E820MAX)%nat eqn:Hcap; [|done].
    injection Hstep as <-. apply Hfresh. by intros prev.
  - destruct ((type prev =? cur_type)
              && (wrap64 (addr prev + size prev) =? PhysicalStart d)) eqn:Hm.
    + injection Hstep as <-.
      apply andb_true_iff in Hm as [Ht%Z.eqb_eq Ha%Z.eqb_eq].
      split; [|split].
      * rewrite reverse_cons in *.
        by apply (unmergeable_chain_update_last _ prev).
      * intros e [->|He]%elem_of_cons.
        -- apply (Hold prev). apply elem_of_cons. by left.
        -- apply Hold. apply elem_of_cons. by right.
      * unfold e820_total in *. simpl in *.
        rewrite wrap64_add_l.
        replace (size prev + sz + foldr (fun e acc => size e + acc) 0 older)
          with (size prev + foldr (fun e acc => size e + acc) 0 older + sz)
          by lia.
        rewrite <- wrap64_add_l, Hsum, wrap64_add_l. done.
    + destruct (length (prev :: older) <? E820MAX)%nat eqn:Hcap; [|done].
      injection Hstep as <-. apply Hfresh.
      intros a [= <-]. exact Hm.
Qed.

Lemma setup_e820_map_loop_invariant E820MAX mem_entries acc acc' consumed :
  setup_e820_map_loop E820MAX acc mem_entries = Some acc' ->
  e820_invariant acc consumed ->
  e820_invariant acc' (consumed ++ mem_entries).
Proof.
  revert acc consumed.
  induction mem_entries as [|d ds IH]; intros acc consumed Hloop Hinv.
  - injection Hloop as <-. by rewrite app_nil_r.
  - cbn [setup_e820_map_loop] in Hloop.
    destruct (setup_e820_map_step E820MAX acc d) as [acc1|] eqn:Hstep; [|done].
    rewrite (cons_middle d), app_assoc.
    apply (IH acc1); [done|].
    by apply (setup_e820_map_step_invariant E820MAX acc).
Qed.

(** Descriptors of a type the [switch] does not list leave no trace. *)
Lemma setup_e820_map_loop_skip E820MAX mem_entries acc :
  setup_e820_map_loop E820MAX acc (List.filter e820_recognised mem_entries)
  = setup_e820_map_loop E820MAX acc mem_entries.
Proof.
  revert acc. induction mem_entries as [|d ds IH]; intros acc; [done|].
  cbn [List.filter setup_e820_map_loop].
  destruct (e820_recognised d) eqn:Hd.
  - cbn [setup_e820_map_loop].
    destruct (setup_e820_map_step E820MAX acc d); [apply IH | done].
  - rewrite IH. unfold setup_e820_map_step.
    unfold e820_recognised in Hd.
    by destruct (e820_type_of (Type_ d)).
Qed.

(** The table cannot overflow when the map has no more descriptors than
    the table has room. *)
Lemma setup_e820_map_loop_total E820MAX mem_entries acc :
  (length acc + length mem_entries <= E820MAX)%nat ->
  is_Some (setup_e820_map_loop E820MAX acc mem_entries).
Proof.
  revert acc. induction mem_entries as [|d ds IH]; intros acc Hlen; [done|].
  cbn [setup_e820_map_loop]. simpl in Hlen.
  assert (exists acc1, setup_e820_map_step E820MAX acc d = Some acc1
                       /\ (length acc1 <= S (length acc))%nat) as (acc1 & -> & H1).
  { unfold setup_e820_map_step.
    destruct (e820_type_of (Type_ d)); [|eexists; split; [done | lia]].
    assert ((length acc <? E820MAX)%nat = true) as -> by (apply Nat.ltb_lt; lia).
    destruct acc as [|prev older]; [eexists; split; [done | simpl; lia]|].
    destruct (_ && _); eexists; (split; [done | simpl; lia]). }
  apply IH. lia.
Qed.

(** One turn of the loop on a listed descriptor either extends the latest
    run, when the descriptor continues the latest entry, or opens a run of
    its own. *)
Lemma setup_e820_map_step_runs E820MAX acc acc' d runs :
  setup_e820_map_step E820MAX acc d = Some acc' ->
  Forall2 run_entry runs (reverse acc) ->
  exists runs',
    concat runs' = concat runs ++ (if e820_recognised d then [d] else [])
    /\ Forall2 run_entry runs' (reverse acc').
Proof.
  unfold setup_e820_map_step, e820_recognised. intros Hstep Hruns.
  destruct (e820_type_of (Type_ d)) as [cur_type|] eqn:Hty.
  2:{ injection Hstep as <-. exists runs.
      split; [symmetry; apply app_nil_r | done]. }
  assert (Hfresh :
    Forall2 run_entry (runs ++ [[d]])
      (reverse (mk_e820 (PhysicalStart d)
                  (wrap64 (Z.shiftl (NumberOfPages d) EFI_PAGE_SHIFT))
                  cur_type :: acc))).
  { rewrite reverse_cons. apply Forall2_app; [done|].
    constructor; [|constructor]. by apply (run_first d cur_type). }
  assert (Hcat : concat (runs ++ [[d]]) = concat runs ++ [d]).
  { rewrite concat_app. cbn [concat]. by rewrite app_nil_r. }
  destruct acc as [|prev older].
  - destruct (length [] <? E820MAX)%nat; [|done].
    injection Hstep as <-. by exists (runs ++ [[d]]).
  - destruct ((type prev =? cur_type)
              && (wrap64 (addr prev + size prev) =? PhysicalStart d)) eqn:Hm.
    + injection Hstep as <-.
      apply andb_true_iff in Hm as [Ht%Z.eqb_eq Ha%Z.eqb_eq].
      rewrite reverse_cons in Hruns.
      apply Forall2_app_inv_r in Hruns as (runs0 & rl & Hruns0 & Hrl & ->).
      apply Forall2_cons_inv_r in Hrl as (run & rl' & Hrun & Hnil & ->).
      apply Forall2_nil_inv_r in Hnil as ->.
      exists (runs0 ++ [run ++ [d]]). split.
      * rewrite !concat_app. cbn [concat]. by rewrite !app_nil_r, app_assoc.
      * rewrite reverse_cons. apply Forall2_app; [done|].
        constructor; [|constructor].
        apply (run_more run prev d); [done | by rewrite Ht | done].
    + destruct (length (prev :: older) <? E820MAX)%nat; [|done].
      injection Hstep as <-. by exists (runs ++ [[d]]).
Qed.

Lemma setup_e820_map_loop_runs E820MAX mem_entries acc acc' runs :
  setup_e820_map_loop E820MAX acc mem_entries = Some acc' ->
  Forall2 run_entry runs (reverse acc) ->
  exists runs',
    concat runs' = concat runs ++ List.filter e820_recognised mem_entries
    /\ Forall2 run_entry runs' (reverse acc').
Proof.
  revert acc runs.
  induction mem_entries as [|d ds IH]; intros acc runs Hloop Hruns.
  - injection Hloop as <-. exists runs. by rewrite app_nil_r.
  - cbn [setup_e820_map_loop] in Hloop.
    destruct (setup_e820_map_step E820MAX acc d) as [acc1|] eqn:Hstep; [|done].
    destruct (setup_e820_map_step_runs _ _ _ _ _ Hstep Hruns)
      as (runs1 & Hcat1 & Hruns1).
    destruct (IH acc1 runs1 Hloop Hruns1) as (runs' & Hcat & Hruns').
    exists runs'. split; [|done].
    rewrite Hcat, Hcat1. cbn [List.filter].
    destruct (e820_recognised d); by rewrite <- app_assoc.
Qed.

(** What [run_entry] says of an entry in plain terms: its address is the
    start of the first descriptor of its run, every descriptor of the run
    is mapped to its type, and its size is the sum of their bytes. *)
Lemma run_entry_facts run e :
  run_entry run e ->
  (exists d rest, run = d :: rest /\ addr e = PhysicalStart d)
  /\ Forall (fun d => e820_type_of (Type_ d) = Some (type e)) run
  /\ size e = wrap64 (foldr (fun d acc => desc_bytes d + acc) 0 run).
Proof.
  induction 1 as [d t Ht | run e d Hrun (Hhd & Hty & Hsz) Ht Ha].
  - split; [by exists d, []|]. split; [by repeat constructor|].
    cbn [foldr size]. rewrite Z.add_0_r. unfold desc_bytes, wrap64.
    by rewrite Z.mod_mod.
  - cbn [addr size type]. split; [|split].
    + destruct Hhd as (d0 & rest & -> & Hd0). by exists d0, (rest ++ [d]).
    + apply Forall_app. split; [done | by repeat constructor].
    + assert (forall b,
                foldr (fun d acc => desc_bytes d + acc) b run
                = foldr (fun d acc => desc_bytes d + acc) 0 run + b) as Hf.
      { clear. intros b. induction run as [|x xs IHxs]; cbn [foldr]; lia. }
      rewrite foldr_app. cbn [foldr]. rewrite Hf, Hsz, wrap64_add_l.
      f_equal. lia.
Qed.

(** *** C4 *)

(** A descriptor of type 14 (persistent memory) gets no entry at all: it is
    not mapped to [E820_RESERVED]. *)
Lemma setup_e820_map_drops_unlisted_type :
  e820_type_of 14 = None
  /\ setup_e820_map 128 [mk_mem_desc 14 0x80000000 0 256 0xf] = Some ([], 0)
  /\ forall tbl n,
       setup_e820_map 128 example_memory_map = Some (tbl, n) ->
       forall e, e ∈ tbl -> addr e <> 0x80000000.
Proof.
  split; [done|]. split; [vm_compute; reflexivity|].
  intros tbl n. rewrite setup_e820_map_example. intros [= <- <-] e He.
  repeat (apply elem_of_cons in He as [->|He]; [done|]).
  by apply elem_of_nil in He.
Qed.

(** C4 (amended). [setup_e820_map] maps EfiLoaderCode/Data,
    EfiBootServicesCode/Data and EfiConventionalMemory to [E820_RAM],
    EfiACPIReclaimMemory to [E820_ACPI], EfiACPIMemoryNVS to [E820_NVS],
    EfiUnusableMemory to [E820_UNUSABLE], and EfiReservedMemoryType,
    EfiRuntimeServicesCode/Data, EfiMemoryMappedIO(PortSpace) and EfiPalCode
    to [E820_RESERVED]; a descriptor of any other type is left out of the
    table.  A descriptor that has the type of the latest entry and starts
    where that entry ends extends it, any other one opens a new entry: so
    every entry has the address of one descriptor and the type mapped from
    it, no entry could be merged into the one before it, the table describes
    as many bytes as the listed descriptors, and [e820_entries] is its
    length.  The listed descriptors split, in order, into one run per
    entry: the first descriptor of a run gives the entry its address, each
    later one starts where the entry built from the ones before it ends and
    has its type, and the size of the entry is the sum of the bytes of the
    run (modulo 2^64).  A table exists whenever the map has no more
    descriptors than the table has room. *)
Theorem setup_e820_map_table (E820MAX : nat)
    (mem_entries : list EFI_MEMORY_DESCRIPTOR) :
  (e820_type_of EfiLoaderCode = Some E820_RAM
   /\ e820_type_of EfiLoaderData = Some E820_RAM
   /\ e820_type_of EfiBootServicesCode = Some E820_RAM
   /\ e820_type_of EfiBootServicesData = Some E820_RAM
   /\ e820_type_of EfiConventionalMemory = Some E820_RAM
   /\ e820_type_of EfiACPIReclaimMemory = Some E820_ACPI
   /\ e820_type_of EfiACPIMemoryNVS = Some E820_NVS
   /\ e820_type_of EfiUnusableMemory = Some E820_UNUSABLE
   /\ e820_type_of EfiReservedMemoryType = Some E820_RESERVED
   /\ e820_type_of EfiRuntimeServicesCode = Some E820_RESERVED
   /\ e820_type_of EfiRuntimeServicesData = Some E820_RESERVED
   /\ e820_type_of EfiMemoryMappedIO = Some E820_RESERVED
   /\ e820_type_of EfiMemoryMappedIOPortSpace = Some E820_RESERVED
   /\ e820_type_of EfiPalCode = Some E820_RESERVED
   /\ forall ty, ~ (0 <= ty <= 13) -> e820_type_of ty = None)
  /\ ((length mem_entries <= E820MAX)%nat ->
      is_Some (setup_e820_map E820MAX mem_entries))
  /\ (forall tbl n,
        setup_e820_map E820MAX mem_entries = Some (tbl, n) ->
        n = Z.of_nat (length tbl)
        /\ (forall e, e ∈ tbl ->
              exists d, d ∈ mem_entries
                        /\ e820_type_of (Type_ d) = Some (type e)
                        /\ addr e = PhysicalStart d)
        /\ unmergeable_chain tbl
        /\ (forall (i : nat) a b,
              tbl !! i = Some a -> tbl !! S i = Some b -> ~ mergeable a b)
        /\ setup_e820_map E820MAX (List.filter e820_recognised mem_entries)
           = Some (tbl, n)
        /\ wrap64 (e820_total tbl) = wrap64 (efi_total mem_entries)
        /\ exists runs,
             concat runs = List.filter e820_recognised mem_entries
             /\ Forall2 run_entry runs tbl
             /\ Forall2 (fun run e =>
                           (exists d rest,
                              run = d :: rest /\ addr e = PhysicalStart d)
                           /\ Forall (fun d => e820_type_of (Type_ d)
                                               = Some (type e)) run
                           /\ size e
                              = wrap64 (foldr (fun d acc => desc_bytes d + acc)
                                          0 run))
                        runs tbl).
Proof.
  split; [|split].
  - repeat (split; [reflexivity|]).
    intros ty Hty. destruct (e820_type_of ty) as [t|] eqn:E; [|done].
    apply e820_type_of_range in E. lia.
  - intros Hlen. unfold setup_e820_map.
    destruct (setup_e820_map_loop_total E820MAX mem_entries [] Hlen) as [acc ->].
    done.
  - intros tbl n. unfold setup_e820_map.
    rewrite setup_e820_map_loop_skip.
    destruct (setup_e820_map_loop E820MAX [] mem_entries) as [acc|] eqn:Hloop;
      [|done].
    intros [= <- <-].
    assert (e820_invariant [] []) as H0.
    { split; [constructor|]. split; [|done]. intros e He.
      by apply elem_of_nil in He. }
    destruct (setup_e820_map_loop_invariant _ _ _ _ _ Hloop H0)
      as (Hchain & Hprov & Hsum).
    simpl in Hprov, Hsum.
    split; [by rewrite length_reverse|].
    split; [intros e He; apply Hprov; by apply elem_of_reverse|].
    split; [done|].
    split; [by apply unmergeable_chain_lookup|].
    split; [done|].
    split; [by rewrite e820_total_reverse|].
    destruct (setup_e820_map_loop_runs E820MAX mem_entries [] acc []
                Hloop ltac:(constructor)) as (runs & Hcat & Hruns).
    exists runs. split; [done|]. split; [done|].
    eapply Forall2_impl; [exact Hruns|]. apply run_entry_facts.
Qed.

(** On the example map the three RAM descriptors make one entry, and the
    entry after it cannot be merged into it. *)
Lemma setup_e820_map_table_witness :
  is_Some (setup_e820_map 128 example_memory_map)
  /\ ~ mergeable (mk_e820 0x100000 0x200000 E820_RAM)
                 (mk_e820 0x300000 0x4000 E820_ACPI)
  /\ exists runs,
       concat runs = List.filter e820_recognised example_memory_map
       /\ Forall2 run_entry runs
            (default ([], 0) (setup_e820_map 128 example_memory_map)).1.
Proof.
  destruct (setup_e820_map_table 128 example_memory_map) as (_ & Htot & Hspec).
  split; [apply Htot; vm_compute; lia|].
  destruct (Hspec _ _ setup_e820_map_example)
    as (_ & _ & _ & Hadj & _ & _ & runs & Hcat & Hruns & _).
  split; [by apply (Hadj 0%nat)|].
  exists runs. split; [done|]. by rewrite setup_e820_map_example.
Defined.

(** ** choose_boot_target *)

(** *** C3 *)

(** With only the one-shot variable set, to "dnx", the first answer that
    differs from [NORMAL_BOOT] is [DNX]; a build without [USE_SBL] goes on
    to the battery and charger checks and returns [NORMAL_BOOT]. *)
Lemma choose_boot_target_one_shot_dnx :
  first_non_normal signals_one_shot_dnx = DNX
  /\ (choose_boot_target userdebug_build (traced_checks signals_one_shot_dnx) []).1.1.1
     = NORMAL_BOOT
  /\ (choose_boot_target userdebug_build (traced_checks signals_one_shot_dnx) []).2
     = specified_order.
Proof. vm_compute. done. Qed.

Example choose_boot_target_bcb_fastboot :
  choose_boot_target userdebug_build (traced_checks signals_bcb_fastboot) []
  = (RECOVERY, None, false,
     [CK_command_line; CK_fastboot_sentinel; CK_magic_key; CK_watchdog;
      CK_battery_inserted; CK_bcb]).
Proof. vm_compute. reflexivity. Qed.

Lemma policy_walk_trace sg order last_answer trace :
  exists n, (policy_walk sg order last_answer trace).2 = trace ++ take n order.
Proof.
  revert last_answer trace.
  induction order as [|id rest IH]; intros last_answer trace.
  - exists 0%nat. simpl. by rewrite app_nil_r.
  - cbn [policy_walk]. destruct (check_stops id (check_answer sg id)).
    + by exists 1%nat.
    + destruct (IH (check_answer sg id) (trace ++ [id])) as [n Hn].
      exists (S n). rewrite Hn. by rewrite <- app_assoc.
Qed.

Lemma policy_walk_trace_cons sg id rest last_answer trace :
  exists n,
    (policy_walk sg (id :: rest) last_answer trace).2
    = trace ++ id :: take n rest.
Proof.
  cbn [policy_walk]. destruct (check_stops id (check_answer sg id)).
  - exists 0%nat. by rewrite take_0.
  - destruct (policy_walk_trace sg rest (check_answer sg id) (trace ++ [id]))
      as [n ->].
    exists n. by rewrite <- app_assoc.
Qed.

(** Closes the case where the check just evaluated stops the walk. *)
Ltac walk_stops H :=
  rewrite ?(bool_decide_eq_false_2 _ H); simpl;
  rewrite ?(bool_decide_eq_false_2 _ H); simpl; done.

Lemma choose_after_one_shot_traced cfg sg ret trace :
  choose_after_one_shot cfg (traced_checks sg) ret trace
  = policy_walk sg (if USE_SBL cfg then [] else [CK_battery; CK_charge_mode])
      ret trace.
Proof.
  unfold choose_after_one_shot, traced_checks, traced.
  destruct (USE_SBL cfg); [done|].
  cbn [pc_check_battery pc_check_charge_mode pc_ux_display_low_battery
       policy_walk check_answer check_stops].
  assert ((if bool_decide (sig_battery sg = POWER_OFF)
           then if USE_UI cfg then trace ++ [CK_battery] else trace ++ [CK_battery]
           else trace ++ [CK_battery]) = trace ++ [CK_battery]) as ->
    by (by destruct (bool_decide _), (USE_UI cfg)).
  destruct (negb (bool_decide (sig_battery sg = NORMAL_BOOT))); [done|].
  by destruct (negb (bool_decide (sig_charge_mode sg = NORMAL_BOOT))).
Qed.

Lemma choose_from_bcb_traced cfg sg trace :
  let r := choose_from_bcb cfg (traced_checks sg) trace in
  (r.1.1.1, r.2)
  = policy_walk sg
      ([CK_bcb; CK_loader_entry_one_shot]
       ++ (if USE_SBL cfg then [] else [CK_battery; CK_charge_mode]))
      NORMAL_BOOT trace
  /\ (r.1.1.2, r.1.2) = (sig_bcb_target_path sg, sig_bcb_oneshot sg).
Proof.
  cbv zeta. unfold choose_from_bcb.
  change (pc_check_bcb (traced_checks sg) trace)
    with (sig_bcb sg, sig_bcb_target_path sg, sig_bcb_oneshot sg,
          trace ++ [CK_bcb]).
  cbv beta iota zeta.
  change (pc_check_loader_entry_one_shot (traced_checks sg) (trace ++ [CK_bcb]))
    with (sig_loader_entry_one_shot sg,
          (trace ++ [CK_bcb]) ++ [CK_loader_entry_one_shot]).
  cbv beta iota zeta.
  rewrite choose_after_one_shot_traced.
  unfold traced_checks.
  cbn [pc_del_loader_entry_oneshot policy_walk app check_answer check_stops].
  destruct (decide (sig_bcb sg = NORMAL_BOOT)) as [Hb|Hb].
  - rewrite Hb. simpl.
    destruct (negb (bool_decide (sig_loader_entry_one_shot sg = DNX))
              && negb (bool_decide (sig_loader_entry_one_shot sg = NORMAL_BOOT)));
      [done|].
    by destruct (policy_walk _ _ _ _).
  - rewrite (bool_decide_eq_false_2 _ Hb). simpl.
    destruct (sig_bcb_oneshot sg); simpl.
    + rewrite andb_false_r. by rewrite (bool_decide_eq_false_2 _ Hb).
    + rewrite andb_true_r.
      destruct (decide (sig_bcb sg = FASTBOOT)) as [Hf|Hf].
      * by rewrite Hf.
      * rewrite (bool_decide_eq_false_2 _ Hf).
        by rewrite (bool_decide_eq_false_2 _ Hb).
Qed.

(** C3 (amended). For every signal set [choose_boot_target] evaluates the
    checks in the fixed order command line, fastboot sentinel, magic key,
    watchdog, battery-inserted wake, BCB, one-shot variable, battery
    threshold, charger wake (the three battery and charger checks only in a
    build without [USE_SBL]) and stops at the first answer different from
    [NORMAL_BOOT], a persistent BCB [FASTBOOT] being returned as [RECOVERY];
    but a [DNX] answer of the one-shot variable does not stop it: the checks
    that follow decide, and [DNX] is returned only when none follows.  The
    target, the path and the one-shot flag are functions of the signal set;
    before the BCB check the path is [NULL] and the flag [TRUE]. *)
Theorem choose_boot_target_order (cfg : build_config) (sg : signal_set) :
  let r := choose_boot_target cfg (traced_checks sg) [] in
  (r.1.1.1, r.2) = policy_walk sg (policy_order cfg) NORMAL_BOOT []
  /\ (exists n, r.2 = take n (policy_order cfg))
  /\ (r.1.1.2, r.1.2)
     = (if bool_decide (CK_bcb ∈ r.2)
        then (sig_bcb_target_path sg, sig_bcb_oneshot sg)
        else (None, true)).
Proof.
  cbv zeta.
  assert (Hwalk :
    (let r := choose_boot_target cfg (traced_checks sg) [] in
     (r.1.1.1, r.2) = policy_walk sg (policy_order cfg) NORMAL_BOOT []
     /\ (r.1.1.2, r.1.2)
        = (if bool_decide (CK_bcb ∈ r.2)
           then (sig_bcb_target_path sg, sig_bcb_oneshot sg)
           else (None, true)))).
  { cbv zeta. unfold choose_boot_target, policy_order.
    remember ([CK_bcb; CK_loader_entry_one_shot]
              ++ (if USE_SBL cfg then [] else [CK_battery; CK_charge_mode]))
      as tail eqn:Htail.
    change (pc_check_command_line (traced_checks sg) [])
      with (sig_command_line sg, [CK_command_line]).
    cbv beta iota zeta.
    cbn [policy_walk app check_answer check_stops].
    destruct (decide (sig_command_line sg = NORMAL_BOOT)) as [->|H];
      [|walk_stops H].
    change (pc_check_fastboot_sentinel (traced_checks sg) [CK_command_line])
      with (sig_fastboot_sentinel sg, [CK_command_line; CK_fastboot_sentinel]).
    cbn [negb bool_decide decide_rel boot_target_eq_dec]. simpl bool_decide.
    cbv beta iota zeta.
    destruct (decide (sig_fastboot_sentinel sg = NORMAL_BOOT)) as [->|H];
      [|walk_stops H].
    change (pc_check_magic_key (traced_checks sg)
              [CK_command_line; CK_fastboot_sentinel])
      with (sig_magic_key sg,
            [CK_command_line; CK_fastboot_sentinel; CK_magic_key]).
    simpl bool_decide. cbv beta iota zeta.
    destruct (decide (sig_magic_key sg = NORMAL_BOOT)) as [->|H];
      [|walk_stops H].
    change (pc_check_watchdog (traced_checks sg)
              [CK_command_line; CK_fastboot_sentinel; CK_magic_key])
      with (sig_watchdog sg,
            [CK_command_line; CK_fastboot_sentinel; CK_magic_key; CK_watchdog]).
    simpl bool_decide. cbv beta iota zeta.
    destruct (decide (sig_watchdog sg = NORMAL_BOOT)) as [->|H];
      [|walk_stops H].
    change (pc_check_battery_inserted (traced_checks sg)
              [CK_command_line; CK_fastboot_sentinel; CK_magic_key; CK_watchdog])
      with (sig_battery_inserted sg,
            [CK_command_line; CK_fastboot_sentinel; CK_magic_key; CK_watchdog;
             CK_battery_inserted]).
    simpl bool_decide. cbv beta iota zeta.
    simpl.
    assert (Hbcb : forall trace,
      CK_bcb ∈ (choose_from_bcb cfg (traced_checks sg) trace).2).
    { intros trace.
      destruct (choose_from_bcb_traced cfg sg trace) as [Hw _].
      apply (f_equal snd) in Hw. cbn [snd] in Hw. rewrite Hw. cbn [app].
      destruct (policy_walk_trace_cons sg CK_bcb
                  (CK_loader_entry_one_shot
                   :: (if USE_SBL cfg then [] else [CK_battery; CK_charge_mode]))
                  NORMAL_BOOT trace) as [n ->].
      apply elem_of_app. right. apply elem_of_cons. by left. }
    destruct (USE_SBL cfg) eqn:Hsbl;
      cbn [policy_walk app check_answer check_stops].
    - destruct (choose_from_bcb_traced cfg sg
                  [CK_command_line; CK_fastboot_sentinel; CK_magic_key;
                   CK_watchdog]) as [Hw Hp].
      rewrite Hsbl, <- Htail in Hw. rewrite Hp, Hw.
      by rewrite bool_decide_eq_true_2 by apply Hbcb.
    - destruct (decide (sig_battery_inserted sg = NORMAL_BOOT)) as [->|H];
        [|walk_stops H].
      simpl.
      destruct (choose_from_bcb_traced cfg sg
                  [CK_command_line; CK_fastboot_sentinel; CK_magic_key;
                   CK_watchdog; CK_battery_inserted]) as [Hw Hp].
      rewrite Hsbl, <- Htail in Hw. rewrite Hp, Hw.
      by rewrite bool_decide_eq_true_2 by apply Hbcb. }
  cbv zeta in Hwalk. destruct Hwalk as [Hw Hp].
  split; [exact Hw|]. split; [|exact Hp].
  apply (f_equal snd) in Hw. simpl in Hw. rewrite Hw.
  apply (policy_walk_trace sg (policy_order cfg) NORMAL_BOOT []).
Qed.

(** ** The watchdog policy *)

(** Without firmware faults the reads leave the variable store as it is. *)
Lemma get_efi_variable_nofault guid name vs :
  var_faults vs = [] ->
  get_efi_variable guid name vs
  = (match vars vs !! (guid, name) with
     | None => EFI_NOT_FOUND | Some _ => EFI_SUCCESS end,
     vars vs !! (guid, name), vs).
Proof.
  intros Hf. unfold get_efi_variable, var_next_fault. rewrite Hf.
  by destruct (vars vs !! (guid, name)).
Qed.

Lemma get_efi_variable_byte_nofault guid name b vs :
  var_faults vs = [] -> (get_efi_variable_byte guid name b vs).2 = vs.
Proof.
  intros Hf. unfold get_efi_variable_byte.
  rewrite get_efi_variable_nofault by done.
  destruct (vars vs !! (guid, name)) as [v|]; [|done].
  by destruct (var_data v).
Qed.

Lemma get_current_boolean_var_nofault guid name cache dflt vs :
  var_faults vs = [] ->
  (get_current_boolean_var guid name cache dflt vs).2 = vs.
Proof.
  intros Hf. unfold get_current_boolean_var.
  destruct (is_cached cache); [done|].
  rewrite get_efi_variable_nofault by done.
  destruct (vars vs !! (guid, name)) as [v|]; [|done].
  destruct (var_data v) as [|d0 [|d1 [|]]]; try done.
  by destruct (_ || _).
Qed.

Lemma get_watchdog_status_nofault counter time vs :
  var_faults vs = [] -> (get_watchdog_status counter time vs).2 = vs.
Proof.
  intros Hf. unfold get_watchdog_status.
  pose proof (get_efi_variable_byte_nofault fastboot_guid WDT_COUNTER counter vs Hf)
    as Hb.
  destruct (get_efi_variable_byte _ _ _ vs) as [[ret c] vs']. simpl in Hb.
  subst vs'. case_bool_decide; [done|].
  destruct (EFI_ERROR ret); [done|].
  rewrite get_efi_variable_nofault by done.
  destruct (vars vs !! _) as [v|]; [|done].
  by destruct (negb _).
Qed.

Lemma get_watchdog_counter_max_nofault cfg vs :
  var_faults vs = [] -> (get_watchdog_counter_max cfg vs).2 = vs.
Proof.
  intros Hf. unfold get_watchdog_counter_max.
  destruct (USER cfg); [done|].
  pose proof (get_efi_variable_byte_nofault fastboot_guid WDT_COUNTER_MAX 0 vs Hf)
    as Hb.
  by destruct (get_efi_variable_byte _ _ _ vs) as [[ret c] vs'].
Qed.

(** The maximum is read from [WatchdogCounterMax] alone. *)
Lemma get_watchdog_counter_max_lookup cfg vs vs' :
  var_faults vs = [] -> var_faults vs' = [] ->
  vars vs' !! (fastboot_guid, WDT_COUNTER_MAX)
  = vars vs !! (fastboot_guid, WDT_COUNTER_MAX) ->
  (get_watchdog_counter_max cfg vs').1 = (get_watchdog_counter_max cfg vs).1.
Proof.
  intros Hf Hf' Hl. unfold get_watchdog_counter_max, get_efi_variable_byte.
  destruct (USER cfg); [done|].
  rewrite !get_efi_variable_nofault by done. rewrite Hl.
  destruct (vars vs !! _) as [v|]; [|done].
  by destruct (var_data v).
Qed.

#[local] Opaque REBOOT_REASON_MAX.

Lemma get_efi_variable_str_nofault guid name vs :
  var_faults vs = [] ->
  get_efi_variable_str guid name vs
  = (match vars vs !! (guid, name) with
     | Some v => Some (char16_of_bytes (var_data v))
     | None => None
     end, vs).
Proof.
  intros Hf. unfold get_efi_variable_str.
  rewrite get_efi_variable_nofault by done.
  by destruct (vars vs !! (guid, name)).
Qed.

(** Without faults [get_reboot_reason] returns the saved reboot reason; the
    state it leaves has the same variables and prompts, and the same saved
    reboot reason. *)
Lemma get_reboot_reason_nofault s :
  var_faults (st_vars s) = [] ->
  (get_reboot_reason s).1 = saved_reboot_reason s
  /\ st_vars (get_reboot_reason s).2 = st_vars s
  /\ st_prompts (get_reboot_reason s).2 = st_prompts s
  /\ saved_reboot_reason (get_reboot_reason s).2 = saved_reboot_reason s.
Proof.
  intros Hf. unfold get_reboot_reason, saved_reboot_reason.
  destruct (reboot_reason s) as [|c0 rr0] eqn:Hrr.
  - rewrite get_efi_variable_str_nofault by done.
    destruct (vars (st_vars s) !! _) as [v|] eqn:Hv.
    + destruct (REBOOT_REASON_MAX <=? _)%nat eqn:Hlen.
      * cbn [fst snd with_vars st_vars st_prompts reboot_reason].
        by rewrite Hrr, Hv, Hlen.
      * cbn [fst snd with_vars with_reboot_reason st_vars st_prompts
             reboot_reason].
        rewrite Hv, Hlen.
        by destruct (char16_of_bytes (var_data v)).
    + cbn [fst snd with_vars st_vars st_prompts reboot_reason].
      by rewrite Hrr, Hv.
  - cbn [fst snd]. by rewrite Hrr.
Qed.

Lemma is_reboot_reason_nofault reason s :
  var_faults (st_vars s) = [] ->
  (is_reboot_reason reason s).1 = saved_reason_has reason s
  /\ st_vars (is_reboot_reason reason s).2 = st_vars s
  /\ st_prompts (is_reboot_reason reason s).2 = st_prompts s
  /\ saved_reboot_reason (is_reboot_reason reason s).2 = saved_reboot_reason s.
Proof.
  intros Hf. unfold is_reboot_reason, saved_reason_has.
  destruct (get_reboot_reason_nofault s Hf) as (H1 & H2 & H3 & H4).
  destruct (get_reboot_reason s) as [[rr|] s']; simpl in *;
    rewrite <- H1 in *; done.
Qed.

(** The pure form of [reset_is_due_to_watchdog_or_panic]. *)
Lemma reset_is_due_to_watchdog_or_panic_nofault p s :
  var_faults (st_vars s) = [] ->
  (reset_is_due_to_watchdog_or_panic p s).1
  = existsb (fun w => bool_decide (rsci_get_reset_source p = w))
      WATCHDOG_RESET_SOURCES
    || saved_reason_has (L "kernel_panic") s
    || saved_reason_has (L "watchdog") s
  /\ st_vars (reset_is_due_to_watchdog_or_panic p s).2 = st_vars s
  /\ st_prompts (reset_is_due_to_watchdog_or_panic p s).2 = st_prompts s
  /\ saved_reboot_reason (reset_is_due_to_watchdog_or_panic p s).2
     = saved_reboot_reason s.
Proof.
  intros Hf. unfold reset_is_due_to_watchdog_or_panic.
  destruct (existsb _ _); [done|].
  destruct (is_reboot_reason_nofault (L "kernel_panic") s Hf)
    as (H1 & H2 & H3 & H4).
  destruct (is_reboot_reason (L "kernel_panic") s) as [panic s1].
  simpl in H1, H2, H3, H4. rewrite <- H1.
  destruct panic; [done|].
  destruct (is_reboot_reason_nofault (L "watchdog") s1 ltac:(by rewrite H2))
    as (G1 & G2 & G3 & G4).
  rewrite G1, G2, G3, G4, H2, H3, H4.
  unfold saved_reason_has. by rewrite H4.
Qed.

(** Reading the crash-event-menu setting changes neither the variables nor
    the prompts, faults or not. *)
Lemma get_crash_event_menu_vars s :
  vars (st_vars (get_crash_event_menu s).2) = vars (st_vars s)
  /\ st_prompts (get_crash_event_menu s).2 = st_prompts s.
Proof.
  unfold get_crash_event_menu, get_current_boolean_var.
  destruct (is_cached (crash_event_menu s)); [done|].
  unfold get_efi_variable, var_next_fault.
  destruct (var_faults (st_vars s)) as [|[] fs]; simpl; try done;
    destruct (vars (st_vars s) !! _) as [v|]; simpl; try done;
    destruct (var_data v) as [|d0 [|d1 [|]]]; simpl; try done;
    by destruct (_ || _).
Qed.

Lemma same_store_refl s : same_store s s.
Proof. done. Qed.

Lemma same_store_trans s1 s2 s3 :
  same_store s1 s2 -> same_store s2 s3 -> same_store s1 s3.
Proof.
  intros (A1 & A2 & A3) (B1 & B2 & B3).
  repeat split; congruence.
Qed.

Lemma get_crash_event_menu_nofault s :
  var_faults (st_vars s) = [] -> same_store s (get_crash_event_menu s).2.
Proof.
  intros Hf. unfold get_crash_event_menu.
  pose proof (get_current_boolean_var_nofault fastboot_guid CRASH_EVENT_MENU
                (crash_event_menu s) true (st_vars s) Hf) as H.
  destruct (get_current_boolean_var _ _ _ _ _) as [[b c] vs]. simpl in H.
  subst vs. by destruct s.
Qed.

Lemma set_efi_variable_nofault guid name data nv rt vs :
  var_faults vs = [] ->
  set_efi_variable guid name data nv rt vs
  = (EFI_SUCCESS,
     mk_varstore (<[(guid, name) := mk_efi_variable nv rt data]> (vars vs)) []).
Proof.
  intros Hf. unfold set_efi_variable, var_next_fault. rewrite Hf. simpl.
  by rewrite Hf.
Qed.

Lemma del_efi_variable_nofault guid name vs :
  var_faults vs = [] ->
  var_faults (del_efi_variable guid name vs).2 = []
  /\ vars (del_efi_variable guid name vs).2 = delete (guid, name) (vars vs).
Proof.
  intros Hf. unfold del_efi_variable, var_next_fault. rewrite Hf.
  destruct (vars vs !! (guid, name)) eqn:E; simpl; [done|].
  split; [done|]. by rewrite delete_id.
Qed.

Lemma set_watchdog_counter_nofault counter vs :
  var_faults vs = [] ->
  var_faults (set_watchdog_counter counter vs).2 = []
  /\ stored_watchdog_counter (set_watchdog_counter counter vs).2 = counter.
Proof.
  intros Hf. unfold set_watchdog_counter, stored_watchdog_counter.
  destruct (Z.eqb_spec counter 0) as [->|Hc].
  - destruct (del_efi_variable_nofault fastboot_guid WDT_COUNTER vs Hf)
      as [H1 H2].
    split; [done|]. by rewrite H2, lookup_delete_eq.
  - rewrite set_efi_variable_nofault by done. simpl.
    split; [done|]. by rewrite lookup_insert_eq.
Qed.

Lemma reset_watchdog_status_nofault vs :
  var_faults vs = [] ->
  stored_watchdog_counter (reset_watchdog_status vs).2 = 0.
Proof.
  intros Hf. unfold reset_watchdog_status.
  destruct (set_watchdog_counter_nofault 0 vs Hf) as [H1 H2].
  destruct (set_watchdog_counter 0 vs) as [ret vs1]. simpl in H1, H2.
  destruct (EFI_ERROR ret); [done|].
  unfold set_watchdog_time_reference.
  destruct (del_efi_variable_nofault fastboot_guid WDT_TIME_REF vs1 H1)
    as [_ H3].
  unfold stored_watchdog_counter in *. rewrite H3.
  rewrite lookup_delete_ne by done. exact H2.
Qed.

Lemma set_watchdog_counter_other counter vs k :
  var_faults vs = [] -> k <> (fastboot_guid, WDT_COUNTER) ->
  vars (set_watchdog_counter counter vs).2 !! k = vars vs !! k.
Proof.
  intros Hf Hk. unfold set_watchdog_counter.
  destruct (counter =? 0).
  - destruct (del_efi_variable_nofault fastboot_guid WDT_COUNTER vs Hf)
      as [_ ->].
    by rewrite lookup_delete_ne.
  - rewrite set_efi_variable_nofault by done. simpl.
    by rewrite lookup_insert_ne.
Qed.

Lemma saved_reason_has_same_store reason s s' :
  same_store s s' -> saved_reason_has reason s' = saved_reason_has reason s.
Proof. intros (_ & _ & H). unfold saved_reason_has. by rewrite H. Qed.

Lemma is_reboot_reason_same_store reason s s' :
  var_faults (st_vars s) = [] -> same_store s s' ->
  (is_reboot_reason reason s').1 = (is_reboot_reason reason s).1
  /\ same_store s (is_reboot_reason reason s').2.
Proof.
  intros Hf Hs. pose proof Hs as (V & P & R).
  destruct (is_reboot_reason_nofault reason s' ltac:(by rewrite V))
    as (H1 & H2 & H3 & H4).
  destruct (is_reboot_reason_nofault reason s Hf) as (G1 & _).
  split.
  - rewrite H1, G1. by apply saved_reason_has_same_store.
  - repeat split; congruence.
Qed.

Lemma reset_is_due_same_store p s s' :
  var_faults (st_vars s) = [] -> same_store s s' ->
  (reset_is_due_to_watchdog_or_panic p s').1
  = (reset_is_due_to_watchdog_or_panic p s).1
  /\ same_store s (reset_is_due_to_watchdog_or_panic p s').2.
Proof.
  intros Hf Hs. pose proof Hs as (V & P & R).
  destruct (reset_is_due_to_watchdog_or_panic_nofault p s'
              ltac:(by rewrite V)) as (H1 & H2 & H3 & H4).
  destruct (reset_is_due_to_watchdog_or_panic_nofault p s Hf) as (G1 & _).
  split.
  - rewrite H1, G1.
    by rewrite !(saved_reason_has_same_store _ s s').
  - repeat split; congruence.
Qed.

(** Without faults [reset_watchdog_status] deletes the counter; it goes on
    to delete the time reference when there was a counter to delete, and
    stops at the missing counter otherwise. *)
Lemma reset_watchdog_status_time_reference vs :
  var_faults vs = [] ->
  vars (reset_watchdog_status vs).2 !! (fastboot_guid, WDT_COUNTER) = None
  /\ stored_watchdog_time_reference (reset_watchdog_status vs).2
     = match vars vs !! (fastboot_guid, WDT_COUNTER) with
       | Some _ => None
       | None => stored_watchdog_time_reference vs
       end.
Proof.
  intros Hf. unfold reset_watchdog_status, set_watchdog_counter,
    set_watchdog_time_reference, stored_watchdog_time_reference.
  cbn [Z.eqb].
  assert (del_efi_variable fastboot_guid WDT_COUNTER vs
          = match vars vs !! (fastboot_guid, WDT_COUNTER) with
            | None => (EFI_NOT_FOUND, vs)
            | Some _ =>
                (EFI_SUCCESS,
                 mk_varstore (delete (fastboot_guid, WDT_COUNTER) (vars vs)) [])
            end) as ->.
  { unfold del_efi_variable, var_next_fault. rewrite Hf. cbn iota.
    by rewrite Hf. }
  destruct (vars vs !! (fastboot_guid, WDT_COUNTER)) as [v|] eqn:Hv.
  - cbn [EFI_ERROR].
    destruct (del_efi_variable_nofault fastboot_guid WDT_TIME_REF
                (mk_varstore (delete (fastboot_guid, WDT_COUNTER) (vars vs))
                   [])) as [_ ->]; [done|].
    cbn [vars]. split.
    + rewrite lookup_delete_ne by done. apply lookup_delete_eq.
    + by rewrite lookup_delete_eq.
  - cbn [EFI_ERROR snd]. by rewrite Hv.
Qed.

(** A missing counter variable reads as a count of 0. *)
Lemma get_watchdog_status_absent counter time vs :
  var_faults vs = [] ->
  vars vs !! (fastboot_guid, WDT_COUNTER) = None ->
  (get_watchdog_status counter time vs).1.1.2 = 0.
Proof.
  intros Hf Hv. unfold get_watchdog_status, get_efi_variable_byte.
  rewrite get_efi_variable_nofault by done. by rewrite Hv.
Qed.

(** *** C7 *)


Example check_watchdog_third_reset :
  let r := check_watchdog userdebug_build example_platform
             (boot_state (vars_watchdog 2 "1")) in
  r.1 = FASTBOOT
  /\ st_prompts r.2 = [CRASH_EVENT_CODE]
  /\ stored_watchdog_counter (st_vars r.2) = 0.
Proof. vm_compute. done. Qed.



(** ** The TPM store: round trips, frames, sealing and retries *)

Lemma buf_write_lookup_ne (dst : list Z) off src (i : nat) :
  (off + length src <= length dst)%nat ->
  (i < off \/ off + length src <= i)%nat ->
  buf_write dst off src !! i = dst !! i.
Proof.
  intros Hlen Hi. unfold buf_write.
  destruct Hi as [Hi|Hi].
  - rewrite lookup_app_l by (rewrite length_take; lia).
    by rewrite lookup_take_lt.
  - rewrite lookup_app_r by (rewrite length_take; lia).
    rewrite length_take, Nat.min_l by lia.
    rewrite lookup_app_r by lia.
    rewrite lookup_drop. f_equal. lia.
Qed.

Lemma buf_write_range_ne (dst : list Z) off src o n :
  (off + length src <= length dst)%nat ->
  (o + n <= off \/ off + length src <= o)%nat ->
  take n (drop o (buf_write dst off src)) = take n (drop o dst).
Proof.
  intros Hlen Hd. apply list_eq. intros i.
  destruct (decide (i < n)%nat) as [Hi|Hi].
  - rewrite !lookup_take_lt, !lookup_drop by done.
    apply buf_write_lookup_ne; [done | lia].
  - rewrite !lookup_take_ge by lia. done.
Qed.

(** A command that the TPM answers does not report [EFI_DEVICE_ERROR], so
    the retry loops stop at it. *)
Lemma tpm2_write_nvindex_loop_answered r idx d o t :
  (tpm_next_fault t).1 = false ->
  tpm2_write_nvindex_loop r idx d o t = Tpm2NvWrite idx d o t.
Proof.
  intros Hf.
  assert ((Tpm2NvWrite idx d o t).1 <> EFI_DEVICE_ERROR) as Hne.
  { unfold Tpm2NvWrite. destruct (tpm_next_fault t) as [[] t0]; [done|].
    destruct (tpm_nv t0 !! idx) as [s|]; [|done].
    by repeat case_match. }
  destruct r as [|[|r]]; cbn [tpm2_write_nvindex_loop];
    destruct (Tpm2NvWrite idx d o t) as [ret t']; try done.
  simpl in Hne. by destruct (decide (ret = EFI_DEVICE_ERROR)).
Qed.

Lemma tpm2_read_nvindex_loop_answered r idx n o t :
  (tpm_next_fault t).1 = false ->
  tpm2_read_nvindex_loop r idx n o t = Tpm2NvRead idx n o t.
Proof.
  intros Hf.
  assert ((Tpm2NvRead idx n o t).1.1 <> EFI_DEVICE_ERROR) as Hne.
  { unfold Tpm2NvRead. destruct (tpm_next_fault t) as [[] t0]; [done|].
    destruct (tpm_nv t0 !! idx) as [s|]; [|done].
    by repeat case_match. }
  destruct r as [|[|r]]; cbn [tpm2_read_nvindex_loop];
    destruct (Tpm2NvRead idx n o t) as [[ret buf] t']; try done.
  simpl in Hne. by destruct (decide (ret = EFI_DEVICE_ERROR)).
Qed.

Lemma tpm_next_fault_nofault t :
  tpm_faults t = [] -> tpm_next_fault t = (false, t).
Proof. intros Hf. unfold tpm_next_fault. by rewrite Hf. Qed.

Lemma tpm2_write_nvindex_nofault idx n d o t :
  tpm_faults t = [] ->
  (tpm2_write_nvindex idx n d o t).1 = EFI_SUCCESS ->
  exists s,
    tpm_nv t !! idx = Some s
    /\ (o + length (take n d) <= length (nv_data s))%nat
    /\ (tpm2_write_nvindex idx n d o t).2
       = mk_tpm (<[idx := mk_nv_space (TPMA_NV_WRITEALL s) (TPMA_NV_READ_STCLEAR s)
                            (TPMA_NV_WRITE_STCLEAR s) (TPMA_NV_WRITEDEFINE s)
                            true (TPMA_NV_READLOCKED s) (TPMA_NV_WRITELOCKED s)
                            (buf_write (nv_data s) o (take n d))]> (tpm_nv t)) [].
Proof.
  intros Hf. unfold tpm2_write_nvindex.
  rewrite tpm2_write_nvindex_loop_answered
    by (by rewrite tpm_next_fault_nofault).
  unfold Tpm2NvWrite, tpm_next_fault, set_nv. rewrite Hf.
  destruct (tpm_nv t !! idx) as [s|]; [|done].
  destruct (TPMA_NV_WRITELOCKED s) eqn:Hwl; [done|].
  destruct (Nat.ltb_spec (length (nv_data s)) (o + length (take n d))); [done|].
  destruct (_ && _); simpl; [done|].
  intros _. exists s. by rewrite Hf, Hwl.
Qed.

Lemma tpm2_read_nvindex_nofault idx n data o t :
  tpm_faults t = [] ->
  tpm2_read_nvindex idx n data o t
  = match tpm_nv t !! idx with
    | None => (EFI_NOT_FOUND, data, t)
    | Some s =>
        if TPMA_NV_READLOCKED s then (EFI_ACCESS_DENIED, data, t)
        else if negb (TPMA_NV_WRITTEN s) then (EFI_NOT_READY, data, t)
        else if (length (nv_data s) <? o + n)%nat then (EFI_BAD_BUFFER_SIZE, data, t)
        else (EFI_SUCCESS, buf_write data 0 (take n (drop o (nv_data s))), t)
    end.
Proof.
  intros Hf. unfold tpm2_read_nvindex.
  rewrite tpm2_read_nvindex_loop_answered
    by (by rewrite tpm_next_fault_nofault).
  unfold Tpm2NvRead, tpm_next_fault. rewrite Hf.
  destruct (tpm_nv t !! idx) as [s|]; [|done].
  destruct (TPMA_NV_READLOCKED s); [done|].
  destruct (TPMA_NV_WRITTEN s); [|done]. simpl.
  by destruct (_ <? _)%nat.
Qed.

(** The lock state written to the TPM is read back, on a TPM that answers
    and has not read-locked the index. *)
Lemma read_device_state_tpm2_after_write (st out : Z) (t : tpm) :
  0 <= st < 256 ->
  tpm_faults t = [] ->
  nv_read_locked NV_INDEX_BOOTLOADER t = false ->
  (write_device_state_tpm2 st t).1 = EFI_SUCCESS ->
  read_device_state_tpm2 out (write_device_state_tpm2 st t).2
  = (EFI_SUCCESS, st, (write_device_state_tpm2 st t).2).
Proof.
  intros Hst Hf Hl Hw. unfold write_device_state_tpm2 in *.
  destruct (tpm2_write_nvindex_nofault _ _ _ _ _ Hf Hw) as (s & Hs & Hlen & ->).
  unfold read_device_state_tpm2.
  rewrite tpm2_read_nvindex_nofault by done.
  cbn [tpm_nv]. rewrite lookup_insert_eq. cbn [TPMA_NV_READLOCKED TPMA_NV_WRITTEN nv_data].
  unfold nv_read_locked in Hl. rewrite Hs in Hl. rewrite Hl.
  unfold offsetof_lock_state in *. simpl in Hlen.
  rewrite buf_write_length by (simpl; lia).
  destruct (Nat.ltb_spec (length (nv_data s)) (1 + 1)); [lia|].
  cbn [EFI_ERROR fst snd negb].
  change (take 1) with (take (A:=Z) (length [st])).
  rewrite buf_write_read by (simpl; lia).
  rewrite buf_write_full by done.
  change (uint_of_bytes _) with (st + 256 * 0).
  by rewrite Z.mul_0_r, Z.add_0_r.
Qed.

(** X1. On a TPM that answers every command, a lock state that
    [write_device_state_tpm2] stored is the one [read_device_state_tpm2]
    returns afterwards, as long as the bootloader index is not read-locked. *)
Theorem write_device_state_tpm2_read_back (st out : Z) (t : tpm) :
  0 <= st < 256 ->
  tpm_faults t = [] ->
  nv_read_locked NV_INDEX_BOOTLOADER t = false ->
  (write_device_state_tpm2 st t).1 = EFI_SUCCESS ->
  (read_device_state_tpm2 out (write_device_state_tpm2 st t).2).1
  = (EFI_SUCCESS, st).
Proof.
  intros Hst Hf Hl Hw.
  by rewrite read_device_state_tpm2_after_write.
Qed.

Lemma tpm2_read_after_write idx n d o n' o' data t x :
  tpm_faults t = [] ->
  (tpm2_write_nvindex idx n d o t).1 = EFI_SUCCESS ->
  (o' + n' <= o \/ o + length (take n d) <= o')%nat ->
  (tpm2_read_nvindex idx n' data o' t).1 = (EFI_SUCCESS, x) ->
  (tpm2_read_nvindex idx n' data o' (tpm2_write_nvindex idx n d o t).2).1
  = (EFI_SUCCESS, x).
Proof.
  intros Hf Hw Hd.
  destruct (tpm2_write_nvindex_nofault _ _ _ _ _ Hf Hw) as (s & Hs & Hlen & ->).
  rewrite !tpm2_read_nvindex_nofault by done.
  cbn [tpm_nv]. rewrite Hs, lookup_insert_eq.
  cbn [TPMA_NV_READLOCKED TPMA_NV_WRITTEN nv_data].
  destruct (TPMA_NV_READLOCKED s); [done|].
  destruct (TPMA_NV_WRITTEN s); [|done]. cbn [negb].
  rewrite buf_write_length by done.
  destruct (_ <? _)%nat; [done|].
  cbn [fst snd]. by rewrite buf_write_range_ne.
Qed.

Lemma rollback_index_offset slot :
  0 <= slot < 8 ->
  Z.to_nat (wrap16 (slot * 8 + Z.of_nat offsetof_rollback_index))
  = (8 * Z.to_nat slot + 8)%nat.
Proof.
  intros H. unfold wrap16, offsetof_rollback_index.
  rewrite Z.mod_small by lia. lia.
Qed.

(** X2. The fields of [tpm2_bootloader_t] do not overlap: on a TPM that
    answers every command, a successful [write_rollback_index_tpm2] for one
    slot keeps what the other seven slots and the lock state read, and a
    successful [write_device_state_tpm2] keeps what every slot reads. *)
Theorem tpm2_bootloader_fields_disjoint (t : tpm) (slot v st : Z) :
  tpm_faults t = [] ->
  0 <= slot < 8 ->
  ((write_rollback_index_tpm2 slot v t).1 = EFI_SUCCESS ->
   (forall j out x, 0 <= j < 8 -> j <> slot ->
      (read_rollback_index_tpm2 j out t).1 = (EFI_SUCCESS, x) ->
      (read_rollback_index_tpm2 j out (write_rollback_index_tpm2 slot v t).2).1
      = (EFI_SUCCESS, x))
   /\ (forall out x,
        (read_device_state_tpm2 out t).1 = (EFI_SUCCESS, x) ->
        (read_device_state_tpm2 out (write_rollback_index_tpm2 slot v t).2).1
        = (EFI_SUCCESS, x)))
  /\ ((write_device_state_tpm2 st t).1 = EFI_SUCCESS ->
      forall j out x, 0 <= j < 8 ->
        (read_rollback_index_tpm2 j out t).1 = (EFI_SUCCESS, x) ->
        (read_rollback_index_tpm2 j out (write_device_state_tpm2 st t).2).1
        = (EFI_SUCCESS, x)).
Proof.
  intros Hf Hslot.
  assert (Hread : forall j out (t1 t2 : tpm) x, 0 <= j < 8 ->
            (forall y, (tpm2_read_nvindex NV_INDEX_BOOTLOADER 8 (bytes_of_uint 8 out)
                          (8 * Z.to_nat j + 8) t1).1 = (EFI_SUCCESS, y) ->
                       (tpm2_read_nvindex NV_INDEX_BOOTLOADER 8 (bytes_of_uint 8 out)
                          (8 * Z.to_nat j + 8) t2).1 = (EFI_SUCCESS, y)) ->
            (read_rollback_index_tpm2 j out t1).1 = (EFI_SUCCESS, x) ->
            (read_rollback_index_tpm2 j out t2).1 = (EFI_SUCCESS, x)).
  { intros j out t1 t2 x Hj H12. unfold read_rollback_index_tpm2.
    destruct (Z.leb_spec rollback_index_slots j);
      [unfold rollback_index_slots in *; lia|].
    rewrite rollback_index_offset by done.
    destruct (tpm2_read_nvindex _ _ _ _ t1) as [[ret1 d1] t1'] eqn:E1.
    destruct ret1; cbn [EFI_ERROR fst snd]; try done.
    intros [= <-].
    specialize (H12 d1 eq_refl).
    destruct (tpm2_read_nvindex _ _ _ _ t2) as [[ret2 d2] t2'].
    by simplify_eq/=. }
  assert (Hstate : forall out (t1 t2 : tpm) x,
            (forall y, (tpm2_read_nvindex NV_INDEX_BOOTLOADER 1 [out]
                          offsetof_lock_state t1).1 = (EFI_SUCCESS, y) ->
                       (tpm2_read_nvindex NV_INDEX_BOOTLOADER 1 [out]
                          offsetof_lock_state t2).1 = (EFI_SUCCESS, y)) ->
            (read_device_state_tpm2 out t1).1 = (EFI_SUCCESS, x) ->
            (read_device_state_tpm2 out t2).1 = (EFI_SUCCESS, x)).
  { intros out t1 t2 x H12. unfold read_device_state_tpm2.
    destruct (tpm2_read_nvindex _ _ _ _ t1) as [[ret1 d1] t1'] eqn:E1.
    destruct ret1; cbn [EFI_ERROR fst snd]; try done.
    intros [= <-].
    specialize (H12 d1 eq_refl).
    destruct (tpm2_read_nvindex _ _ _ _ t2) as [[ret2 d2] t2'].
    by simplify_eq/=. }
  split.
  - unfold write_rollback_index_tpm2.
    destruct (Z.leb_spec rollback_index_slots slot);
      [unfold rollback_index_slots in *; lia|].
    rewrite rollback_index_offset by done.
    intros Hw. split.
    + intros j out x Hj Hne. apply Hread; [done|]. intros y.
      apply tpm2_read_after_write; [done | done |].
      rewrite length_take, bytes_of_uint_length. lia.
    + intros out x. apply Hstate. intros y.
      apply tpm2_read_after_write; [done | done |].
      unfold offsetof_lock_state. lia.
  - unfold write_device_state_tpm2. intros Hw j out x Hj.
    apply Hread; [done|]. intros y.
    apply tpm2_read_after_write; [done | done |].
    unfold offsetof_lock_state. simpl. lia.
Qed.

(** No NV command clears a write lock, short of deleting the index. *)
Lemma tpm_exec_write_locked c nv_index t :
  keeps_index nv_index c = true ->
  nv_write_locked nv_index t = true ->
  nv_write_locked nv_index (tpm_exec c t) = true.
Proof.
  unfold nv_write_locked. intros Hk Hl.
  destruct c as [i n o|i d o|i|i|i a n|i]; simpl.
  5:{ destruct (tpm_nv t !! nv_index) as [s|] eqn:Hs; [|done].
      by rewrite (Tpm2NvDefineSpace_other i a n nv_index t s Hs). }
  5:{ by rewrite (Tpm2NvUndefineSpace_other i nv_index t
                    (keeps_index_undefine _ _ Hk)). }
  - by rewrite (proj1 (Tpm2NvRead_spec i n o t)).
  - unfold Tpm2NvWrite.
    pose proof (tpm_next_fault_nv t) as Hnv.
    destruct (tpm_next_fault t) as [[] t0]; simpl in *; rewrite ?Hnv; [done|].
    destruct (tpm_nv t !! i) as [s|] eqn:Hs; simpl; rewrite ?Hnv; [|done].
    destruct (TPMA_NV_WRITELOCKED s) eqn:Hwl; simpl; rewrite ?Hnv; [done|].
    destruct (_ <? _)%nat; simpl; rewrite ?Hnv; [done|].
    destruct (_ && _); simpl; rewrite ?Hnv; [done|].
    unfold set_nv; simpl; rewrite ?Hnv.
    destruct (decide (i = nv_index)) as [->|?];
      [rewrite lookup_insert_eq; simpl; rewrite Hs in Hl; congruence
      | by rewrite lookup_insert_ne].
  - unfold Tpm2NvReadLock.
    pose proof (tpm_next_fault_nv t) as Hnv.
    destruct (tpm_next_fault t) as [[] t0]; simpl in *; rewrite ?Hnv; [done|].
    destruct (tpm_nv t !! i) as [s|] eqn:Hs; simpl; rewrite ?Hnv; [|done].
    destruct (TPMA_NV_READ_STCLEAR s); simpl; rewrite ?Hnv; [|done].
    lock_bit_kept Hs Hl Hnv.
  - unfold Tpm2NvWriteLock.
    pose proof (tpm_next_fault_nv t) as Hnv.
    destruct (tpm_next_fault t) as [[] t0]; simpl in *; rewrite ?Hnv; [done|].
    destruct (tpm_nv t !! i) as [s|] eqn:Hs; simpl; rewrite ?Hnv; [|done].
    destruct (_ || _); simpl; rewrite ?Hnv; [|done].
    unfold set_nv; simpl; rewrite ?Hnv.
    destruct (decide (i = nv_index)) as [->|?];
      [by rewrite lookup_insert_eq | by rewrite lookup_insert_ne].
Qed.

Lemma tpm_run_write_locked cs nv_index t :
  forallb (keeps_index nv_index) cs = true ->
  nv_write_locked nv_index t = true ->
  nv_write_locked nv_index (tpm_run cs t) = true.
Proof.
  revert t. induction cs as [|c cs IH]; intros t Hk Hl; [done|].
  cbn [forallb] in Hk. apply andb_true_iff in Hk as [Hc Hk].
  simpl. apply IH; [done|]. by apply tpm_exec_write_locked.
Qed.

Lemma Tpm2NvWrite_locked idx d o t :
  nv_write_locked idx t = true ->
  EFI_ERROR (Tpm2NvWrite idx d o t).1 = true.
Proof.
  unfold nv_write_locked, Tpm2NvWrite. intros Hl.
  pose proof (tpm_next_fault_nv t) as Hnv.
  destruct (tpm_next_fault t) as [[] t0]; simpl in Hnv; [done|].
  rewrite Hnv.
  destruct (tpm_nv t !! idx) as [s|]; [|done].
  by rewrite Hl.
Qed.

Lemma tpm2_write_nvindex_loop_locked r idx d o t :
  nv_write_locked idx t = true ->
  EFI_ERROR (tpm2_write_nvindex_loop r idx d o t).1 = true.
Proof.
  revert t. induction r as [|r IH]; intros t Hl; cbn [tpm2_write_nvindex_loop];
    pose proof (Tpm2NvWrite_locked idx d o t Hl) as He;
    pose proof (tpm_exec_write_locked (CmdNvWrite idx d o) idx t eq_refl Hl)
      as Hl';
    simpl in Hl';
    destruct (Tpm2NvWrite idx d o t) as [ret t']; [done|].
  destruct r as [|r']; [done|].
  destruct (decide (ret = EFI_DEVICE_ERROR)) as [->|?]; [|done].
  by apply IH.
Qed.

Lemma tpm2_write_nvindex_locked idx n d o t :
  nv_write_locked idx t = true ->
  EFI_ERROR (tpm2_write_nvindex idx n d o t).1 = true.
Proof. apply tpm2_write_nvindex_loop_locked. Qed.

Lemma Tpm2NvReadLock_nofault idx t s :
  tpm_faults t = [] -> tpm_nv t !! idx = Some s ->
  TPMA_NV_READ_STCLEAR s = true ->
  Tpm2NvReadLock idx t
  = (EFI_SUCCESS,
     mk_tpm (<[idx := mk_nv_space (TPMA_NV_WRITEALL s) (TPMA_NV_READ_STCLEAR s)
                        (TPMA_NV_WRITE_STCLEAR s) (TPMA_NV_WRITEDEFINE s)
                        (TPMA_NV_WRITTEN s) true (TPMA_NV_WRITELOCKED s)
                        (nv_data s)]> (tpm_nv t)) []).
Proof.
  intros Hf Hs Hr. unfold Tpm2NvReadLock, tpm_next_fault, set_nv.
  by rewrite Hf, Hs, Hr, Hf.
Qed.

Lemma Tpm2NvWriteLock_nofault idx t s :
  tpm_faults t = [] -> tpm_nv t !! idx = Some s ->
  TPMA_NV_WRITE_STCLEAR s || TPMA_NV_WRITEDEFINE s = true ->
  Tpm2NvWriteLock idx t
  = (EFI_SUCCESS,
     mk_tpm (<[idx := mk_nv_space (TPMA_NV_WRITEALL s) (TPMA_NV_READ_STCLEAR s)
                        (TPMA_NV_WRITE_STCLEAR s) (TPMA_NV_WRITEDEFINE s)
                        (TPMA_NV_WRITTEN s) (TPMA_NV_READLOCKED s) true
                        (nv_data s)]> (tpm_nv t)) []).
Proof.
  intros Hf Hs Hr. unfold Tpm2NvWriteLock, tpm_next_fault, set_nv.
  by rewrite Hf, Hs, Hr, Hf.
Qed.

(** X3. [tpm2_end] returns [EFI_SUCCESS] whatever its three lock requests
    answered; when all three fail, the NV contents are as they were and
    nothing is sealed.  On a TPM that answers every command, when the
    bootloader index was defined with the read and write [STCLEAR]
    attributes and the seed index with the read one, [tpm2_end] seals the
    boot: after it, and whatever NV reads, writes, lock requests and index
    definitions follow in the same boot, reading or writing the lock state
    or a rollback index fails as long as the bootloader index is not
    deleted, and reading the seed fails as long as the seed index is not
    deleted. *)
Theorem tpm2_end_seals (t : tpm) :
  (tpm2_end t).1 = EFI_SUCCESS
  /\ (forall fs, tpm_faults t = true :: true :: true :: fs ->
        (tpm2_end t).2 = mk_tpm (tpm_nv t) fs)
  /\ (tpm_faults t = [] ->
      (exists s, tpm_nv t !! NV_INDEX_BOOTLOADER = Some s
                 /\ TPMA_NV_READ_STCLEAR s = true
                 /\ TPMA_NV_WRITE_STCLEAR s = true) ->
      (exists s, tpm_nv t !! NV_INDEX_TRUSTYOS_SEED = Some s
                 /\ TPMA_NV_READ_STCLEAR s = true) ->
      forall cs st out slot v seed,
        let t' := tpm_run cs (tpm2_end t).2 in
        (forallb (keeps_index NV_INDEX_BOOTLOADER) cs = true ->
         EFI_ERROR (read_device_state_tpm2 out t').1.1 = true
         /\ EFI_ERROR (read_rollback_index_tpm2 slot out t').1.1 = true
         /\ EFI_ERROR (write_device_state_tpm2 st t').1 = true
         /\ EFI_ERROR (write_rollback_index_tpm2 slot v t').1 = true)
        /\ (forallb (keeps_index NV_INDEX_TRUSTYOS_SEED) cs = true ->
            EFI_ERROR (tpm2_read_trusty_seed seed t').1.1 = true)).
Proof.
  split; [|split].
  { unfold tpm2_end.
    destruct (tpm2_read_lock_nvindex _ _) as [r1 t1].
    destruct (tpm2_read_lock_nvindex _ _) as [r2 t2].
    by destruct (tpm2_write_lock_nvindex _ _) as [r3 t3]. }
  { intros fs Hfs. destruct t as [nv faults]. simpl in Hfs. by subst faults. }
  intros Hf (sb & Hsb & Hrb & Hwb) (ss & Hss & Hrs).
  assert (NV_INDEX_TRUSTYOS_SEED <> NV_INDEX_BOOTLOADER) as Hne by done.
  assert (nv_read_locked NV_INDEX_TRUSTYOS_SEED (tpm2_end t).2 = true
          /\ nv_read_locked NV_INDEX_BOOTLOADER (tpm2_end t).2 = true
          /\ nv_write_locked NV_INDEX_BOOTLOADER (tpm2_end t).2 = true)
    as (Hl1 & Hl2 & Hl3).
  { unfold tpm2_end, tpm2_read_lock_nvindex, tpm2_write_lock_nvindex.
    rewrite (Tpm2NvReadLock_nofault _ _ _ Hf Hss Hrs).
    erewrite Tpm2NvReadLock_nofault;
      [| done | cbn [tpm_nv]; by rewrite lookup_insert_ne | done].
    erewrite Tpm2NvWriteLock_nofault;
      [| done | cbn [tpm_nv]; by rewrite lookup_insert_eq
       | cbn [TPMA_NV_WRITE_STCLEAR]; by rewrite Hwb].
    unfold nv_read_locked, nv_write_locked. cbn [fst snd tpm_nv].
    rewrite lookup_insert_eq.
    rewrite lookup_insert_ne, lookup_insert_ne, lookup_insert_eq by done.
    done. }
  intros cs st out slot v seed t'.
  split; [|intros Hk; by apply tpm2_read_trusty_seed_locked,
                        tpm_run_read_locked].
  intros Hk.
  pose proof (tpm_run_read_locked cs _ _ Hk Hl2) as G2.
  pose proof (tpm_run_write_locked cs _ _ Hk Hl3) as G3.
  fold t' in G2, G3.
  repeat split.
  - unfold read_device_state_tpm2.
    pose proof (tpm2_read_nvindex_locked NV_INDEX_BOOTLOADER 1 [out]
                  offsetof_lock_state t' G2) as H.
    destruct (tpm2_read_nvindex _ _ _ _ _) as [[ret d] t1]. simpl in H.
    by rewrite H.
  - unfold read_rollback_index_tpm2.
    destruct (rollback_index_slots <=? slot); [done|].
    match goal with
    | |- context [tpm2_read_nvindex ?i ?n ?d ?o t'] =>
        pose proof (tpm2_read_nvindex_locked i n d o t' G2) as H;
        destruct (tpm2_read_nvindex i n d o t') as [[ret d'] t1]
    end.
    simpl in H. by rewrite H.
  - by apply tpm2_write_nvindex_locked.
  - unfold write_rollback_index_tpm2.
    destruct (rollback_index_slots <=? slot); [done|].
    by apply tpm2_write_nvindex_locked.
Qed.

Lemma Tpm2NvWrite_fault idx d o nv fs :
  Tpm2NvWrite idx d o (mk_tpm nv (true :: fs)) = (EFI_DEVICE_ERROR, mk_tpm nv fs).
Proof. reflexivity. Qed.

Lemma Tpm2NvRead_fault idx n o nv fs :
  Tpm2NvRead idx n o (mk_tpm nv (true :: fs)) = (EFI_DEVICE_ERROR, [], mk_tpm nv fs).
Proof. reflexivity. Qed.

Lemma tpm2_write_nvindex_loop_step r idx d o t :
  tpm2_write_nvindex_loop (S (S r)) idx d o t
  = (let '(ret, t') := Tpm2NvWrite idx d o t in
     if decide (ret = EFI_DEVICE_ERROR)
     then tpm2_write_nvindex_loop (S r) idx d o t' else (ret, t')).
Proof. reflexivity. Qed.

Lemma tpm2_read_nvindex_loop_step r idx n o t :
  tpm2_read_nvindex_loop (S (S r)) idx n o t
  = (let '(ret, buffer, t') := Tpm2NvRead idx n o t in
     if decide (ret = EFI_DEVICE_ERROR)
     then tpm2_read_nvindex_loop (S r) idx n o t' else (ret, buffer, t')).
Proof. reflexivity. Qed.

Lemma tpm2_write_nvindex_loop_retries r k idx d o nv rest :
  (k < r)%nat ->
  tpm2_write_nvindex_loop r idx d o (mk_tpm nv (replicate k true ++ false :: rest))
  = Tpm2NvWrite idx d o (mk_tpm nv (false :: rest)).
Proof.
  revert r. induction k as [|k IH]; intros r Hk.
  - by apply tpm2_write_nvindex_loop_answered.
  - destruct r as [|[|r]]; [lia | lia |].
    cbn [replicate app]. rewrite tpm2_write_nvindex_loop_step, Tpm2NvWrite_fault.
    destruct (decide (EFI_DEVICE_ERROR = EFI_DEVICE_ERROR)); [|done].
    apply IH. lia.
Qed.

Lemma tpm2_read_nvindex_loop_retries r k idx n o nv rest :
  (k < r)%nat ->
  tpm2_read_nvindex_loop r idx n o (mk_tpm nv (replicate k true ++ false :: rest))
  = Tpm2NvRead idx n o (mk_tpm nv (false :: rest)).
Proof.
  revert r. induction k as [|k IH]; intros r Hk.
  - by apply tpm2_read_nvindex_loop_answered.
  - destruct r as [|[|r]]; [lia | lia |].
    cbn [replicate app]. rewrite tpm2_read_nvindex_loop_step, Tpm2NvRead_fault.
    destruct (decide (EFI_DEVICE_ERROR = EFI_DEVICE_ERROR)); [|done].
    apply IH. lia.
Qed.

(** X4. [tpm2_write_nvindex] and [tpm2_read_nvindex] issue the command up to
    five times: up to four [EFI_DEVICE_ERROR] answers in a row are not seen by
    the caller, five give [EFI_DEVICE_ERROR] after exactly five commands and
    leave the NV contents and the caller's buffer as they were. *)
Theorem tpm2_nvindex_retries (idx : Z) (n o : nat) (d data : list Z)
    (nv : gmap Z nv_space) (rest : list bool) (k : nat) :
  (k <= 4)%nat ->
  tpm2_write_nvindex idx n d o (mk_tpm nv (replicate k true ++ false :: rest))
  = tpm2_write_nvindex idx n d o (mk_tpm nv (false :: rest))
  /\ tpm2_read_nvindex idx n data o (mk_tpm nv (replicate k true ++ false :: rest))
     = tpm2_read_nvindex idx n data o (mk_tpm nv (false :: rest))
  /\ tpm2_write_nvindex idx n d o (mk_tpm nv (replicate 5 true ++ rest))
     = (EFI_DEVICE_ERROR, mk_tpm nv rest)
  /\ tpm2_read_nvindex idx n data o (mk_tpm nv (replicate 5 true ++ rest))
     = (EFI_DEVICE_ERROR, data, mk_tpm nv rest).
Proof.
  intros Hk. unfold tpm2_write_nvindex, tpm2_read_nvindex.
  split; [|split; [|split]]; [| | reflexivity | reflexivity].
  - rewrite tpm2_write_nvindex_loop_retries by lia.
    by rewrite tpm2_write_nvindex_loop_answered.
  - rewrite tpm2_read_nvindex_loop_retries by lia.
    by rewrite tpm2_read_nvindex_loop_answered.
Qed.

Lemma tpm2_nvindex_retries_witness :
  (tpm2_read_nvindex NV_INDEX_BOOTLOADER 1 [0] 1
     (example_tpm [true; true; true; true; false])).1 = (EFI_SUCCESS, [0])
  /\ (tpm2_read_nvindex NV_INDEX_BOOTLOADER 1 [7] 1
        (example_tpm [true; true; true; true; true])).1 = (EFI_DEVICE_ERROR, [7]).
Proof.
  destruct (tpm2_nvindex_retries NV_INDEX_BOOTLOADER 1 1 [0] [0] example_nv [] 4
              ltac:(lia)) as (_ & Hr & _).
  destruct (tpm2_nvindex_retries NV_INDEX_BOOTLOADER 1 1 [7] [7] example_nv [] 4
              ltac:(lia)) as (_ & _ & _ & Hf).
  split.
  - change (example_tpm [true; true; true; true; false])
      with (mk_tpm example_nv (replicate 4 true ++ [false])).
    rewrite Hr. vm_compute. reflexivity.
  - change (example_tpm [true; true; true; true; true])
      with (mk_tpm example_nv (replicate 5 true ++ [])).
    by rewrite Hf.
Defined.

Lemma write_device_state_tpm2_read_back_witness :
  (read_device_state_tpm2 0 (write_device_state_tpm2 1 (example_tpm [])).2).1
  = (EFI_SUCCESS, 1).
Proof.
  apply (write_device_state_tpm2_read_back 1 0 (example_tpm []));
    [lia | reflexivity | vm_compute; reflexivity | vm_compute; reflexivity].
Defined.

Lemma tpm2_bootloader_fields_disjoint_witness :
  (read_rollback_index_tpm2 0 0 (write_rollback_index_tpm2 3 9 (example_tpm [])).2).1
  = (EFI_SUCCESS, 5)
  /\ (read_device_state_tpm2 7 (write_rollback_index_tpm2 3 9 (example_tpm [])).2).1
     = (EFI_SUCCESS, 0).
Proof.
  destruct (tpm2_bootloader_fields_disjoint (example_tpm []) 3 9 0
              ltac:(reflexivity) ltac:(lia)) as [H _].
  destruct (H ltac:(vm_compute; reflexivity)) as [Hslots Hstate].
  split.
  - apply Hslots; [lia | lia | vm_compute; reflexivity].
  - apply Hstate. vm_compute. reflexivity.
Defined.

Lemma tpm2_end_seals_witness :
  EFI_ERROR (write_rollback_index_tpm2 0 6 (tpm2_end (example_tpm [])).2).1 = true
  /\ EFI_ERROR (read_device_state_tpm2 0 (tpm2_end (example_tpm [])).2).1.1 = true
  /\ (tpm2_end (example_tpm [true; true; true])).1 = EFI_SUCCESS
  /\ (tpm2_end (example_tpm [true; true; true])).2 = example_tpm [].
Proof.
  destruct (tpm2_end_seals (example_tpm [])) as (_ & _ & H).
  destruct (tpm2_end_seals (example_tpm [true; true; true])) as (Hr & Hn & _).
  split; [|split; [|split; [exact Hr | exact (Hn [] eq_refl)]]].
  - destruct (H eq_refl) with (cs := @nil tpm_command) (st := 0) (out := 0)
      (slot := 0) (v := 6) (seed := @nil Z) as [Hb _].
    + eexists. split; [vm_compute; reflexivity|]. split; reflexivity.
    + eexists. split; [vm_compute; reflexivity|]. reflexivity.
    + destruct (Hb eq_refl) as (_ & _ & _ & H4). exact H4.
  - destruct (H eq_refl) with (cs := @nil tpm_command) (st := 0) (out := 0)
      (slot := 0) (v := 6) (seed := @nil Z) as [Hb _].
    + eexists. split; [vm_compute; reflexivity|]. split; reflexivity.
    + eexists. split; [vm_compute; reflexivity|]. reflexivity.
    + destruct (Hb eq_refl) as (H1 & _). exact H1.
Defined.

(** ** The device state and the cached variables *)

Lemma read_device_state_efi_after_write st out vs :
  var_faults vs = [] ->
  read_device_state_efi out (write_device_state_efi st vs).2
  = (EFI_SUCCESS, st, (write_device_state_efi st vs).2)
  /\ (write_device_state_efi st vs).1 = EFI_SUCCESS.
Proof.
  intros Hf. unfold write_device_state_efi, read_device_state_efi.
  rewrite set_efi_variable_nofault by done. cbn [fst snd].
  rewrite get_efi_variable_nofault by done. cbn [vars].
  by rewrite lookup_insert_eq.
Qed.

(** X5. Outside a live boot and the TEE path, with a TPM and a variable
    store that answer every call and, where the state is kept in the TPM, a
    bootloader index that is not read-locked, a lock state that
    [set_current_state] stored with success is the one [get_current_state]
    returns, also after [refresh_current_state] has dropped the cached
    value and read the TPM or [OEMLock] again. *)
Theorem set_current_state_persists (reply : Z -> EFI_STATUS)
    (cfg : build_config) (p : platform) (d : device_state) (s : state) :
  is_live_boot p = false ->
  tee_tpm p = false ->
  tpm_faults (st_tpm s) = [] ->
  var_faults (st_vars s) = [] ->
  (andr_tpm p = true -> nv_read_locked NV_INDEX_BOOTLOADER (st_tpm s) = false) ->
  (set_current_state reply p d s).1 = EFI_SUCCESS ->
  let s1 := (set_current_state reply p d s).2 in
  (get_current_state cfg p s1).1 = d
  /\ (refresh_current_state cfg p s1).1 = EFI_SUCCESS
  /\ current_state (refresh_current_state cfg p s1).2 = d
  /\ (device_is_locked cfg p (refresh_current_state cfg p s1).2).1
     = bool_decide (d = LOCKED).
Proof.
  intros Hlive Htee Hft Hfv Hrl.
  assert (forall st, 0 <= st < 256 ->
            (write_stored_state reply p st s).1 = EFI_SUCCESS ->
            (read_stored_state p 0
               (with_current_state (with_current_state
                  (write_stored_state reply p st s).2 d) UNKNOWN_STATE)).1
            = (EFI_SUCCESS, st)) as Hrw.
  { intros st Hst. unfold write_stored_state, read_stored_state.
    rewrite Hlive, Htee.
    destruct (andr_tpm p) eqn:Handr.
    - pose proof (read_device_state_tpm2_after_write st 0 (st_tpm s) Hst Hft
                    (Hrl eq_refl)) as Hr.
      destruct (write_device_state_tpm2 st (st_tpm s)) as [ret t] eqn:Ew.
      cbn [fst snd] in *. intros ->. cbn [st_tpm with_tpm with_current_state].
      by rewrite Hr.
    - destruct (read_device_state_efi_after_write st 0 (st_vars s) Hfv)
        as [Hr Hw].
      destruct (write_device_state_efi st (st_vars s)) as [ret vs] eqn:Ew.
      cbn [fst snd] in *. intros _. cbn [st_vars with_vars with_current_state].
      by rewrite Hr. }
  assert (forall st, 0 <= st < 256 ->
            (write_stored_state reply p st s).1 = EFI_SUCCESS ->
            current_state
              (get_current_state cfg p
                 (with_current_state (with_current_state
                    (write_stored_state reply p st s).2 d) UNKNOWN_STATE)).2
            = (if Z.land st OEM_LOCK_UNLOCKED =? 0 then LOCKED else UNLOCKED)
            /\ (get_current_state cfg p
                 (with_current_state (with_current_state
                    (write_stored_state reply p st s).2 d) UNKNOWN_STATE)).1
               = (if Z.land st OEM_LOCK_UNLOCKED =? 0 then LOCKED else UNLOCKED))
    as Hget.
  { intros st Hst Hw. specialize (Hrw st Hst Hw).
    unfold get_current_state. cbn [current_state with_current_state].
    rewrite Hlive.
    destruct (read_stored_state p 0 _) as [[ret stored] s2].
    cbn [fst snd] in Hrw. injection Hrw as -> ->.
    cbn [bool_decide andb EFI_ERROR]. rewrite bool_decide_eq_false_2 by done.
    cbn [andb]. by destruct (Z.land st OEM_LOCK_UNLOCKED =? 0). }
  unfold set_current_state, refresh_current_state, device_is_locked.
  destruct d; cbn [fst snd]; [done| |].
  - destruct (write_stored_state reply p 0 s) as [ret s'] eqn:Ew.
    destruct ret; cbn [EFI_ERROR fst snd]; try done. intros _.
    destruct (Hget 0 ltac:(lia)) as [H1 H2]; [by rewrite Ew|].
    rewrite Ew in H1, H2. cbn [fst snd] in H1, H2.
    destruct (get_current_state cfg p (with_current_state _ UNKNOWN_STATE))
      as [d' s3] eqn:Eg.
    cbn [fst snd] in *. change (Z.land 0 OEM_LOCK_UNLOCKED =? 0) with true in *.
    repeat split; try done.
    unfold get_current_state. rewrite H1. done.
  - destruct (write_stored_state reply p OEM_LOCK_UNLOCKED s) as [ret s'] eqn:Ew.
    destruct ret; cbn [EFI_ERROR fst snd]; try done. intros _.
    destruct (Hget OEM_LOCK_UNLOCKED ltac:(unfold OEM_LOCK_UNLOCKED; lia))
      as [H1 H2]; [by rewrite Ew|].
    rewrite Ew in H1, H2. cbn [fst snd] in H1, H2.
    destruct (get_current_state cfg p (with_current_state _ UNKNOWN_STATE))
      as [d' s3] eqn:Eg.
    cbn [fst snd] in *.
    change (Z.land OEM_LOCK_UNLOCKED OEM_LOCK_UNLOCKED =? 0) with false in *.
    repeat split; try done.
    unfold get_current_state. rewrite H1. done.
Qed.

(** X6. [set_current_state] refuses [UNKNOWN_STATE] with
    [EFI_INVALID_PARAMETER] and no effect; when it returns an error the cached
    state, the provisioning flag, the NV contents and the variables are what
    they were; in a live boot it sets the cached state and stores nothing. *)
Theorem set_current_state_failure (reply : Z -> EFI_STATUS) (p : platform)
    (d : device_state) (s : state) :
  set_current_state reply p UNKNOWN_STATE s = (EFI_INVALID_PARAMETER, s)
  /\ (EFI_ERROR (set_current_state reply p d s).1 = true ->
      let s' := (set_current_state reply p d s).2 in
      current_state s' = current_state s
      /\ provisioning_mode s' = provisioning_mode s
      /\ tpm_nv (st_tpm s') = tpm_nv (st_tpm s)
      /\ vars (st_vars s') = vars (st_vars s))
  /\ (is_live_boot p = true -> d <> UNKNOWN_STATE ->
      set_current_state reply p d s = (EFI_SUCCESS, with_current_state s d)).
Proof.
  split; [done|].
  assert (forall st,
            EFI_ERROR (write_stored_state reply p st s).1 = true ->
            let s' := (write_stored_state reply p st s).2 in
            current_state s' = current_state s
            /\ provisioning_mode s' = provisioning_mode s
            /\ tpm_nv (st_tpm s') = tpm_nv (st_tpm s)
            /\ vars (st_vars s') = vars (st_vars s)) as Hw.
  { intros st. unfold write_stored_state.
    destruct (is_live_boot p); [done|].
    destruct (tee_tpm p); [done|].
    destruct (andr_tpm p).
    - unfold write_device_state_tpm2, tpm2_write_nvindex.
      pose proof (proj2 (tpm2_write_nvindex_loop_spec 5 NV_INDEX_BOOTLOADER
                          (take 1 [st]) offsetof_lock_state (st_tpm s))) as Hnv.
      destruct (tpm2_write_nvindex_loop _ _ _ _ _) as [ret t'].
      cbn [fst snd] in *. intros He. cbn [with_tpm current_state
        provisioning_mode st_tpm st_vars].
      repeat split; try done. apply Hnv. by destruct ret.
    - unfold write_device_state_efi, set_efi_variable, var_next_fault.
      destruct (var_faults (st_vars s)) as [|[] fs]; cbn; by intros. }
  split.
  - unfold set_current_state.
    destruct d; cbn [fst snd]; [done| |].
    + specialize (Hw 0).
      destruct (write_stored_state reply p 0 s) as [ret s'].
      cbn [fst snd] in *. destruct (EFI_ERROR ret) eqn:E; [|done].
      cbn [fst snd]. intros _. by apply Hw.
    + specialize (Hw OEM_LOCK_UNLOCKED).
      destruct (write_stored_state reply p OEM_LOCK_UNLOCKED s) as [ret s'].
      cbn [fst snd] in *. destruct (EFI_ERROR ret) eqn:E; [|done].
      cbn [fst snd]. intros _. by apply Hw.
  - intros Hlive Hd. unfold set_current_state, write_stored_state.
    rewrite Hlive. by destruct d.
Qed.

(** X7. [get_current_state] never returns [UNKNOWN_STATE], leaves its result
    in the cache, and from then on answers from the cache alone: no storage is
    read and the state is not changed, on whatever platform. *)
Theorem get_current_state_cached (cfg : build_config) (p : platform) (s : state) :
  let r := get_current_state cfg p s in
  r.1 <> UNKNOWN_STATE
  /\ current_state r.2 = r.1
  /\ (forall p' s2, current_state s2 = r.1 ->
        get_current_state cfg p' s2 = (r.1, s2)).
Proof.
  cbv zeta.
  assert ((get_current_state cfg p s).1 <> UNKNOWN_STATE
          /\ current_state (get_current_state cfg p s).2
             = (get_current_state cfg p s).1) as [H1 H2].
  { unfold get_current_state.
    destruct (current_state s) eqn:Hc; [|cbn [fst snd]; by rewrite Hc..].
    destruct (is_live_boot p); [done|].
    destruct (read_stored_state p 0 s) as [[ret stored] s1].
    destruct (bool_decide (ret = EFI_NOT_FOUND) && negb (is_boot_device_virtual p)).
    - destruct (life_cycle_is_enduser p) as [lret enduser].
      destruct (EFI_ERROR lret).
      + by destruct (bool_decide (lret = EFI_NOT_FOUND)).
      + destruct enduser; cbn [negb]; [|done]. by destruct (USER cfg).
    - destruct (EFI_ERROR ret); [by destruct (USER cfg)|].
      by destruct (Z.land stored OEM_LOCK_UNLOCKED =? 0). }
  split; [done|]. split; [done|].
  intros p' s2 Hs2. unfold get_current_state at 1. rewrite Hs2.
  by destruct ((get_current_state cfg p s).1).
Qed.

(** X8. At the first query of a boot the device is in provisioning mode
    exactly when it is no live boot, the stored lock state is missing
    ([EFI_NOT_FOUND]), the boot device is not virtual, and the life cycle is
    unknown ([EFI_NOT_FOUND]) or read without error as not end-user or on a
    build without [USER]; in provisioning mode the state is [UNLOCKED]. *)
Theorem get_current_state_provisioning (cfg : build_config) (p : platform)
    (s : state) :
  current_state s = UNKNOWN_STATE ->
  provisioning_mode s = false ->
  let r := get_current_state cfg p s in
  let lc := life_cycle_is_enduser p in
  ((device_is_provisioning cfg p s).1 = provisioning_mode r.2)
  /\ (provisioning_mode r.2 = true <->
      is_live_boot p = false
      /\ (read_stored_state p 0 s).1.1 = EFI_NOT_FOUND
      /\ is_boot_device_virtual p = false
      /\ (lc.1 = EFI_NOT_FOUND
          \/ (EFI_ERROR lc.1 = false /\ (lc.2 = false \/ USER cfg = false))))
  /\ (provisioning_mode r.2 = true -> r.1 = UNLOCKED).
Proof.
  intros Hc Hp. cbv zeta.
  split; [unfold device_is_provisioning;
          by destruct (get_current_state cfg p s)|].
  assert (forall t, provisioning_mode (with_tpm s t) = false) as Ht by done.
  assert (forall vs, provisioning_mode (with_vars s vs) = false) as Hv by done.
  assert (provisioning_mode (read_stored_state p 0 s).2 = false) as Hp1.
  { unfold read_stored_state.
    destruct (tee_tpm p); [by destruct (tee_read_device_state_tpm2 p)|].
    destruct (andr_tpm p).
    - by destruct (read_device_state_tpm2 0 (st_tpm s)) as [[? ?] ?].
    - by destruct (read_device_state_efi 0 (st_vars s)) as [[? ?] ?]. }
  unfold get_current_state. rewrite Hc.
  destruct (is_live_boot p).
  { cbn. rewrite Hp. split; [|done]. split; [done|]. by intros [? _]. }
  destruct (read_stored_state p 0 s) as [[ret stored] s1]. cbn [fst snd] in *.
  destruct (bool_decide (ret = EFI_NOT_FOUND)) eqn:Enf; cbn [andb].
  2:{ apply bool_decide_eq_false in Enf.
      assert (forall d, provisioning_mode (with_current_state s1 d) = false)
        as Hw by done.
      destruct (EFI_ERROR ret).
      - cbn [fst snd]. rewrite Hw. split; [|done]. split; [done|].
        by intros (_ & ? & _).
      - cbn [fst snd]. rewrite Hw. split; [|done]. split; [done|].
        by intros (_ & ? & _). }
  apply bool_decide_eq_true in Enf. subst ret.
  destruct (is_boot_device_virtual p); cbn [negb].
  { cbn [EFI_ERROR fst snd with_current_state provisioning_mode].
    rewrite Hp1. split; [|done]. split; [done|]. by intros (_ & _ & ? & _). }
  destruct (life_cycle_is_enduser p) as [lret enduser]. cbn [fst snd].
  destruct (EFI_ERROR lret) eqn:El.
  - destruct (bool_decide (lret = EFI_NOT_FOUND)) eqn:Elnf; cbn.
    + apply bool_decide_eq_true in Elnf. split; [|done].
      split; [intros _|done]. repeat split; try done. by left.
    + apply bool_decide_eq_false in Elnf. split; [|done].
      split; [done|]. intros (_ & _ & _ & [?|[? _]]); congruence.
  - destruct enduser; cbn [negb].
    + destruct (USER cfg); cbn.
      * split; [|done]. split; [done|].
        intros (_ & _ & _ & [->|[_ [?|?]]]); done.
      * split; [|done]. split; [intros _|done]. repeat split; try done.
        right. split; [done|]. by right.
    + cbn. split; [|done]. split; [intros _|done]. repeat split; try done.
      right. split; [done|]. by left.
Qed.

(** X9. After a successful [set_boolean_var] a read through the cache
    returns the value that was set without touching the store, and so does a
    read with an empty cache from the store; after a failed one the cache and
    the variables are unchanged. *)
Theorem set_boolean_var_read_back (guid : efi_guid) (varname : string)
    (cache : bool_value_t) (enabled runtime dflt : bool) (vs : varstore) :
  let r := set_boolean_var guid varname cache enabled runtime vs in
  (r.1.1 = EFI_SUCCESS ->
   (forall vs', get_current_boolean_var guid varname r.1.2 dflt vs'
                = (enabled, r.1.2, vs'))
   /\ (var_faults r.2 = [] ->
       forall c0, is_cached c0 = false ->
         (get_current_boolean_var guid varname c0 dflt r.2).1
         = (enabled, mk_bool_value true enabled)))
  /\ (EFI_ERROR r.1.1 = true -> r.1.2 = cache /\ vars r.2 = vars vs).
Proof.
  cbv zeta. unfold set_boolean_var, set_efi_variable, var_next_fault.
  destruct (var_faults vs) as [|[] fs]; cbn [fst snd EFI_ERROR].
  - split; [|done]. intros _. split; [done|]. intros Hf c0 Hc0.
    unfold get_current_boolean_var. rewrite Hc0.
    rewrite get_efi_variable_nofault by done. cbn [vars].
    rewrite lookup_insert_eq. by destruct enabled.
  - split; [done|]. by intros _.
  - split; [|done]. intros _. split; [done|]. intros Hf c0 Hc0.
    unfold get_current_boolean_var. rewrite Hc0.
    rewrite get_efi_variable_nofault by done. cbn [vars].
    rewrite lookup_insert_eq. by destruct enabled.
Qed.

(** X10. The watchdog status round trip: a counter other than 0 and a time
    reference that were stored are what [get_watchdog_status] returns;
    [reset_watchdog_status] makes the status read as counter 0 with the
    caller's time untouched; a counter stored without a time reference reads
    as [EFI_NOT_FOUND]. *)
Theorem watchdog_status_round_trip (counter c0 : Z) (time t0 : EFI_TIME)
    (vs : varstore) :
  var_faults vs = [] ->
  counter <> 0 ->
  length time = sizeof_EFI_TIME ->
  let vs1 := (set_watchdog_time_reference (Some time)
                (set_watchdog_counter counter vs).2).2 in
  let vs2 := (reset_watchdog_status vs1).2 in
  get_watchdog_status c0 t0 vs1 = (EFI_SUCCESS, counter, time, vs1)
  /\ (reset_watchdog_status vs1).1 = EFI_SUCCESS
  /\ get_watchdog_status c0 t0 vs2 = (EFI_SUCCESS, 0, t0, vs2)
  /\ (get_watchdog_status c0 t0 (set_watchdog_counter counter vs2).2).1.1.1
     = EFI_NOT_FOUND.
Proof.
  intros Hf Hc Hlen. cbv zeta.
  unfold set_watchdog_counter.
  destruct (Z.eqb_spec counter 0) as [?|_]; [done|].
  unfold set_watchdog_time_reference.
  rewrite (set_efi_variable_nofault _ _ _ _ _ vs) by done. cbn [fst snd].
  rewrite (set_efi_variable_nofault _ WDT_TIME_REF) by done. cbn [fst snd vars].
  set (m := <[(fastboot_guid, WDT_TIME_REF) := _]> _).
  assert (m !! (fastboot_guid, WDT_COUNTER)
          = Some (mk_efi_variable true false [counter])) as Hmc
    by (unfold m; rewrite lookup_insert_ne by done; by rewrite lookup_insert_eq).
  assert (m !! (fastboot_guid, WDT_TIME_REF)
          = Some (mk_efi_variable true false time)) as Hmt
    by (unfold m; by rewrite lookup_insert_eq).
  assert (get_watchdog_status c0 t0 (mk_varstore m [])
          = (EFI_SUCCESS, counter, time, mk_varstore m [])) as H1.
  { unfold get_watchdog_status, get_efi_variable_byte.
    rewrite get_efi_variable_nofault by done. cbn [vars]. rewrite Hmc.
    cbn [var_data]. rewrite bool_decide_eq_false_2 by done. cbn [EFI_ERROR].
    rewrite get_efi_variable_nofault by done. cbn [vars]. rewrite Hmt.
    cbn [var_data]. rewrite Hlen. by rewrite Nat.eqb_refl. }
  split; [exact H1|].
  unfold reset_watchdog_status, set_watchdog_counter.
  cbn [Z.eqb]. unfold set_watchdog_time_reference, del_efi_variable,
    var_next_fault. cbn [var_faults vars]. rewrite Hmc. cbn [EFI_ERROR var_faults vars].
  rewrite lookup_delete_ne, Hmt by done. cbn [fst snd].
  split; [done|].
  set (m2 := delete (fastboot_guid, WDT_TIME_REF) _).
  assert (m2 !! (fastboot_guid, WDT_COUNTER) = None) as Hm2c
    by (unfold m2; rewrite lookup_delete_ne by done; by rewrite lookup_delete_eq).
  assert (m2 !! (fastboot_guid, WDT_TIME_REF) = None) as Hm2t
    by (unfold m2; by rewrite lookup_delete_eq).
  split.
  - unfold get_watchdog_status, get_efi_variable_byte.
    rewrite get_efi_variable_nofault by done. cbn [vars]. rewrite Hm2c.
    by rewrite bool_decide_eq_true_2.
  - rewrite set_efi_variable_nofault by done. cbn [fst snd].
    unfold get_watchdog_status, get_efi_variable_byte.
    rewrite get_efi_variable_nofault by done. cbn [vars].
    rewrite lookup_insert_eq. cbn [var_data].
    rewrite bool_decide_eq_false_2 by done. cbn [EFI_ERROR].
    rewrite get_efi_variable_nofault by done. cbn [vars].
    rewrite lookup_insert_ne, Hm2t by done. done.
Qed.

Lemma set_current_state_persists_witness :
  let s1 := (set_current_state (fun _ => EFI_SUCCESS) example_platform LOCKED
               (boot_state vars_oem_lock_runtime)).2 in
  current_state (refresh_current_state userdebug_build example_platform s1).2
  = LOCKED.
Proof.
  apply (set_current_state_persists (fun _ => EFI_SUCCESS) userdebug_build
           example_platform LOCKED (boot_state vars_oem_lock_runtime));
    [reflexivity | reflexivity | reflexivity | reflexivity
    | intros H; discriminate H | reflexivity].
Defined.

Lemma set_current_state_failure_witness :
  let s := with_vars (boot_state ∅) (mk_varstore ∅ [true]) in
  (set_current_state (fun _ => EFI_SUCCESS) example_platform UNLOCKED s).1
  = EFI_DEVICE_ERROR
  /\ current_state
       (set_current_state (fun _ => EFI_SUCCESS) example_platform UNLOCKED s).2
     = UNKNOWN_STATE.
Proof.
  cbv zeta. split; [reflexivity|].
  destruct (set_current_state_failure (fun _ => EFI_SUCCESS) example_platform
              UNLOCKED (with_vars (boot_state ∅) (mk_varstore ∅ [true])))
    as (_ & H & _).
  destruct (H ltac:(reflexivity)) as (Hc & _). exact Hc.
Defined.

Lemma get_current_state_cached_witness :
  get_current_state user_build example_platform
    (with_vars
       (get_current_state user_build example_platform (boot_state ∅)).2
       (mk_varstore vars_oem_lock_runtime []))
  = (LOCKED,
     with_vars
       (get_current_state user_build example_platform (boot_state ∅)).2
       (mk_varstore vars_oem_lock_runtime [])).
Proof.
  destruct (get_current_state_cached user_build example_platform (boot_state ∅))
    as (_ & _ & H).
  apply (H example_platform). reflexivity.
Defined.

Lemma get_current_state_provisioning_witness :
  provisioning_mode
    (get_current_state userdebug_build example_platform (boot_state ∅)).2 = true
  /\ (get_current_state userdebug_build example_platform (boot_state ∅)).1
     = UNLOCKED.
Proof.
  destruct (get_current_state_provisioning userdebug_build example_platform
              (boot_state ∅) eq_refl eq_refl) as (_ & Hiff & Hun).
  assert (provisioning_mode
            (get_current_state userdebug_build example_platform (boot_state ∅)).2
          = true) as H.
  { apply Hiff. repeat split; try reflexivity.
    right. split; [reflexivity|]. by right. }
  split; [exact H | exact (Hun H)].
Defined.

Lemma set_boolean_var_read_back_witness :
  let r := set_boolean_var fastboot_guid OFF_MODE_CHARGE
             (mk_bool_value false false) false true (mk_varstore ∅ []) in
  (get_current_boolean_var fastboot_guid OFF_MODE_CHARGE
     (mk_bool_value false false) true r.2).1.1 = false.
Proof.
  cbv zeta.
  destruct (set_boolean_var_read_back fastboot_guid OFF_MODE_CHARGE
              (mk_bool_value false false) false true true (mk_varstore ∅ []))
    as [H _].
  destruct (H eq_refl) as [_ H2].
  by rewrite (H2 eq_refl (mk_bool_value false false) eq_refl).
Defined.

Lemma watchdog_status_round_trip_witness :
  let vs1 := (set_watchdog_time_reference (Some (example_time 900))
                (set_watchdog_counter 2 (mk_varstore ∅ [])).2).2 in
  get_watchdog_status 0 (replicate 16 0) vs1
  = (EFI_SUCCESS, 2, example_time 900, vs1).
Proof.
  cbv zeta.
  destruct (watchdog_status_round_trip 2 0 (example_time 900) (replicate 16 0)
              (mk_varstore ∅ []) eq_refl ltac:(done) eq_refl) as [H _].
  exact H.
Defined.

(** ** Identification strings, the boot reason and the boot requests *)

Lemma strlena_Some (a : list Z) (n : nat) :
  strlena a = Some n <->
  a !! n = Some 0 /\ forall i, (i < n)%nat -> exists c, a !! i = Some c /\ c <> 0.
Proof.
  revert n. induction a as [|c a IH]; intros n.
  - split; [done | by intros [? _]].
  - cbn [strlena]. destruct (Z.eqb_spec c 0) as [->|Hc].
    + split.
      * intros [= <-]. split; [done|]. lia.
      * intros [Hn Hlt]. destruct n as [|n]; [done|].
        destruct (Hlt 0%nat ltac:(lia)) as (c & Hc0 & Hne). by simplify_eq/=.
    + split.
      * destruct (strlena a) as [m|] eqn:E; [|done]. cbn. intros [= <-].
        destruct (proj1 (IH m) eq_refl) as [Hm Hlt].
        split; [done|]. intros [|i] Hi; [by exists c|].
        apply Hlt. lia.
      * intros [Hn Hlt]. destruct n as [|n]; [by simplify_eq/=|].
        rewrite (proj2 (IH n)); [done|]. split; [done|].
        intros i Hi. apply (Hlt (S i)). lia.
Qed.

Lemma CDD_clean_chars_spec (buf : list Z) (n : nat) :
  strlena buf = Some n ->
  strlena (CDD_clean_chars buf) = Some n
  /\ length (CDD_clean_chars buf) = length buf
  /\ (forall i c, (i < n)%nat -> buf !! i = Some c ->
        CDD_clean_chars buf !! i
        = Some (if CDD_valid_char c then tolower c else 95))
  /\ (forall i, (n <= i)%nat -> CDD_clean_chars buf !! i = buf !! i).
Proof.
  revert n. induction buf as [|c buf IH]; intros n; [done|].
  cbn [strlena CDD_clean_chars].
  destruct (Z.eqb_spec c 0) as [->|Hc].
  - intros [= <-]. cbn [strlena]. repeat split; try done. lia.
  - destruct (strlena buf) as [m|] eqn:E; [|done]. cbn. intros [= <-].
    destruct (IH m eq_refl) as (H1 & H2 & H3 & H4).
    assert ((if CDD_valid_char c then tolower c else 95) <> 0) as Hne.
    { unfold CDD_valid_char, tolower. repeat case_match; lia. }
    destruct (Z.eqb_spec (if CDD_valid_char c then tolower c else 95) 0);
      [done|].
    rewrite H1. repeat split; try done.
    + by rewrite H2.
    + intros [|i] x Hi Hx; [by simplify_eq/=|]. apply H3; [lia | done].
    + intros [|i] Hi; [lia|]. apply H4. lia.
Qed.

Lemma CDD_cleaned_char_ok c :
  c <> 0 -> CDD_clean_char (if CDD_valid_char c then tolower c else 95) = true.
Proof.
  intros Hc. unfold CDD_clean_char, CDD_valid_char, tolower.
  repeat case_match; lia.
Qed.

Lemma CDD_trim_spec (turns : nat) (buf : list Z) (n : nat) :
  strlena buf = Some n -> (n <= turns)%nat ->
  exists m, strlena (CDD_trim turns buf) = Some m
    /\ (m <= n)%nat
    /\ length (CDD_trim turns buf) = length buf
    /\ (forall i, (i < m)%nat -> CDD_trim turns buf !! i = buf !! i)
    /\ (forall i, (n <= i)%nat -> CDD_trim turns buf !! i = buf !! i)
    /\ (forall i, (m <= i < n)%nat ->
          CDD_trim turns buf !! i = Some 0
          /\ (buf !! i = Some 95 \/ buf !! i = Some 46))
    /\ (m = 0%nat
        \/ exists c, CDD_trim turns buf !! (m - 1)%nat = Some c
                     /\ c <> 95 /\ c <> 46).
Proof.
  revert buf n. induction turns as [|turns IH]; intros buf n Hn Hle.
  - assert (n = 0%nat) as -> by lia. exists 0%nat. cbn [CDD_trim].
    repeat split; try done; try lia; by left.
  - cbn [CDD_trim]. rewrite Hn.
    destruct n as [|i].
    { exists 0%nat. repeat split; try done; try lia; by left. }
    pose proof (proj1 (strlena_Some buf (S i)) Hn) as [Hz Hlt].
    destruct (Hlt i ltac:(lia)) as (c & Hc & Hcne). rewrite Hc.
    destruct ((c =? 95) || (c =? 46)) eqn:Et.
    + assert (i < length buf)%nat as Hil by (by apply lookup_lt_Some in Hc).
      assert (strlena (<[i := 0]> buf) = Some i) as Hn'.
      { apply strlena_Some. split.
        - by apply list_lookup_insert_eq.
        - intros j Hj. rewrite list_lookup_insert_ne by lia. apply Hlt. lia. }
      destruct (IH (<[i := 0]> buf) i Hn' ltac:(lia))
        as (m & H1 & H2 & H3 & H4 & H5 & H6 & H7).
      exists m. split; [done|]. split; [lia|].
      split; [by rewrite H3, length_insert|].
      split; [intros j Hj; rewrite H4 by done;
              apply list_lookup_insert_ne; lia|].
      split; [intros j Hj; rewrite H5 by lia;
              apply list_lookup_insert_ne; lia|].
      split; [|done].
      intros j Hj. destruct (decide (j = i)) as [->|Hji].
      * split; [rewrite H5 by lia; by apply list_lookup_insert_eq|].
        rewrite Hc. apply orb_true_iff in Et as [?%Z.eqb_eq|?%Z.eqb_eq];
          subst; auto.
      * destruct (H6 j ltac:(lia)) as [Ha Hb]. split; [done|].
        by rewrite list_lookup_insert_ne in Hb by lia.
    + exists (S i). split; [done|]. split; [lia|]. split; [done|].
      split; [done|]. split; [done|]. split; [intros j Hj; lia|].
      right. exists c. rewrite Nat.sub_1_r. cbn [Nat.pred].
      apply orb_false_iff in Et as [?%Z.eqb_neq ?%Z.eqb_neq]. done.
Qed.

(** X11. [CDD_clean_string] keeps the size of the buffer and everything
    from the old terminator on; the cleaned string is no longer than the old
    one, each of its characters is the old one in lower case, or ['_'] where
    the old one was not in [[a-zA-Z0-9,_-]], so that it holds only
    [[a-z0-9,_-]], and it does not end in ['_']. *)
Theorem CDD_clean_string_conforms (buf : list Z) (n : nat) :
  strlena buf = Some n ->
  exists m,
    strlena (CDD_clean_string buf) = Some m
    /\ (m <= n)%nat
    /\ length (CDD_clean_string buf) = length buf
    /\ (forall i c, (i < m)%nat -> buf !! i = Some c ->
          CDD_clean_string buf !! i
          = Some (if CDD_valid_char c then tolower c else 95))
    /\ (forall i c, (i < m)%nat -> CDD_clean_string buf !! i = Some c ->
          CDD_clean_char c = true)
    /\ (m = 0%nat
        \/ exists c, CDD_clean_string buf !! (m - 1)%nat = Some c /\ c <> 95)
    /\ (forall i, (n <= i)%nat -> CDD_clean_string buf !! i = buf !! i).
Proof.
  intros Hn. unfold CDD_clean_string. cbv zeta.
  destruct (CDD_clean_chars_spec buf n Hn) as (C1 & C2 & C3 & C4).
  pose proof (proj1 (strlena_Some buf n) Hn) as [Hz Hlt].
  assert (n < length buf)%nat as Hnl by (by apply lookup_lt_Some in Hz).
  destruct (CDD_trim_spec (length (CDD_clean_chars buf)) (CDD_clean_chars buf) n
              C1 ltac:(lia)) as (m & T1 & T2 & T3 & T4 & T5 & T6 & T7).
  exists m. repeat split; try done.
  - by rewrite T3.
  - intros i c Hi Hc. rewrite T4 by done. apply C3; [lia | done].
  - intros i c Hi Hc. rewrite T4 in Hc by done.
    destruct (Hlt i ltac:(lia)) as (x & Hx & Hxne).
    rewrite (C3 i x ltac:(lia) Hx) in Hc. injection Hc as <-.
    by apply CDD_cleaned_char_ok.
  - destruct T7 as [->|(c & Hc & H95 & H46)]; [by left|].
    right. by exists c.
  - intros i Hi. rewrite T5 by done. by apply C4.
Qed.

Lemma CDD_clean_string_conforms_witness :
  (* "Intel Corp." *)
  CDD_clean_string [73; 110; 116; 101; 108; 32; 67; 111; 114; 112; 46; 0; 7]
  = [105; 110; 116; 101; 108; 95; 99; 111; 114; 112; 0; 0; 7]
  /\ exists m, strlena (CDD_clean_string
                 [73; 110; 116; 101; 108; 32; 67; 111; 114; 112; 46; 0; 7]) = Some m
               /\ (m <= 11)%nat.
Proof.
  split; [vm_compute; reflexivity|].
  destruct (CDD_clean_string_conforms
              [73; 110; 116; 101; 108; 32; 67; 111; 114; 112; 46; 0; 7] 11 eq_refl)
    as (m & H1 & H2 & _).
  by exists m.
Defined.



Lemma check_command_line_loop_spec cfg argv : forall pos bt,
  let r := check_command_line_loop cfg pos argv bt in
  (r = (bt, None))
  \/ (r = (FASTBOOT, None) /\ (L "-f" ∈ argv \/ L "-a" ∈ argv))
  \/ (r.1 = EXIT_SHELL /\ r.2 <> None /\ USER cfg = false /\ L "-U" ∈ argv).
Proof.
  remember (length argv) as n eqn:Hn. revert argv Hn.
  induction n as [n IH] using lt_wf_ind. intros argv Hn pos bt. cbv zeta.
  destruct argv as [|arg rest]; [by left|]. cbn [check_command_line_loop].
  case_bool_decide as Hf.
  { right. subst arg.
    destruct (IH (length rest) ltac:(simpl in Hn; lia) rest eq_refl (S pos) FASTBOOT)
      as [H|[[H H']|(H1 & H2 & H3 & H4)]]; cbv zeta in *.
    - left. split; [done|]. left. apply elem_of_cons. by left.
    - left. split; [done|]. left. apply elem_of_cons. by left.
    - right. repeat split; try done. apply elem_of_cons. by right. }
  destruct (negb (USER cfg) && bool_decide (arg = L "-U")) eqn:HU.
  { right. right. apply andb_true_iff in HU as [HU1 HU2].
    apply bool_decide_eq_true in HU2. subst arg.
    repeat split; try done.
    - by destruct (USER cfg).
    - apply elem_of_cons. by left. }
  destruct (bool_decide (arg = L "-a")) eqn:Ha.
  { apply bool_decide_eq_true in Ha.
    destruct rest as [|addr rest']; [by left|]. right. subst arg.
    destruct (IH (length rest') ltac:(simpl in Hn; lia) rest' eq_refl
                (S (S pos)) FASTBOOT)
      as [H|[[H H']|(H1 & H2 & H3 & H4)]]; cbv zeta in *.
    - left. split; [done|]. right. apply elem_of_cons. by left.
    - left. split; [done|]. right. apply elem_of_cons. by left.
    - right. repeat split; try done. apply elem_of_cons. right.
      apply elem_of_cons. by right. }
  destruct (pos =? 0)%nat; [|by left].
  destruct (IH (length rest) ltac:(simpl in Hn; lia) rest eq_refl (S pos) bt)
    as [H|[[H H']|(H1 & H2 & H3 & H4)]]; cbv zeta in *.
  - by left.
  - right. left. split; [done|]. destruct H'; [left|right];
      apply elem_of_cons; by right.
  - right. right. repeat split; try done. apply elem_of_cons. by right.
Qed.

(** X13. [check_command_line] returns [NORMAL_BOOT], [FASTBOOT] or
    [EXIT_SHELL]: [FASTBOOT] only when [-f] or [-a] is among the arguments,
    [EXIT_SHELL] exactly when the unit tests were run, which takes [-U] on a
    build without [USER]; and when neither of the first two arguments is
    recognised, the rest of the line is not read. *)
Theorem check_command_line_targets (cfg : build_config)
    (get_argv : EFI_STATUS * list CHAR16_string) :
  let r := check_command_line cfg get_argv in
  (r.1 = NORMAL_BOOT \/ r.1 = FASTBOOT \/ r.1 = EXIT_SHELL)
  /\ (r.1 = FASTBOOT ->
      EFI_ERROR get_argv.1 = false
      /\ (L "-f" ∈ get_argv.2 \/ L "-a" ∈ get_argv.2))
  /\ (r.1 = EXIT_SHELL <-> r.2 <> None)
  /\ (r.1 = EXIT_SHELL ->
      EFI_ERROR get_argv.1 = false /\ USER cfg = false
      /\ L "-U" ∈ get_argv.2)
  /\ (forall image arg rest,
        EFI_ERROR get_argv.1 = false ->
        get_argv.2 = image :: arg :: rest ->
        recognised_argument cfg image = false ->
        recognised_argument cfg arg = false ->
        r = (NORMAL_BOOT, None)).
Proof.
  cbv zeta. unfold check_command_line.
  destruct (EFI_ERROR get_argv.1) eqn:He.
  { cbn [fst snd]. repeat split; try done; try by left.
    all: try by intros [=]. }
  pose proof (check_command_line_loop_spec cfg get_argv.2 0%nat NORMAL_BOOT) as H.
  cbv zeta in H.
  split; [|split; [|split; [|split]]].
  - destruct H as [->|[[-> _]|[-> _]]]; auto.
  - intros Hr. destruct H as [H|[[_ H]|[H _]]]; [| |]; try done.
    + rewrite H in Hr. done.
    + rewrite H in Hr. done.
  - destruct H as [->|[[-> _]|(-> & H2 & _)]]; cbn [fst snd]; split; try done.
  - intros Hr. destruct H as [H|[[H _]|(_ & _ & H3 & H4)]]; [| |done].
    + rewrite H in Hr. done.
    + rewrite H in Hr. done.
  - intros image arg rest _ Hargv Hi Ha. rewrite Hargv.
    unfold recognised_argument in *.
    apply orb_false_iff in Hi as [Hi Hi3]. apply orb_false_iff in Hi as [Hi1 Hi2].
    apply orb_false_iff in Ha as [Ha Ha3]. apply orb_false_iff in Ha as [Ha1 Ha2].
    cbn [check_command_line_loop].
    rewrite Hi1, Hi2, Hi3, Ha1, Ha2, Ha3. done.
Qed.

Lemma check_command_line_targets_witness :
  check_command_line user_build
    (EFI_SUCCESS, [L "kernelflinger.efi"; L "-U"; L "-f"])
  = (NORMAL_BOOT, None).
Proof.
  apply (check_command_line_targets user_build
           (EFI_SUCCESS, [L "kernelflinger.efi"; L "-U"; L "-f"]))
    with (image := L "kernelflinger.efi") (arg := L "-U") (rest := [L "-f"]);
    reflexivity.
Defined.

Lemma get_off_mode_charge_vars s :
  var_faults (st_vars s) = [] ->
  st_vars (get_off_mode_charge s).2 = st_vars s.
Proof.
  intros Hf. unfold get_off_mode_charge.
  pose proof (get_current_boolean_var_nofault fastboot_guid OFF_MODE_CHARGE
                (off_mode_charge s) true (st_vars s) Hf) as H.
  destruct (get_current_boolean_var _ _ _ _ _) as [[b c] vs].
  cbn [fst snd] in *. by subst vs.
Qed.

(** A second call of [get_off_mode_charge] returns the cached answer. *)
Lemma get_off_mode_charge_again s :
  (get_off_mode_charge (get_off_mode_charge s).2).1
  = (get_off_mode_charge s).1.
Proof.
  unfold get_off_mode_charge at 2 3.
  assert (is_cached (get_current_boolean_var fastboot_guid OFF_MODE_CHARGE
                       (off_mode_charge s) true (st_vars s)).1.2 = true
          /\ value (get_current_boolean_var fastboot_guid OFF_MODE_CHARGE
                       (off_mode_charge s) true (st_vars s)).1.2
             = (get_current_boolean_var fastboot_guid OFF_MODE_CHARGE
                       (off_mode_charge s) true (st_vars s)).1.1) as [H1 H2].
  { unfold get_current_boolean_var.
    destruct (is_cached (off_mode_charge s)) eqn:Hc; [done|].
    destruct (get_efi_variable _ _ _) as [[ret [v|]] vs]; [|done].
    destruct (var_data v) as [|d0 [|d1 [|]]]; try done.
    by destruct (_ || _). }
  destruct (get_current_boolean_var _ _ _ _ _) as [[b c] vs].
  cbn [fst snd] in *. unfold get_off_mode_charge, get_current_boolean_var.
  cbn [off_mode_charge with_off_mode_charge]. by rewrite H1, H2.
Qed.

Section OneShotProps.
Variable name_to_boot_target : CHAR16_string -> boot_target.

(** X14. With a variable store that answers, [check_loader_entry_one_shot]
    deletes [LoaderEntryOneShot] and no other variable, never returns
    [UNKNOWN_TARGET], returns [CHARGER] only when off-mode charging is
    enabled, flags verity corruption only together with [NORMAL_BOOT], and
    called again returns [NORMAL_BOOT] with no flag. *)
Theorem check_loader_entry_one_shot_consumes (s : state) :
  var_faults (st_vars s) = [] ->
  let r := check_loader_entry_one_shot name_to_boot_target s in
  vars (st_vars r.2) !! (loader_guid, LOADER_ENTRY_ONESHOT) = None
  /\ (forall k, k <> (loader_guid, LOADER_ENTRY_ONESHOT) ->
        vars (st_vars r.2) !! k = vars (st_vars s) !! k)
  /\ r.1.1 <> UNKNOWN_TARGET
  /\ (vars (st_vars s) !! (loader_guid, LOADER_ENTRY_ONESHOT) = None ->
      r.1 = (NORMAL_BOOT, false))
  /\ (r.1.1 = CHARGER -> (get_off_mode_charge r.2).1 = true)
  /\ (r.1.2 = true -> r.1.1 = NORMAL_BOOT)
  /\ (check_loader_entry_one_shot name_to_boot_target r.2).1
     = (NORMAL_BOOT, false).
Proof.
  intros Hf. cbv zeta.
  assert (Hagain : forall s0,
            var_faults (st_vars s0) = [] ->
            vars (st_vars s0) !! (loader_guid, LOADER_ENTRY_ONESHOT) = None ->
            (check_loader_entry_one_shot name_to_boot_target s0).1
            = (NORMAL_BOOT, false)).
  { intros s0 Hf0 Hn. unfold check_loader_entry_one_shot.
    rewrite get_efi_variable_str_nofault by done. rewrite Hn.
    by destruct (del_efi_variable _ _ _). }
  unfold check_loader_entry_one_shot.
  rewrite get_efi_variable_str_nofault by done.
  destruct (del_efi_variable_nofault loader_guid LOADER_ENTRY_ONESHOT
              (st_vars s) Hf) as [Hdf Hdv].
  destruct (del_efi_variable _ _ _) as [dret vs]. cbn [fst snd] in *.
  set (s1 := with_vars s vs).
  assert (Hs1f : var_faults (st_vars s1) = []) by done.
  assert (Hs1n : vars (st_vars s1) !! (loader_guid, LOADER_ENTRY_ONESHOT) = None).
  { cbn [s1 st_vars with_vars]. by rewrite Hdv, lookup_delete_eq. }
  assert (Hs1k : forall k, k <> (loader_guid, LOADER_ENTRY_ONESHOT) ->
            vars (st_vars s1) !! k = vars (st_vars s) !! k).
  { intros k Hk. cbn [s1 st_vars with_vars]. by rewrite Hdv, lookup_delete_ne. }
  destruct (vars (st_vars s) !! (loader_guid, LOADER_ENTRY_ONESHOT))
    as [v|] eqn:Hv.
  2:{ cbn [fst snd]. repeat split; try done. by apply Hagain. }
  case_bool_decide as Hu.
  { assert (forall b, let r := (NORMAL_BOOT, b, s1) in
       vars (st_vars r.2) !! (loader_guid, LOADER_ENTRY_ONESHOT) = None
       /\ (forall k, k <> (loader_guid, LOADER_ENTRY_ONESHOT) ->
             vars (st_vars r.2) !! k = vars (st_vars s) !! k)
       /\ r.1.1 <> UNKNOWN_TARGET
       /\ (Some v = None -> r.1 = (NORMAL_BOOT, false))
       /\ (r.1.1 = CHARGER -> (get_off_mode_charge r.2).1 = true)
       /\ (r.1.2 = true -> r.1.1 = NORMAL_BOOT)
       /\ (check_loader_entry_one_shot name_to_boot_target r.2).1
          = (NORMAL_BOOT, false)) as H.
    { intros b. cbv zeta. cbn [fst snd]. repeat split; try done.
      by apply Hagain. }
    case_bool_decide; apply H. }
  case_bool_decide as Hc.
  - pose proof (get_off_mode_charge_vars s1 Hs1f) as Hov.
    pose proof (get_off_mode_charge_again s1) as Hoa.
    destruct (get_off_mode_charge s1) as [omc s2]. cbn [fst snd] in *.
    destruct omc; cbn [negb fst snd].
    + repeat split; try done.
      * by rewrite Hov.
      * intros k Hk. rewrite Hov. by apply Hs1k.
      * apply Hagain; by rewrite Hov.
    + repeat split; try done.
      * by rewrite Hov.
      * intros k Hk. rewrite Hov. by apply Hs1k.
      * apply Hagain; by rewrite Hov.
  - cbn [fst snd]. repeat split; try done. by apply Hagain.
Qed.
End OneShotProps.

Lemma check_loader_entry_one_shot_consumes_witness :
  let s := boot_state
             (<[(loader_guid, LOADER_ENTRY_ONESHOT) :=
                  mk_efi_variable true true [99; 0; 0; 0]]>
              vars_off_mode_charge_disabled) in
  let r := check_loader_entry_one_shot (fun _ => CHARGER) s in
  r.1 = (POWER_OFF, false)
  /\ vars (st_vars r.2) !! (loader_guid, LOADER_ENTRY_ONESHOT) = None
  /\ (check_loader_entry_one_shot (fun _ => CHARGER) r.2).1
     = (NORMAL_BOOT, false).
Proof.
  cbv zeta. split; [by vm_compute|].
  pose proof (check_loader_entry_one_shot_consumes (fun _ => CHARGER)
    (boot_state
       (<[(loader_guid, LOADER_ENTRY_ONESHOT) :=
            mk_efi_variable true true [99; 0; 0; 0]]>
        vars_off_mode_charge_disabled)) eq_refl)
    as (H1 & _ & _ & _ & _ & _ & H7).
  split; [exact H1|exact H7].
Defined.

(** ** Writing and consuming the bootloader control block *)

Lemma bcb_of_bytes_bcb_bytes bcb :
  bcb_wf bcb -> bcb_of_bytes (bcb_bytes bcb) = bcb.
Proof.
  intros (Hc & Hs & Hr). destruct bcb as [c s r]. cbn in *.
  unfold bcb_of_bytes, bcb_bytes. cbn [command status recovery].
  f_equal.
  - by rewrite take_app_length'.
  - rewrite drop_app_length' by done. by rewrite take_app_length'.
  - rewrite <- Hc, <- Hs at 1. rewrite <- drop_drop.
    rewrite drop_app_length. by rewrite drop_app_length.
Qed.

Lemma bcb_bytes_length bcb :
  bcb_wf bcb -> length (bcb_bytes bcb) = sizeof_bootloader_message.
Proof.
  intros (Hc & Hs & Hr). unfold bcb_bytes, sizeof_bootloader_message.
  rewrite !length_app. lia.
Qed.

Lemma bcb_of_bytes_wf bs :
  length bs = sizeof_bootloader_message -> bcb_wf (bcb_of_bytes bs).
Proof.
  intros H. unfold bcb_wf, bcb_of_bytes. cbn [command status recovery].
  rewrite !length_take, !length_drop, H.
  unfold sizeof_bootloader_message, sizeof_command, sizeof_status,
    sizeof_recovery. lia.
Qed.

(** A successful [read_bcb] into a well-formed structure yields a well-formed
    structure with both strings terminated. *)
Lemma read_bcb_success vm_offset label bcb0 dk :
  bcb_wf bcb0 ->
  (read_bcb vm_offset label bcb0 dk).1.1 = EFI_SUCCESS ->
  bcb_wf (read_bcb vm_offset label bcb0 dk).1.2
  /\ command (read_bcb vm_offset label bcb0 dk).1.2 !! 31%nat = Some 0
  /\ status (read_bcb vm_offset label bcb0 dk).1.2 !! 31%nat = Some 0.
Proof.
  intros Hwf. unfold read_bcb.
  destruct (gpt_get_partition_by_label label dk) as [ret [part|]]; [|done].
  pose proof (ReadDisk_success
    (wrap64 (vm_offset + wrap64 (starting_lba part * BlockSize dk)))
    sizeof_bootloader_message (bcb_bytes bcb0) dk) as HR.
  destruct (ReadDisk _ _ _ _) as [[r bytes] dk']. cbn [fst snd] in *.
  destruct (EFI_ERROR r) eqn:He; [by destruct r|].
  cbn [fst snd]. intros _.
  assert (r = EFI_SUCCESS) as -> by (by destruct r).
  destruct (HR eq_refl) as [-> Hlen].
  rewrite buf_write_full by (by rewrite Hlen, bcb_bytes_length).
  destruct (bcb_of_bytes_wf _ Hlen) as (Hc & Hs & Hr).
  unfold bcb_wf, array_set. cbn [command status recovery].
  rewrite !length_insert. repeat split; try done.
  - apply list_lookup_insert_eq. rewrite Hc. unfold sizeof_command. lia.
  - apply list_lookup_insert_eq. rewrite Hs. unfold sizeof_status. lia.
Qed.

(** Reading back what [WriteDisk] wrote. *)
Lemma ReadDisk_after_WriteDisk fault offset data buffer dk :
  disk_read_faults dk = [] ->
  length buffer = length data ->
  (WriteDisk fault offset (length data) data dk).1 = EFI_SUCCESS ->
  ReadDisk offset (length data) buffer
    (WriteDisk fault offset (length data) data dk).2
  = (EFI_SUCCESS, data, (WriteDisk fault offset (length data) data dk).2).
Proof.
  intros Hf Hlen. unfold WriteDisk. destruct fault; [done|].
  destruct (Z.ltb_spec offset 0) as [|Ho]; [done|].
  destruct (Z.ltb_spec (Z.of_nat (length (disk_bytes dk)))
              (offset + Z.of_nat (length data))) as [|Hr]; [done|].
  cbn [orb fst snd]. intros _. unfold ReadDisk.
  cbn [disk_read_faults disk_bytes gpt_cache_partition partitions BlockSize].
  rewrite Hf. cbn [tail].
  rewrite firstn_all.
  assert (Hb : (Z.to_nat offset + length data <= length (disk_bytes dk))%nat)
    by lia.
  rewrite buf_write_length by done.
  destruct (Z.ltb_spec offset 0); [lia|].
  destruct (Z.ltb_spec (Z.of_nat (length (disk_bytes dk)))
              (offset + Z.of_nat (length data))); [lia|].
  cbn [orb]. rewrite buf_write_read by done.
  by rewrite buf_write_full.
Qed.

(** A successful [WriteDisk] keeps the size of the medium and every byte
    outside the written range. *)
Lemma WriteDisk_frame fault offset data dk :
  (WriteDisk fault offset (length data) data dk).1 = EFI_SUCCESS ->
  let dk' := (WriteDisk fault offset (length data) data dk).2 in
  length (disk_bytes dk') = length (disk_bytes dk)
  /\ (forall i : nat,
        (i < Z.to_nat offset \/ Z.to_nat offset + length data <= i)%nat ->
        disk_bytes dk' !! i = disk_bytes dk !! i)
  /\ partitions dk' = partitions dk
  /\ BlockSize dk' = BlockSize dk
  /\ gpt_cache_partition dk' = gpt_cache_partition dk
  /\ disk_read_faults dk' = disk_read_faults dk.
Proof.
  unfold WriteDisk. destruct fault; [done|].
  destruct (Z.ltb_spec offset 0) as [|Ho]; [done|].
  destruct (Z.ltb_spec (Z.of_nat (length (disk_bytes dk)))
              (offset + Z.of_nat (length data))) as [|Hr]; [done|].
  cbn [orb fst snd]. intros _. cbv zeta.
  cbn [disk_read_faults disk_bytes gpt_cache_partition partitions BlockSize].
  rewrite firstn_all.
  assert (Hb : (Z.to_nat offset + length data <= length (disk_bytes dk))%nat)
    by lia.
  split; [by apply buf_write_length|]. split; [|done].
  intros i Hi. by apply buf_write_lookup_ne.
Qed.

Lemma read_bcb_after_write_bcb vm_offset write_fault label bcb bcb0 dk :
  bcb_wf bcb -> bcb_wf bcb0 ->
  disk_read_faults dk = [] ->
  (write_bcb vm_offset write_fault label bcb dk).1 = EFI_SUCCESS ->
  read_bcb vm_offset label bcb0 (write_bcb vm_offset write_fault label bcb dk).2
  = (EFI_SUCCESS,
     mk_bcb (array_set (command bcb) 31 0) (array_set (status bcb) 31 0)
            (recovery bcb),
     (write_bcb vm_offset write_fault label bcb dk).2).
Proof.
  intros Hwf Hwf0 Hf. unfold write_bcb, read_bcb.
  destruct (gpt_get_partition_by_label label dk) as [ret [part|]] eqn:Hg;
    [|done].
  set (off := wrap64 (vm_offset + wrap64 (starting_lba part * BlockSize dk))).
  pose proof (bcb_bytes_length bcb Hwf) as Hlen.
  pose proof (bcb_bytes_length bcb0 Hwf0) as Hlen0.
  rewrite <- Hlen.
  pose proof (ReadDisk_after_WriteDisk write_fault off (bcb_bytes bcb)
                (bcb_bytes bcb0) dk Hf ltac:(congruence)) as HR.
  pose proof (WriteDisk_frame write_fault off (bcb_bytes bcb) dk) as HF.
  destruct (WriteDisk write_fault off (length (bcb_bytes bcb)) (bcb_bytes bcb) dk)
    as [wret dk'] eqn:HW.
  cbn [fst snd] in *.
  destruct (EFI_ERROR wret) eqn:He; cbn [fst snd]; [by destruct wret|].
  intros _. assert (wret = EFI_SUCCESS) as -> by (by destruct wret).
  destruct (HF eq_refl) as (_ & _ & Hp & Hbs & Hc & _).
  assert (gpt_get_partition_by_label label dk'
          = gpt_get_partition_by_label label dk) as ->.
  { unfold gpt_get_partition_by_label, gpt_find_partition. by rewrite Hp, Hc. }
  rewrite Hg, Hbs. fold off. rewrite (HR eq_refl). cbn [EFI_ERROR].
  by rewrite bcb_of_bytes_bcb_bytes.
Qed.

(** X15. A control block that [write_bcb] stored is what [read_bcb] returns,
    with the last byte of [command] and of [status] set to NUL; the write
    keeps the size of the medium and the partition table; a failed write
    leaves the disk as it was, and a label that is not found gives
    [EFI_INVALID_PARAMETER]. *)
Theorem write_bcb_read_back (vm_offset : Z) (write_fault : bool)
    (label : string) (bcb bcb0 : bootloader_message) (dk : disk) :
  bcb_wf bcb -> bcb_wf bcb0 ->
  disk_read_faults dk = [] ->
  let w := write_bcb vm_offset write_fault label bcb dk in
  (w.1 = EFI_SUCCESS ->
   read_bcb vm_offset label bcb0 w.2
   = (EFI_SUCCESS,
      mk_bcb (array_set (command bcb) 31 0) (array_set (status bcb) 31 0)
             (recovery bcb),
      w.2)
   /\ length (disk_bytes w.2) = length (disk_bytes dk)
   /\ partitions w.2 = partitions dk)
  /\ (w.1 <> EFI_SUCCESS -> w.2 = dk)
  /\ (write_fault = true -> w.1 <> EFI_SUCCESS)
  /\ ((gpt_get_partition_by_label label dk).2 = None ->
      w = (EFI_INVALID_PARAMETER, dk)).
Proof.
  intros Hwf Hwf0 Hf. cbv zeta. split; [|split; [|split]].
  - intros Hw. split; [by apply read_bcb_after_write_bcb|].
    revert Hw. unfold write_bcb.
    destruct (gpt_get_partition_by_label label dk) as [ret [part|]]; [|done].
    rewrite <- (bcb_bytes_length bcb Hwf).
    pose proof (WriteDisk_frame write_fault
      (wrap64 (vm_offset + wrap64 (starting_lba part * BlockSize dk)))
      (bcb_bytes bcb) dk) as HF.
    destruct (WriteDisk _ _ _ _ _) as [wret dk']. cbn [fst snd] in *.
    destruct (EFI_ERROR wret) eqn:He; cbn [fst snd]; [by destruct wret|].
    intros _. assert (wret = EFI_SUCCESS) as -> by (by destruct wret).
    by destruct (HF eq_refl) as (? & _ & ? & _).
  - unfold write_bcb.
    destruct (gpt_get_partition_by_label label dk) as [ret [part|]]; [|done].
    unfold WriteDisk. destruct write_fault; [done|].
    destruct (_ || _); [done|]. done.
  - intros ->. unfold write_bcb.
    destruct (gpt_get_partition_by_label label dk) as [ret [part|]]; done.
  - unfold write_bcb.
    destruct (gpt_get_partition_by_label label dk) as [ret [part|]]; [done|].
    done.
Qed.

Lemma write_bcb_read_back_witness :
  let w := write_bcb 0 false MISC_LABEL example_bcb_bootonce example_disk in
  read_bcb 0 MISC_LABEL empty_bcb w.2
  = (EFI_SUCCESS, example_bcb_bootonce, w.2).
Proof.
  cbv zeta.
  destruct (write_bcb_read_back 0 false MISC_LABEL example_bcb_bootonce
              empty_bcb example_disk) as [H _].
  - by vm_compute.
  - by vm_compute.
  - reflexivity.
  - destruct H as [H _]; [by vm_compute|]. exact H.
Defined.

Lemma ReadDisk_nofault_disk offset n buffer dk :
  disk_read_faults dk = [] -> (ReadDisk offset n buffer dk).2 = dk.
Proof.
  intros Hf. unfold ReadDisk. rewrite Hf. cbn [tail].
  destruct dk as [a b c d e]. cbn in *. subst e. by destruct (_ || _).
Qed.

Lemma read_bcb_nofault_disk vm_offset label bcb0 dk :
  disk_read_faults dk = [] -> (read_bcb vm_offset label bcb0 dk).2 = dk.
Proof.
  intros Hf. unfold read_bcb.
  destruct (gpt_get_partition_by_label label dk) as [ret [part|]]; [|done].
  pose proof (ReadDisk_nofault_disk
    (wrap64 (vm_offset + wrap64 (starting_lba part * BlockSize dk)))
    sizeof_bootloader_message (bcb_bytes bcb0) dk Hf) as HR.
  destruct (ReadDisk _ _ _ _) as [[r bytes] dk']. cbn [fst snd] in *.
  subst dk'. by destruct (EFI_ERROR r).
Qed.

Lemma ReadDisk_indep offset n buffer buffer' dk :
  length buffer = n -> length buffer' = n ->
  (ReadDisk offset n buffer dk).1.1 = EFI_SUCCESS ->
  ReadDisk offset n buffer' dk = ReadDisk offset n buffer dk.
Proof.
  intros Hb Hb'. unfold ReadDisk.
  assert (forall fs,
    (let dk0 := mk_disk (gpt_cache_partition dk) (partitions dk) (BlockSize dk)
                  (disk_bytes dk) fs in
     if (offset <? 0)
        || (Z.of_nat (length (disk_bytes dk0)) <? offset + Z.of_nat n)
     then (EFI_INVALID_PARAMETER, buffer, dk0)
     else (EFI_SUCCESS,
           buf_write buffer 0 (take n (drop (Z.to_nat offset) (disk_bytes dk0))),
           dk0)).1.1 = EFI_SUCCESS ->
    (let dk0 := mk_disk (gpt_cache_partition dk) (partitions dk) (BlockSize dk)
                  (disk_bytes dk) fs in
     if (offset <? 0)
        || (Z.of_nat (length (disk_bytes dk0)) <? offset + Z.of_nat n)
     then (EFI_INVALID_PARAMETER, buffer', dk0)
     else (EFI_SUCCESS,
           buf_write buffer' 0 (take n (drop (Z.to_nat offset) (disk_bytes dk0))),
           dk0))
    = (let dk0 := mk_disk (gpt_cache_partition dk) (partitions dk) (BlockSize dk)
                  (disk_bytes dk) fs in
     if (offset <? 0)
        || (Z.of_nat (length (disk_bytes dk0)) <? offset + Z.of_nat n)
     then (EFI_INVALID_PARAMETER, buffer, dk0)
     else (EFI_SUCCESS,
           buf_write buffer 0 (take n (drop (Z.to_nat offset) (disk_bytes dk0))),
           dk0))) as H.
  { intros fs. cbv zeta. cbn [disk_bytes].
    destruct (Z.ltb_spec offset 0); [done|].
    destruct (Z.ltb_spec (Z.of_nat (length (disk_bytes dk)))
                (offset + Z.of_nat n)); [done|].
    cbn [orb]. intros _.
    assert (length (take n (drop (Z.to_nat offset) (disk_bytes dk))) = n)
      by (rewrite length_take, length_drop; lia).
    by rewrite !buf_write_full by congruence. }
  destruct (disk_read_faults dk) as [|[] fs]; [apply H|done|apply H].
Qed.

(** What a successful [read_bcb] returns does not depend on the previous
    contents of the caller's structure. *)
Lemma read_bcb_indep vm_offset label bcb0 bcb0' dk :
  bcb_wf bcb0 -> bcb_wf bcb0' ->
  (read_bcb vm_offset label bcb0 dk).1.1 = EFI_SUCCESS ->
  read_bcb vm_offset label bcb0' dk = read_bcb vm_offset label bcb0 dk.
Proof.
  intros Hwf Hwf'. unfold read_bcb.
  destruct (gpt_get_partition_by_label label dk) as [ret [part|]]; [|done].
  pose proof (ReadDisk_indep
    (wrap64 (vm_offset + wrap64 (starting_lba part * BlockSize dk)))
    sizeof_bootloader_message (bcb_bytes bcb0) (bcb_bytes bcb0') dk
    (bcb_bytes_length _ Hwf) (bcb_bytes_length _ Hwf')) as HR.
  destruct (ReadDisk _ _ (bcb_bytes bcb0) _) as [[r bytes] dk1].
  cbn [fst snd] in *.
  destruct (EFI_ERROR r) eqn:He; cbn [fst snd]; [by destruct r|].
  intros _. assert (r = EFI_SUCCESS) as -> by (by destruct r).
  by rewrite (HR eq_refl).
Qed.

(** Where [read_bcb] succeeds, a [write_bcb] that the device does not fail
    succeeds too. *)
Lemma write_bcb_succeeds vm_offset label bcb bcb0 dk :
  (read_bcb vm_offset label bcb0 dk).1.1 = EFI_SUCCESS ->
  (write_bcb vm_offset false label bcb dk).1 = EFI_SUCCESS.
Proof.
  unfold read_bcb, write_bcb.
  destruct (gpt_get_partition_by_label label dk) as [ret [part|]]; [|done].
  unfold ReadDisk, WriteDisk.
  destruct (disk_read_faults dk) as [|[] fs]; [|done|].
  - cbn [disk_bytes]. by destruct (_ || _).
  - cbn [disk_bytes]. by destruct (_ || _).
Qed.

Lemma strncmpa_matches_nul (s : list Z) (prefix : string) :
  s !! 0%nat = Some 0 -> head (L prefix) <> Some 0 -> prefix <> EmptyString ->
  strncmpa_matches s prefix = false.
Proof.
  intros Hs Hp Hne. unfold strncmpa_matches. apply bool_decide_eq_false.
  destruct prefix as [|a prefix]; [done|].
  destruct s as [|c s]; [done|]. cbn in Hs. simplify_eq.
  cbn. intros [= H _]. apply Hp. cbn. by rewrite <- H.
Qed.

Section CheckBcbProps.
Variable name_to_boot_target : CHAR16_string -> boot_target.
Variable file_exists : CHAR16_string -> bool.

Lemma check_bcb_target_spec target :
  let r := check_bcb_target name_to_boot_target file_exists target in
  r.1 <> UNKNOWN_TARGET
  /\ (forall p, r.2 = Some p ->
        target = Some p
        /\ (r.1 = ESP_EFI_BINARY \/ r.1 = ESP_BOOTIMAGE)
        /\ head p = Some 92 /\ file_exists p = true /\ (4 < length p)%nat).
Proof.
  cbv zeta. unfold check_bcb_target. destruct target as [t|]; [|done].
  case_bool_decide as Hh.
  - destruct (file_exists t) eqn:Hfe; cbn [negb]; [|done].
    destruct (Nat.ltb_spec 4 (length t)); [|done].
    destruct (_ || _); cbn [fst snd]; (split; [done|]);
      intros p [= <-]; repeat split; auto.
  - case_bool_decide as Hu; cbn [negb fst snd]; done.
Qed.

(** X16. [check_bcb] never returns [UNKNOWN_TARGET]; it returns a target
    path only together with [ESP_EFI_BINARY] or [ESP_BOOTIMAGE], and then the
    path starts with a backslash, names an existing file and is longer than
    four characters; when the block cannot be read the result is
    [NORMAL_BOOT]; and [*oneshot] is set only for a [bootonce-] command. *)
Theorem check_bcb_targets (vm_offset : Z) (write_fault : bool)
    (bcb0 : bootloader_message) (dk : disk) :
  let r := check_bcb name_to_boot_target file_exists vm_offset write_fault
             bcb0 dk in
  r.1.1.1 <> UNKNOWN_TARGET
  /\ (forall p, r.1.1.2 = Some p ->
        (r.1.1.1 = ESP_EFI_BINARY \/ r.1.1.1 = ESP_BOOTIMAGE)
        /\ head p = Some 92 /\ file_exists p = true /\ (4 < length p)%nat)
  /\ (EFI_ERROR (read_bcb vm_offset MISC_LABEL bcb0 dk).1.1 = true ->
      r = (NORMAL_BOOT, None, false, (read_bcb vm_offset MISC_LABEL bcb0 dk).2))
  /\ (r.1.2 = true ->
      strncmpa_matches (command (read_bcb vm_offset MISC_LABEL bcb0 dk).1.2)
        "bootonce-" = true).
Proof.
  cbv zeta. unfold check_bcb.
  destruct (read_bcb vm_offset MISC_LABEL bcb0 dk) as [[ret bcb] dk1].
  cbn [fst snd].
  destruct (EFI_ERROR ret); [done|].
  cbn [command status recovery].
  destruct (strncmpa_matches (command bcb) "boot-").
  - pose proof (check_bcb_target_spec
                  (Some (stra_to_str (drop 5 (command bcb))))) as [H1 H2].
    destruct (check_bcb_target _ _ _) as [t tp]. cbn [fst snd] in *.
    repeat split; try done; by destruct (H2 p) as (? & ? & ? & ? & ?).
  - destruct (strncmpa_matches (command bcb) "bootonce-").
    + pose proof (check_bcb_target_spec
                    (Some (stra_to_str (drop 9 (command bcb))))) as [H1 H2].
      destruct (check_bcb_target _ _ _) as [t tp]. cbn [fst snd] in *.
      repeat split; try done; by destruct (H2 p) as (? & ? & ? & ? & ?).
    + cbn [check_bcb_target fst snd]. done.
Qed.

(** [check_bcb] over a BCB whose status is clear and whose command is not
    one-shot: nothing is written. *)
Lemma check_bcb_clean vm_offset write_fault bcb0 dk W :
  read_bcb vm_offset MISC_LABEL bcb0 dk = (EFI_SUCCESS, W, dk) ->
  status W !! 0%nat = Some 0 ->
  strncmpa_matches (command W) "boot-" = true
  \/ strncmpa_matches (command W) "bootonce-" = false ->
  check_bcb name_to_boot_target file_exists vm_offset write_fault bcb0 dk
  = (check_bcb_target name_to_boot_target file_exists
       (if strncmpa_matches (command W) "boot-"
        then Some (stra_to_str (drop 5 (command W))) else None),
     false, dk).
Proof.
  intros HR Hs Hc. unfold check_bcb. rewrite HR. cbn [EFI_ERROR].
  cbn [command status recovery].
  destruct (status W) as [|s0 st] eqn:Est; [done|]. cbn in Hs. simplify_eq.
  cbn [nth Z.eqb negb].
  destruct (strncmpa_matches (command W) "boot-").
  - by destruct (check_bcb_target _ _ _).
  - destruct Hc as [Hc | Hc]; [done|]. rewrite Hc. by destruct (check_bcb_target _ _ _).
Qed.

(** X17. With a disk that answers, after [check_bcb] the block on the disk has
    a cleared status, and its command is cleared when the command was
    one-shot and kept otherwise; so a second [check_bcb] returns [NORMAL_BOOT]
    after a [bootonce-] command, and the same target and path as the first
    after any other, writing nothing. *)
Theorem check_bcb_consumes (vm_offset : Z) (write_fault' : bool)
    (bcb0 bcb0' : bootloader_message) (dk : disk) :
  bcb_wf bcb0 -> bcb_wf bcb0' ->
  disk_read_faults dk = [] ->
  (read_bcb vm_offset MISC_LABEL bcb0 dk).1.1 = EFI_SUCCESS ->
  let bcb := (read_bcb vm_offset MISC_LABEL bcb0 dk).1.2 in
  let r := check_bcb name_to_boot_target file_exists vm_offset false bcb0 dk in
  read_bcb vm_offset MISC_LABEL bcb0' r.2
  = (EFI_SUCCESS,
     mk_bcb (if r.1.2 then array_set (command bcb) 0 0 else command bcb)
            (array_set (status bcb) 0 0) (recovery bcb),
     r.2)
  /\ check_bcb name_to_boot_target file_exists vm_offset write_fault' bcb0' r.2
     = (if r.1.2 then (NORMAL_BOOT, None, false, r.2)
        else (r.1.1.1, r.1.1.2, false, r.2)).
Proof.
  intros Hwf Hwf' Hf HR. cbv zeta.
  destruct (read_bcb_success vm_offset MISC_LABEL bcb0 dk Hwf HR)
    as ((Hlc & Hls & Hlr) & Hc31 & Hs31).
  pose proof (read_bcb_nofault_disk vm_offset MISC_LABEL bcb0 dk Hf) as Hdk.
  pose proof (read_bcb_indep vm_offset MISC_LABEL bcb0 bcb0' dk Hwf Hwf' HR)
    as Hind.
  pose proof (fun W => write_bcb_succeeds vm_offset MISC_LABEL W bcb0 dk HR)
    as Hws.
  pose proof (fun W HW => read_bcb_after_write_bcb vm_offset false MISC_LABEL
                            W bcb0' dk HW Hwf' Hf (Hws W)) as Hraw.
  set (r := check_bcb name_to_boot_target file_exists vm_offset false bcb0 dk).
  assert (Hr : r = check_bcb name_to_boot_target file_exists vm_offset false
                     bcb0 dk) by done.
  clearbody r. unfold check_bcb in Hr.
  destruct (read_bcb vm_offset MISC_LABEL bcb0 dk) as [[ret bcb] dk1] eqn:ER.
  cbn [fst snd] in *. subst ret dk1. cbn [EFI_ERROR] in Hr.
  destruct bcb as [cmd st rec]. cbn [command status recovery] in *.
  destruct st as [|s0 st]; [done|]. destruct cmd as [|c0 cmd]; [done|].
  unfold array_set in *. cbn [nth] in Hr.
  change (<[0%nat:=0]> (s0 :: st)) with (0 :: st) in *.
  change (<[0%nat:=0]> (c0 :: cmd)) with (0 :: cmd) in *.
  (* the structure written back, when something is written *)
  assert (HW : forall W : bootloader_message,
            W = mk_bcb (c0 :: cmd) (0 :: st) rec
            \/ W = mk_bcb (0 :: cmd) (0 :: st) rec ->
            read_bcb vm_offset MISC_LABEL bcb0'
              (write_bcb vm_offset false MISC_LABEL W dk).2
            = (EFI_SUCCESS, W, (write_bcb vm_offset false MISC_LABEL W dk).2)).
  { intros W HWeq. rewrite Hraw.
    - f_equal. f_equal. unfold array_set.
      destruct HWeq as [-> | ->]; cbn [command status recovery];
        f_equal; apply list_insert_id; done.
    - destruct HWeq as [-> | ->]; done. }
  destruct (strncmpa_matches (c0 :: cmd) "boot-") eqn:Eb.
  - (* boot-: persistent *)
    destruct (check_bcb_target name_to_boot_target file_exists
                (Some (stra_to_str (drop 5 (c0 :: cmd))))) as [t tp] eqn:Et.
    destruct (negb (s0 =? 0)) eqn:Ed; subst r; cbn [fst snd].
    + rewrite HW by (by left). split; [done|].
      rewrite (check_bcb_clean _ _ _ _ _ (HW _ (or_introl eq_refl)));
        [|done|by left].
      cbn [command]. by rewrite Eb, Et.
    + apply negb_false_iff, Z.eqb_eq in Ed. subst s0.
      rewrite Hind. split; [done|].
      rewrite (check_bcb_clean _ _ _ _ _ Hind); [|done|by left].
      cbn [command]. by rewrite Eb, Et.
  - destruct (strncmpa_matches (c0 :: cmd) "bootonce-") eqn:Eo.
    + (* bootonce-: consumed *)
      destruct (check_bcb_target name_to_boot_target file_exists
                  (Some (stra_to_str (drop 9 (c0 :: cmd))))) as [t tp] eqn:Et.
      subst r. cbn [fst snd]. rewrite HW by (by right). split; [done|].
      rewrite (check_bcb_clean _ _ _ _ _ (HW _ (or_intror eq_refl)));
        [|done|right].
      * cbn [command]. by rewrite strncmpa_matches_nul.
      * cbn [command]. by rewrite strncmpa_matches_nul.
    + cbn [check_bcb_target] in Hr.
      destruct (negb (s0 =? 0)) eqn:Ed; subst r; cbn [fst snd].
      * rewrite HW by (by left). split; [done|].
        rewrite (check_bcb_clean _ _ _ _ _ (HW _ (or_introl eq_refl)));
          [|done|by right].
        cbn [command]. by rewrite Eb.
      * apply negb_false_iff, Z.eqb_eq in Ed. subst s0.
        rewrite Hind. split; [done|].
        rewrite (check_bcb_clean _ _ _ _ _ Hind); [|done|by right].
        cbn [command]. by rewrite Eb.
Qed.

End CheckBcbProps.

Lemma check_bcb_consumes_witness :
  let dk := (write_bcb 0 false MISC_LABEL example_bcb_bootonce example_disk).2 in
  let r := check_bcb (fun _ => FASTBOOT) (fun _ => false) 0 false empty_bcb dk in
  r.1 = (FASTBOOT, None, true)
  /\ check_bcb (fun _ => FASTBOOT) (fun _ => false) 0 false empty_bcb r.2
     = (NORMAL_BOOT, None, false, r.2).
Proof.
  cbv zeta. split; [by vm_compute|].
  destruct (check_bcb_consumes (fun _ => FASTBOOT) (fun _ => false) 0 false
              empty_bcb empty_bcb
              (write_bcb 0 false MISC_LABEL example_bcb_bootonce example_disk).2)
    as [_ H].
  - by vm_compute.
  - by vm_compute.
  - reflexivity.
  - by vm_compute.
  - exact H.
Defined.

(** ** Sizes, partition reads and variable names *)

Lemma wrap32_small x : 0 <= x < 2 ^ 32 -> wrap32 x = x.
Proof. intros H. unfold wrap32. by rewrite Z.mod_small. Qed.

(** Masking a 32-bit value with [~(2^k - 1)] clears its low [k] bits. *)
Lemma land_lnot_ones_32 (x : Z) (k : Z) :
  0 <= k -> 0 <= x < 2 ^ 32 ->
  Z.land x (wrap32 (Z.lnot (Z.ones k))) = 2 ^ k * (x / 2 ^ k).
Proof.
  intros Hk Hx.
  transitivity (Z.ldiff x (Z.ones k)).
  - apply Z.bits_inj'. intros i Hi.
    rewrite Z.land_spec, Z.ldiff_spec. unfold wrap32.
    destruct (Z.lt_ge_cases i 32) as [Hlt|Hge].
    + rewrite Z.mod_pow2_bits_low by lia. by rewrite Z.lnot_spec by lia.
    + rewrite Z.mod_pow2_bits_high by lia.
      assert (Z.testbit x i = false) as ->; [|done].
      destruct (Z.eq_dec x 0) as [->|Hx0]; [apply Z.bits_0|].
      apply Z.bits_above_log2; [lia|].
      assert (Z.log2 x < 32); [|lia].
      apply Z.log2_lt_pow2; lia.
  - rewrite Z.ldiff_ones_r by lia.
    rewrite Z.shiftl_mul_pow2, Z.shiftr_div_pow2 by lia. lia.
Qed.

Lemma pagealign_pow2 hdr k blob_size :
  page_size hdr = 2 ^ k -> 0 <= k < 32 ->
  0 <= blob_size -> blob_size + page_size hdr - 1 < 2 ^ 32 ->
  pagealign hdr blob_size
  = page_size hdr * ((blob_size + page_size hdr - 1) / page_size hdr).
Proof.
  intros Hp Hk Hb Hov. unfold pagealign.
  assert (0 < 2 ^ k) by (apply Z.pow_pos_nonneg; lia).
  assert (2 ^ k < 2 ^ 32) by (apply Z.pow_lt_mono_r; lia).
  rewrite (wrap32_small (page_size hdr - 1)) by lia.
  rewrite (wrap32_small (blob_size + _)) by lia.
  rewrite Hp in *.
  replace (2 ^ k - 1) with (Z.ones k) by (rewrite Z.ones_equiv; lia).
  rewrite land_lnot_ones_32; [|lia|rewrite Z.ones_equiv; lia].
  rewrite Z.ones_equiv. do 2 f_equal. lia.
Qed.

(** X18. For a page size that is a power of two, [pagealign] rounds a size up
    to the next multiple of the page size as long as the sum stays below
    2^32, and returns 0 for the sizes above that. *)
Theorem pagealign_rounds_up (hdr : boot_img_hdr) (k blob_size : Z) :
  page_size hdr = 2 ^ k -> 0 <= k < 32 -> 0 <= blob_size < 2 ^ 32 ->
  let r := pagealign hdr blob_size in
  (blob_size + page_size hdr - 1 < 2 ^ 32 ->
   blob_size <= r < blob_size + page_size hdr
   /\ r mod page_size hdr = 0
   /\ (blob_size mod page_size hdr = 0 -> r = blob_size))
  /\ (2 ^ 32 <= blob_size + page_size hdr - 1 -> r = 0).
Proof.
  intros Hp Hk Hb. cbv zeta.
  assert (0 < 2 ^ k) by (apply Z.pow_pos_nonneg; lia).
  assert (2 ^ k < 2 ^ 32) by (apply Z.pow_lt_mono_r; lia).
  split.
  - intros Hov. rewrite (pagealign_pow2 hdr k) by lia. rewrite Hp.
    pose proof (Z.div_mod (blob_size + 2 ^ k - 1) (2 ^ k) ltac:(lia)) as Hdm.
    pose proof (Z.mod_pos_bound (blob_size + 2 ^ k - 1) (2 ^ k) ltac:(lia)).
    split; [lia|]. split.
    + by rewrite Z.mul_comm, Z.mod_mul by lia.
    + intros Hm.
      pose proof (Z.div_mod blob_size (2 ^ k) ltac:(lia)) as Hdb.
      rewrite Hm, Z.add_0_r in Hdb.
      replace (blob_size + 2 ^ k - 1)
        with ((2 ^ k - 1) + (blob_size / 2 ^ k) * 2 ^ k) by lia.
      rewrite Z.div_add by lia. rewrite Z.div_small by lia. lia.
  - intros Hov. unfold pagealign. rewrite Hp.
    rewrite (wrap32_small (2 ^ k - 1)) by lia.
    replace (2 ^ k - 1) with (Z.ones k) by (rewrite Z.ones_equiv; lia).
    rewrite land_lnot_ones_32.
    + rewrite Z.div_small; [lia|]. unfold wrap32. rewrite Z.ones_equiv.
      replace ((blob_size + Z.pred (2 ^ k)) mod 2 ^ 32)
        with (blob_size + Z.pred (2 ^ k) - 2 ^ 32); [lia|].
      apply Z.mod_unique with 1; lia.
    + lia.
    + unfold wrap32. apply Z.mod_pos_bound. lia.
Qed.

Lemma pagealign_rounds_up_witness :
  let hdr := mk_boot_img_hdr 5000 1 0 4096 0 0 0 in
  (4096 <= pagealign hdr 4096 < 4096 + 4096
   /\ pagealign hdr 4096 mod 4096 = 0
   /\ (4096 mod 4096 = 0 -> pagealign hdr 4096 = 4096))
  /\ pagealign hdr (2 ^ 32 - 1) = 0.
Proof.
  cbv zeta. split.
  - apply (pagealign_rounds_up (mk_boot_img_hdr 5000 1 0 4096 0 0 0) 12 4096);
      [reflexivity|lia|lia|vm_compute; reflexivity].
  - apply (pagealign_rounds_up (mk_boot_img_hdr 5000 1 0 4096 0 0 0) 12
             (2 ^ 32 - 1)); [reflexivity|lia|lia|vm_compute; discriminate].
Defined.

(** X19. For a page size that is a power of two and sections whose rounded
    sizes add up below 2^32, [bootimage_size] is the header page plus every
    section of the header version rounded up to a page: a multiple of the page
    size that covers the header page and the sections. *)
Theorem bootimage_size_covers (UINTN_bits : Z) (hdr : boot_img_hdr) (k : Z) :
  page_size hdr = 2 ^ k -> 0 <= k < 32 -> 32 <= UINTN_bits ->
  Forall (fun x => 0 <= x /\ x + page_size hdr - 1 < 2 ^ 32)
         (bootimage_sections hdr) ->
  page_size hdr
  + sum_list_Z (map (round_up (page_size hdr)) (bootimage_sections hdr))
  < 2 ^ 32 ->
  let size := bootimage_size UINTN_bits hdr in
  size = page_size hdr
         + sum_list_Z (map (round_up (page_size hdr)) (bootimage_sections hdr))
  /\ size mod page_size hdr = 0
  /\ page_size hdr + sum_list_Z (bootimage_sections hdr) <= size.
Proof.
  intros Hp Hk Hbits Hall Hsum. cbv zeta.
  assert (0 < 2 ^ k) by (apply Z.pow_pos_nonneg; lia).
  assert (2 ^ 32 <= 2 ^ UINTN_bits) by (apply Z.pow_le_mono_r; lia).
  assert (Hup : forall x, 0 <= x -> x + page_size hdr - 1 < 2 ^ 32 ->
            pagealign hdr x = round_up (page_size hdr) x
            /\ x <= round_up (page_size hdr) x
            /\ round_up (page_size hdr) x mod page_size hdr = 0).
  { intros x Hx0 Hx. rewrite (pagealign_pow2 hdr k) by lia.
    unfold round_up. rewrite Hp in *. split; [done|].
    pose proof (Z.div_mod (x + 2 ^ k - 1) (2 ^ k) ltac:(lia)).
    pose proof (Z.mod_pos_bound (x + 2 ^ k - 1) (2 ^ k) ltac:(lia)).
    split; [lia|]. by rewrite Z.mul_comm, Z.mod_mul by lia. }
  assert (Hmod : forall a b, a mod page_size hdr = 0 -> b mod page_size hdr = 0 ->
            (a + b) mod page_size hdr = 0).
  { intros a b Ha Hb. rewrite Z.add_mod by lia. by rewrite Ha, Hb. }
  assert (Hps : page_size hdr mod page_size hdr = 0) by (apply Z.mod_same; lia).
  unfold bootimage_size, bootimage_sections in *.
  apply Forall_app in Hall as [H3 Hall]. apply Forall_app in Hall as [H4 H5].
  apply Forall_cons in H3 as [[Hk0 Hk1] H3].
  apply Forall_cons in H3 as [[Hr0 Hr1] H3].
  apply Forall_cons in H3 as [[Hs0 Hs1] _].
  destruct (Hup _ Hk0 Hk1) as (-> & Hka & Hkb).
  destruct (Hup _ Hr0 Hr1) as (-> & Hra & Hrb).
  destruct (Hup _ Hs0 Hs1) as (-> & Hsa & Hsb).
  rewrite !map_app, !map_cons in Hsum |- *. cbn [map] in Hsum |- *.
  unfold sum_list_Z in *. rewrite !foldr_app in Hsum |- *.
  cbn [foldr] in Hsum |- *.
  destruct (1 <=? header_version hdr) eqn:E1;
    destruct (header_version hdr =? 2) eqn:E2; cbn [map foldr app] in Hsum |- *.
  - apply Forall_cons in H4 as [[Ha0 Ha1] _].
    apply Forall_cons in H5 as [[Hb0 Hb1] _].
    destruct (Hup _ Ha0 Ha1) as (-> & Haa & Hab).
    destruct (Hup _ Hb0 Hb1) as (-> & Hba & Hbb).
    rewrite wrap32_small by lia.
    rewrite (Z.mod_small (_ + round_up _ (recovery_acpio_size hdr))) by lia.
    rewrite Z.mod_small by lia.
    split; [lia|]. split; [|lia]. repeat apply Hmod; done.
  - apply Forall_cons in H4 as [[Ha0 Ha1] _].
    destruct (Hup _ Ha0 Ha1) as (-> & Haa & Hab).
    rewrite wrap32_small by lia. rewrite !Z.mod_small by lia.
    split; [lia|]. split; [|lia]. repeat apply Hmod; done.
  - apply Z.leb_gt in E1. apply Z.eqb_eq in E2. lia.
  - rewrite wrap32_small by lia.
    split; [lia|]. split; [|lia]. repeat apply Hmod; done.
Qed.

Lemma bootimage_size_covers_witness :
  bootimage_size 64 (mk_boot_img_hdr 5000 1 0 4096 2 100 4097)
  = 4096 + (8192 + 4096 + 0 + 4096 + 8192).
Proof.
  destruct (bootimage_size_covers 64
              (mk_boot_img_hdr 5000 1 0 4096 2 100 4097) 12) as [H _].
  - reflexivity.
  - lia.
  - lia.
  - repeat constructor; vm_compute; congruence.
  - vm_compute. reflexivity.
  - rewrite H. vm_compute. reflexivity.
Defined.

Lemma int64_wrap64 x : - 2 ^ 63 <= x < 2 ^ 63 -> int64 (wrap64 x) = x.
Proof.
  intros Hx. unfold int64, wrap64.
  destruct (Z.lt_ge_cases x 0).
  - rewrite <- (Z.mod_unique x (2 ^ 64) (-1) (x + 2 ^ 64)) by lia.
    rewrite <- (Z.mod_unique (x + 2 ^ 64 + 2 ^ 63) (2 ^ 64) 1 (x + 2 ^ 63))
      by lia.
    lia.
  - rewrite (Z.mod_small x) by lia.
    rewrite (Z.mod_small (x + 2 ^ 63)) by lia. lia.
Qed.

(** X20. For a partition below 2^63 bytes and a length below 2^63,
    [read_partition] calls [ReadDisk] exactly when the range lies inside the
    partition, at the partition's first byte plus the offset, a negative
    offset counting from the end, and returns [EFI_END_OF_MEDIA] otherwise;
    a length of 2^64 minus the offset passes the check, the sum wrapping to
    0. *)
Theorem read_partition_in_bounds (part : gpt_partition) (offset len : Z)
    (data : list Z) (dk : disk) :
  0 <= starting_lba part <= ending_lba part + 1 ->
  0 < BlockSize dk ->
  (ending_lba part + 1) * BlockSize dk < 2 ^ 63 ->
  - 2 ^ 63 <= offset < 2 ^ 63 ->
  0 <= len < 2 ^ 64 ->
  let first := starting_lba part * BlockSize dk in
  let partlen := (ending_lba part + 1 - starting_lba part) * BlockSize dk in
  let from := if offset <? 0 then offset + partlen else offset in
  let r := read_partition (Some part) offset len data dk in
  get_partition_size (Some part) dk = partlen
  /\ (len < 2 ^ 63 ->
      r = if (0 <=? from) && (from + len <=? partlen)
          then
            let '(ret, data, dk) :=
              ReadDisk (first + from) (Z.to_nat len) data dk in
            (ReadDisk_status ret, data, dk)
          else (EFI_END_OF_MEDIA, data, dk))
  /\ (0 < offset -> len = 2 ^ 64 - offset -> r.1.1 <> EFI_END_OF_MEDIA).
Proof.
  intros Hlba Hbs Hend Hoff Hlen. cbv zeta.
  set (A := starting_lba part * BlockSize dk).
  set (P := (ending_lba part + 1 - starting_lba part) * BlockSize dk).
  assert (HA : 0 <= A) by (unfold A; nia).
  assert (HP : 0 <= P) by (unfold P; nia).
  assert (HAP : A + P < 2 ^ 63) by (unfold A, P; nia).
  assert (Hsize : get_partition_size (Some part) dk = P).
  { unfold get_partition_size, wrap64.
    rewrite (Z.mod_small (_ - _)).
    - fold P. apply Z.mod_small. lia.
    - split; [lia|]. nia. }
  split; [done|].
  unfold read_partition. rewrite Hsize. fold A.
  assert (wrap64 A = A) as -> by (apply Z.mod_small; lia).
  split.
  - intros Hl63. destruct (Z.ltb_spec offset 0) as [Hneg|Hpos].
    + rewrite int64_wrap64 by lia. unfold wrap64.
      destruct (Z.ltb_spec (offset + P) 0) as [H1|H1];
        destruct (Z.leb_spec 0 (offset + P)) as [H2|H2]; try lia; [done|].
      cbn [orb andb]. rewrite (Z.mod_small (len + _)) by lia.
      destruct (Z.ltb_spec P (len + (offset + P)));
        destruct (Z.leb_spec (offset + P + len) P); try lia; [done|].
      by rewrite Z.mod_small by lia.
    + destruct (Z.leb_spec 0 offset); [|lia].
      destruct (Z.ltb_spec offset 0); [lia|]. cbn [orb andb].
      unfold wrap64. rewrite (Z.mod_small (len + _)) by lia.
      destruct (Z.ltb_spec P (len + offset));
        destruct (Z.leb_spec (offset + len) P); try lia; [done|].
      by rewrite Z.mod_small by lia.
  - intros Hpos ->. destruct (Z.ltb_spec offset 0); [lia|]. cbn [orb].
    unfold wrap64 at 1.
    replace (2 ^ 64 - offset + offset) with (2 ^ 64) by lia.
    rewrite Z.mod_same by lia.
    destruct (Z.ltb_spec P 0); [lia|].
    destruct (Z.ltb_spec offset 0); [lia|]. cbn [orb].
    by destruct (ReadDisk _ _ _ _) as [[? ?] ?].
Qed.

Lemma read_partition_in_bounds_witness :
  let part := mk_gpt_partition false "misc" 2 5 in
  (read_partition (Some part) (-2048) 4 [0; 0; 0; 0] example_disk).1
  = (ReadDisk_status EFI_SUCCESS, [65; 65; 65; 65])
  /\ (read_partition (Some part) 2047 2 [0; 0] example_disk).1.1
     = EFI_END_OF_MEDIA.
Proof.
  cbv zeta.
  destruct (read_partition_in_bounds (mk_gpt_partition false "misc" 2 5)
              (-2048) 4 [0; 0; 0; 0] example_disk) as (_ & H & _);
    [vm_compute; split; congruence |vm_compute; congruence|vm_compute; done
    |lia|lia|].
  destruct (read_partition_in_bounds (mk_gpt_partition false "misc" 2 5)
              2047 2 [0; 0] example_disk) as (_ & H' & _);
    [vm_compute; split; congruence |vm_compute; congruence|vm_compute; done
    |lia|lia|].
  rewrite H by lia. rewrite H' by lia. split; vm_compute; reflexivity.
Defined.

Lemma hex_value_app acc s1 s2 :
  hex_value acc (s1 ++ s2)%string = hex_value (hex_value acc s1) s2.
Proof. revert acc. induction s1 as [|c s1 IH]; intros acc; simpl; [done|]. apply IH. Qed.

Lemma hex_value_digit acc d :
  0 <= d < 16 -> hex_value acc (hex_digit d) = 16 * acc + d.
Proof.
  intros Hd.
  assert (d = 0 \/ d = 1 \/ d = 2 \/ d = 3 \/ d = 4 \/ d = 5 \/ d = 6
          \/ d = 7 \/ d = 8 \/ d = 9 \/ d = 10 \/ d = 11 \/ d = 12
          \/ d = 13 \/ d = 14 \/ d = 15) as H by lia.
  repeat (destruct H as [H | H];
          [subst d; cbn [hex_digit hex_value]; unfold hex_digit_value;
           simpl; lia|]).
  subst d. cbn [hex_digit hex_value]. unfold hex_digit_value. simpl. lia.
Qed.

Lemma hex_value_hex_digits fuel : forall v acc_s,
  0 <= v < 16 ^ Z.of_nat fuel ->
  hex_value 0 (hex_digits fuel v acc_s) = hex_value v acc_s.
Proof.
  induction fuel as [|fuel IH]; intros v acc_s Hv.
  - cbn [hex_digits]. change (16 ^ Z.of_nat 0) with 1 in Hv.
    by replace v with 0 by lia.
  - cbn [hex_digits].
    pose proof (Z.div_mod v 16 ltac:(lia)) as Hdm.
    pose proof (Z.mod_pos_bound v 16 ltac:(lia)) as Hm.
    destruct (Z.eqb_spec (v / 16) 0) as [Hz|Hnz].
    + rewrite hex_value_app, hex_value_digit by lia. f_equal. lia.
    + rewrite IH.
      * rewrite hex_value_app, hex_value_digit by lia. f_equal. lia.
      * rewrite Nat2Z.inj_succ, Z.pow_succ_r in Hv by lia.
        split; [apply Z.div_pos; lia|].
        apply Z.div_lt_upper_bound; lia.
Qed.

Lemma hex_value_zero_pad n s : hex_value 0 (zero_pad n s) = hex_value 0 s.
Proof.
  revert s. induction n as [|n IH]; intros s; cbn [zero_pad]; [done|].
  destruct (_ <? _)%nat; [|done]. by rewrite IH.
Qed.

(** [%04x] can be read back: the digits denote the low 32 bits of [v]. *)
Lemma hex_value_format_04x v : hex_value 0 (format_04x v) = wrap32 v.
Proof.
  unfold format_04x.
  rewrite hex_value_zero_pad, hex_value_hex_digits; [done|].
  change (16 ^ Z.of_nat 8) with (2 ^ 32). unfold wrap32.
  apply Z.mod_pos_bound. lia.
Qed.

Lemma string_append_inv_head (p a b : string) :
  (p ++ a)%string = (p ++ b)%string -> a = b.
Proof. induction p as [|c p IH]; simpl; [done|]. intros [= H]. by apply IH. Qed.

(** Two slots have the same variable exactly when they agree in their low
    32 bits. *)
Lemma ROLLBACK_INDEX_FMT_inj i j :
  ROLLBACK_INDEX_FMT i = ROLLBACK_INDEX_FMT j <-> wrap32 i = wrap32 j.
Proof.
  unfold ROLLBACK_INDEX_FMT. split.
  - intros H. apply string_append_inv_head in H.
    rewrite <- (hex_value_format_04x i), <- (hex_value_format_04x j).
    by rewrite H.
  - intros H. unfold format_04x. by rewrite H.
Qed.

(** X21. The rollback indices that are kept in EFI variables: with a
    variable store that answers, [write_efi_rollback_index] succeeds; the
    slot written, and with it every slot that has the same low 32 bits, then
    reads the value written, and every other slot reads what it read before.
    The name [RollbackIndex_%04x] is made from the low 32 bits of the
    [UINTN] slot, so two slots have one variable exactly when they agree
    modulo 2^32. *)
Theorem efi_rollback_index_slots (i j v out : Z) (vs : varstore) :
  0 <= v < 2 ^ 64 ->
  var_faults vs = [] ->
  let w := write_efi_rollback_index i v vs in
  w.1 = EFI_SUCCESS
  /\ (read_efi_rollback_index j out w.2).1
     = (if bool_decide (wrap32 i = wrap32 j) then (EFI_SUCCESS, v)
        else (read_efi_rollback_index j out vs).1)
  /\ (ROLLBACK_INDEX_FMT i = ROLLBACK_INDEX_FMT j <-> wrap32 i = wrap32 j).
Proof.
  intros Hv Hf. cbv zeta.
  unfold write_efi_rollback_index, read_efi_rollback_index.
  rewrite set_efi_variable_nofault by done. cbn [fst snd].
  rewrite !get_efi_variable_nofault by done.
  cbn [vars]. split; [done|]. split; [|apply ROLLBACK_INDEX_FMT_inj].
  case_bool_decide as Hij.
  - apply ROLLBACK_INDEX_FMT_inj in Hij. rewrite Hij.
    rewrite lookup_insert_eq. cbn [var_data].
    rewrite bytes_of_uint_length. cbn [Nat.eqb negb fst snd].
    by rewrite uint_of_bytes_of_uint.
  - rewrite lookup_insert_ne.
    + destruct (vars vs !! _) as [x|]; [destruct (negb _)|]; done.
    + intros H. apply Hij. apply ROLLBACK_INDEX_FMT_inj.
      exact (f_equal snd H).
Qed.

(** Slot 31 is written: slot 0 still reads 5, slot 31 reads the 9 written,
    and so does slot 2^32 + 31. *)
Lemma efi_rollback_index_slots_witness :
  (read_efi_rollback_index 0 0
     (write_efi_rollback_index 31 9 example_varstore).2).1 = (EFI_SUCCESS, 5)
  /\ (read_efi_rollback_index 31 0
        (write_efi_rollback_index 31 9 example_varstore).2).1 = (EFI_SUCCESS, 9)
  /\ (read_efi_rollback_index (2 ^ 32 + 31) 0
        (write_efi_rollback_index 31 9 example_varstore).2).1 = (EFI_SUCCESS, 9).
Proof.
  split; [|split].
  - pose proof (efi_rollback_index_slots 31 0 9 0 example_varstore
                  ltac:(lia) eq_refl) as H.
    cbv zeta in H. destruct H as (_ & H & _).
    rewrite H. vm_compute. reflexivity.
  - pose proof (efi_rollback_index_slots 31 31 9 0 example_varstore
                  ltac:(lia) eq_refl) as H.
    cbv zeta in H. destruct H as (_ & H & _).
    rewrite H. vm_compute. reflexivity.
  - pose proof (efi_rollback_index_slots 31 (2 ^ 32 + 31) 9 0 example_varstore
                  ltac:(lia) eq_refl) as H.
    cbv zeta in H. destruct H as (_ & H & _).
    rewrite H. vm_compute. reflexivity.
Defined.

(** X22. [memory_type_to_str] names the types 0 to 14 from the table,
    returns ["Unknown"] for the types above 15, and for type 15 alone reads
    the entry past the end of the table. *)
Theorem memory_type_to_str_bounds (type : Z) :
  0 <= type < 2 ^ 32 ->
  (memory_type_to_str type = None <-> type = 15)
  /\ (type < 15 -> memory_type_to_str type = memory_types !! Z.to_nat type
                   /\ memory_type_to_str type <> None)
  /\ (15 < type -> memory_type_to_str type = Some "Unknown"%string).
Proof.
  intros Ht. unfold memory_type_to_str.
  change (Z.of_nat (length memory_types)) with 15.
  destruct (Z.ltb_spec 15 type) as [Hgt|Hle].
  - repeat split; try done; lia.
  - split; [|split; [|lia]].
    + split.
      * intros Hn. apply lookup_ge_None in Hn.
        change (length memory_types) with 15%nat in Hn. lia.
      * intros ->. reflexivity.
    + intros Hlt. split; [done|]. intros Hn. apply lookup_ge_None in Hn.
      change (length memory_types) with 15%nat in Hn. lia.
Qed.

Lemma memory_type_to_str_bounds_witness :
  memory_type_to_str 15 = None
  /\ memory_type_to_str 14 = Some "EfiVENDOR_RSVD"%string.
Proof.
  split.
  - destruct (memory_type_to_str_bounds 15) as ([_ H] & _); [lia|].
    apply H. reflexivity.
  - destruct (memory_type_to_str_bounds 14) as (_ & H & _); [lia|].
    destruct H as [H _]; [lia|]. rewrite H. reflexivity.
Defined.

(** ** The partition lookup *)

Lemma gpt_find_partition_matches label dk :
  gpt_find_partition label dk = List.find (gpt_label_matches label) (partitions dk).
Proof.
  unfold gpt_find_partition, gpt_label_matches, make_android_label.
  induction (partitions dk) as [|part ps IH]; [done|].
  cbn [List.find]. rewrite IH.
  assert ((match (if (2 * GPT_NAME_LEN <?
                       2 * String.length label
                       + 2 * (String.length ANDROID_PREFIX + 1))%nat
                  then None else Some (ANDROID_PREFIX ++ label)%string) with
           | Some al => bool_decide (part_name part = al)
           | None => false
           end)
          = bool_decide (String.length label <= 27
                         /\ part_name part = (ANDROID_PREFIX ++ label)%string)%nat)
    as ->; [|done].
  change (String.length ANDROID_PREFIX) with 8%nat.
  change GPT_NAME_LEN with 36%nat.
  destruct (Nat.ltb_spec (2 * 36) (2 * String.length label + 2 * (8 + 1))).
  - symmetry. apply bool_decide_eq_false. lia.
  - apply bool_decide_ext. split; [intros ->; split; [lia|done]|by intros [_ ->]].
Qed.

Lemma find_first_match {A} (f : A -> bool) (l : list A) :
  match List.find f l with
  | Some x => exists before after,
                l = before ++ x :: after
                /\ Forall (fun q => f q = false) before /\ f x = true
  | None => Forall (fun q => f q = false) l
  end.
Proof.
  induction l as [|a l IH]; cbn [List.find]; [done|].
  destruct (f a) eqn:Ha.
  - by exists [], l.
  - destruct (List.find f l) as [x|].
    + destruct IH as (before & after & -> & Hb & Hx).
      exists (a :: before), after. repeat split; try done. by constructor.
    + by constructor.
Qed.

Lemma string_append_empty (s : string) : (s ++ EmptyString)%string = s.
Proof.
  induction s as [|c s IH]; [done|].
  change (String c (s ++ EmptyString)%string = String c s). by rewrite IH.
Qed.

Lemma substring_all (s : string) : String.substring 0 (String.length s) s = s.
Proof. induction s as [|c s IH]; [done|]. cbn. f_equal. exact IH. Qed.

(** What [copy_part] keeps, and the name it gives to an entry that the
    lookup of [lbl] has matched. *)
Lemma copy_part_spec lbl entry :
  part_type_is_null (copy_part entry) = part_type_is_null entry
  /\ starting_lba (copy_part entry) = starting_lba entry
  /\ ending_lba (copy_part entry) = ending_lba entry
  /\ (gpt_label_matches lbl entry = true ->
      String.prefix ANDROID_PREFIX lbl = false ->
      part_name (copy_part entry) = lbl).
Proof.
  unfold copy_part.
  destruct (String.prefix ANDROID_PREFIX (part_name entry)) eqn:Hp;
    cbn [part_type_is_null starting_lba ending_lba part_name];
    (split; [done|]); (split; [done|]); (split; [done|]);
    intros Hm Hl; unfold gpt_label_matches in Hm;
    apply andb_true_iff in Hm as [_ Hm]; apply orb_true_iff in Hm as [Hm|Hm].
  - apply bool_decide_eq_true in Hm. congruence.
  - apply bool_decide_eq_true in Hm as [Hlen Hn]. rewrite Hn.
    change (String.length ANDROID_PREFIX) with 8%nat.
    change GPT_NAME_LEN with 36%nat.
    change (String.length (ANDROID_PREFIX ++ lbl)) with (8 + String.length lbl)%nat.
    replace (8 + String.length lbl - 8)%nat with (String.length lbl) by lia.
    change (String.substring 8 (String.length lbl) (ANDROID_PREFIX ++ lbl))
      with (String.substring 0 (String.length lbl) lbl).
    rewrite substring_all.
    destruct (Nat.leb_spec 36 (8 + String.length lbl)); [lia|].
    apply string_append_empty.
  - by apply bool_decide_eq_true in Hm.
  - apply bool_decide_eq_true in Hm as [Hlen Hn]. rewrite Hn in Hp.
    assert (String.prefix ANDROID_PREFIX (ANDROID_PREFIX ++ lbl) = true)
      by (destruct lbl; reflexivity).
    congruence.
Qed.

(** X23. When the partition table is available, [gpt_get_partition_by_label]
    returns the copy that [copy_part] makes of the first entry of the table,
    in table order, whose type is not the null GUID and whose name is the
    label or [android_] followed by the label (for ["userdata"] with no such
    entry: of the first such entry for ["data"]).  The copy has the type and
    the blocks of the entry and, unless the label itself begins with
    [android_], the label as its name, the prefix being removed.  Without
    such an entry the result is [EFI_NOT_FOUND]. *)
Theorem gpt_get_partition_by_label_first_match (label : string) (dk : disk) :
  EFI_ERROR (gpt_cache_partition dk) = false ->
  let no_match lbl := Forall (fun q => gpt_label_matches lbl q = false) in
  match gpt_get_partition_by_label label dk with
  | (ret, Some part) =>
      ret = EFI_SUCCESS
      /\ exists entry lbl before after,
           partitions dk = before ++ entry :: after
           /\ no_match lbl before
           /\ gpt_label_matches lbl entry = true
           /\ (lbl = label
               \/ (label = "userdata"%string /\ lbl = "data"%string
                   /\ no_match label (partitions dk)))
           /\ part = copy_part entry
           /\ part_type_is_null part = false
           /\ starting_lba part = starting_lba entry
           /\ ending_lba part = ending_lba entry
           /\ (String.prefix ANDROID_PREFIX lbl = false -> part_name part = lbl)
  | (ret, None) =>
      ret = EFI_NOT_FOUND
      /\ no_match label (partitions dk)
      /\ (label = "userdata"%string -> no_match "data"%string (partitions dk))
  end.
Proof.
  intros Hc. cbv zeta. unfold gpt_get_partition_by_label. rewrite Hc.
  rewrite !gpt_find_partition_matches.
  pose proof (find_first_match (gpt_label_matches label) (partitions dk)) as H1.
  pose proof (find_first_match (gpt_label_matches "data") (partitions dk)) as H2.
  assert (Hcopy : forall lbl entry,
            gpt_label_matches lbl entry = true ->
            part_type_is_null (copy_part entry) = false
            /\ starting_lba (copy_part entry) = starting_lba entry
            /\ ending_lba (copy_part entry) = ending_lba entry
            /\ (String.prefix ANDROID_PREFIX lbl = false ->
                part_name (copy_part entry) = lbl)).
  { intros lbl entry Hm.
    destruct (copy_part_spec lbl entry) as (Ht & Hs & He & Hn).
    split; [|by auto]. rewrite Ht.
    unfold gpt_label_matches in Hm. apply andb_true_iff in Hm as [Hm _].
    by apply negb_true_iff in Hm. }
  destruct (List.find (gpt_label_matches label) (partitions dk)) as [entry|].
  - destruct H1 as (before & after & Hl & Hb & Hm).
    split; [done|]. exists entry, label, before, after.
    destruct (Hcopy label entry Hm) as (? & ? & ? & ?).
    repeat split; try done. by left.
  - case_bool_decide as Hu.
    + destruct (List.find (gpt_label_matches "data") (partitions dk))
        as [entry|].
      * destruct H2 as (before & after & Hl & Hb & Hm).
        split; [done|]. exists entry, "data"%string, before, after.
        destruct (Hcopy "data"%string entry Hm) as (? & ? & ? & ?).
        repeat split; try done. by right.
      * done.
    + done.
Qed.

(** The lookup of ["userdata"] skips the unused entry, finds no
    ["userdata"], falls back to ["data"], and returns the blocks of
    [android_data] under the name [data]. *)
Lemma gpt_get_partition_by_label_first_match_witness :
  gpt_get_partition_by_label "userdata" example_disk_data
  = (EFI_SUCCESS, Some (mk_gpt_partition false "data" 6 9)).
Proof.
  pose proof (gpt_get_partition_by_label_first_match "userdata"
                example_disk_data eq_refl) as H.
  cbv zeta in H.
  destruct (gpt_get_partition_by_label "userdata" example_disk_data)
    as [ret [part|]] eqn:E.
  - destruct H as (-> & _). vm_compute in E. by rewrite <- E.
  - vm_compute in E. discriminate E.
Defined.

(** ** Erasing the variables *)

Section EraseEfivarsProps.
Variable LOG_VAR : string.

Lemma del_efi_variable_spec guid name vs :
  let r := del_efi_variable guid name vs in
  var_faults r.2 = tail (var_faults vs)
  /\ (EFI_ERROR r.1 = false ->
      is_Some (vars vs !! (guid, name))
      /\ vars r.2 = delete (guid, name) (vars vs))
  /\ (EFI_ERROR r.1 = true -> vars r.2 = vars vs)
  /\ (var_faults vs = [] -> is_Some (vars vs !! (guid, name)) ->
      EFI_ERROR r.1 = false).
Proof.
  cbv zeta. unfold del_efi_variable, var_next_fault.
  destruct (var_faults vs) as [|[] fs] eqn:Hf;
    cbn [fst snd tail vars var_faults];
    destruct (vars vs !! (guid, name)) as [v|] eqn:Hv;
    cbn [fst snd tail vars var_faults EFI_ERROR];
    rewrite ?Hf; repeat split; try done; try (by intros []); eauto.
Qed.

Lemma size_delete_lt (m : gmap (efi_guid * string) efi_variable) k :
  is_Some (m !! k) -> (base.size (delete k m) < base.size m)%nat.
Proof.
  intros Hin. rewrite map_size_delete_Some by done.
  assert (base.size m <> 0%nat); [|lia].
  intros Hz. apply map_size_empty_inv in Hz. subst m.
  rewrite lookup_empty in Hin. by destruct Hin.
Qed.

(** Whatever the faults, the run ends, deletes nothing else than its
    candidates and adds nothing. *)
Lemma erase_efivars_loop_frame passes : forall vs,
  (base.size (vars vs) < passes)%nat ->
  exists ret vs',
    erase_efivars_loop LOG_VAR passes vs = Some (ret, vs')
    /\ (forall k, erase_candidate LOG_VAR k.1 k.2 = false ->
          vars vs' !! k = vars vs !! k)
    /\ (forall k, vars vs !! k = None -> vars vs' !! k = None).
Proof.
  induction passes as [|passes IH]; intros vs Hsz; [lia|].
  cbn [erase_efivars_loop].
  generalize (fst <$> map_to_list (vars vs)). intros keys.
  assert (Hgen : forall keys vs1,
            (base.size (vars vs1) <= base.size (vars vs))%nat ->
            exists ret vs',
              erase_efivars_pass LOG_VAR (erase_efivars_loop LOG_VAR passes)
                keys vs1 = Some (ret, vs')
              /\ (forall k, erase_candidate LOG_VAR k.1 k.2 = false ->
                    vars vs' !! k = vars vs1 !! k)
              /\ (forall k, vars vs1 !! k = None -> vars vs' !! k = None)).
  { clear keys. induction keys as [|[guid name] keys IHk]; intros vs1 Hs1;
      cbn [erase_efivars_pass].
    - unfold var_next_fault.
      destruct (var_faults vs1) as [|[] fs]; eauto 6.
    - unfold var_next_fault.
      destruct (var_faults vs1) as [|f fs] eqn:Hf.
      + destruct (erase_candidate LOG_VAR guid name) eqn:Hc; cbn [negb];
          [|by apply IHk].
        pose proof (del_efi_variable_spec guid name vs1) as (_ & Hok & Herr & _).
        destruct (del_efi_variable guid name vs1) as [dret vs2].
        cbn [fst snd] in *.
        destruct (EFI_ERROR dret).
        * destruct (IHk vs2) as (ret & vs' & -> & Hk1 & Hk2).
          { rewrite Herr by done. lia. }
          exists ret, vs'. rewrite Herr in * by done. eauto.
        * destruct (Hok eq_refl) as [Hin Hdel].
          destruct (IH vs2) as (ret & vs' & -> & Hk1 & Hk2).
          { rewrite Hdel. pose proof (size_delete_lt _ _ Hin). lia. }
          exists ret, vs'. split; [done|]. rewrite Hdel in *. split.
          -- intros k Hk. rewrite Hk1 by done. apply lookup_delete_ne.
             intros <-. cbn in Hk. congruence.
          -- intros k Hk. apply Hk2.
             destruct (decide (k = (guid, name))) as [->|Hne].
             ++ apply lookup_delete_eq.
             ++ by rewrite lookup_delete_ne.
      + destruct f; [eauto 6|].
        set (vs1' := mk_varstore (vars vs1) fs).
        destruct (erase_candidate LOG_VAR guid name) eqn:Hc; cbn [negb];
          [|by apply (IHk vs1')].
        pose proof (del_efi_variable_spec guid name vs1') as (_ & Hok & Herr & _).
        destruct (del_efi_variable guid name vs1') as [dret vs2].
        cbn [fst snd] in *.
        destruct (EFI_ERROR dret).
        * destruct (IHk vs2) as (ret & vs' & -> & Hk1 & Hk2).
          { rewrite Herr by done. done. }
          exists ret, vs'. rewrite Herr in * by done. eauto.
        * destruct (Hok eq_refl) as [Hin Hdel].
          destruct (IH vs2) as (ret & vs' & -> & Hk1 & Hk2).
          { rewrite Hdel. pose proof (size_delete_lt _ _ Hin).
            cbn [vs1' vars] in *. lia. }
          exists ret, vs'. split; [done|]. rewrite Hdel in *.
          cbn [vs1' vars] in *. split.
          -- intros k Hk. rewrite Hk1 by done. apply lookup_delete_ne.
             intros <-. cbn in Hk. congruence.
          -- intros k Hk. apply Hk2.
             destruct (decide (k = (guid, name))) as [->|Hne].
             ++ apply lookup_delete_eq.
             ++ by rewrite lookup_delete_ne. }
  by apply Hgen.
Qed.

Lemma erase_efivars_loop_nofault passes : forall vs,
  (base.size (vars vs) < passes)%nat ->
  var_faults vs = [] ->
  exists vs',
    erase_efivars_loop LOG_VAR passes vs = Some (EFI_SUCCESS, vs')
    /\ forall k, erase_candidate LOG_VAR k.1 k.2 = true -> vars vs' !! k = None.
Proof.
  induction passes as [|passes IH]; intros vs Hsz Hf; [lia|].
  cbn [erase_efivars_loop].
  assert (Hgen : forall keys,
            (forall k, k ∈ keys -> is_Some (vars vs !! k)) ->
            exists vs',
              erase_efivars_pass LOG_VAR (erase_efivars_loop LOG_VAR passes)
                keys vs = Some (EFI_SUCCESS, vs')
              /\ ((vs' = vs
                   /\ forall k, k ∈ keys -> erase_candidate LOG_VAR k.1 k.2 = false)
                  \/ forall k, erase_candidate LOG_VAR k.1 k.2 = true ->
                               vars vs' !! k = None)).
  { induction keys as [|[guid name] keys IHk]; intros Hin;
      cbn [erase_efivars_pass]; unfold var_next_fault; rewrite Hf.
    - exists vs. split; [done|]. left. split; [done|].
      intros k Hk. by apply elem_of_nil in Hk.
    - destruct (erase_candidate LOG_VAR guid name) eqn:Hc; cbn [negb].
      + pose proof (del_efi_variable_spec guid name vs) as (Hfs & Hok & _ & Hsucc).
        destruct (del_efi_variable guid name vs) as [dret vs2].
        cbn [fst snd] in *.
        rewrite Hsucc; [|done|apply Hin, elem_of_cons; by left].
        destruct Hok as [Hsome Hdel]; [apply Hsucc; [done|]|].
        { apply Hin, elem_of_cons. by left. }
        destruct (IH vs2) as (vs' & -> & Hall).
        * rewrite Hdel. pose proof (size_delete_lt _ _ Hsome). lia.
        * by rewrite Hfs, Hf.
        * exists vs'. split; [done|]. by right.
      + destruct IHk as (vs' & -> & [[-> Hnone] | Hall]).
        * intros k Hk. apply Hin, elem_of_cons. by right.
        * exists vs. split; [done|]. left. split; [done|].
          intros k [->|Hk]%elem_of_cons; [done|by apply Hnone].
        * exists vs'. split; [done|]. by right. }
  destruct (Hgen (fst <$> map_to_list (vars vs))) as (vs' & -> & [[-> Hnone] | Hall]).
  - intros k (kv & -> & Hkv)%list_elem_of_fmap.
    destruct kv as [k v]. apply elem_of_map_to_list in Hkv. by exists v.
  - exists vs. split; [done|]. intros k Hk.
    destruct (vars vs !! k) as [v|] eqn:Hv; [|done].
    rewrite Hnone in Hk; [done|].
    apply list_elem_of_fmap. exists (k, v). split; [done|].
    by apply elem_of_map_to_list.
  - exists vs'. by split.
Qed.


End EraseEfivarsProps.

